(** * Hi-Tech Institute admin backend: request pipeline, shallow embedding

  The development follows the TypeScript sources: the Joi validation
  schemas ([utils/validators.ts]), the authentication middleware
  ([middlewares/auth.ts]), the central error handler, the Mongoose
  models for notices and gallery items and the notice and gallery
  controllers.  The notice controller exists in two generations, one
  that keeps attachments on the local disk and one that sends them to
  Cloudinary; both are embedded.  Handlers are written in state-passing
  style over a
  [World] holding the document collections, the Cloudinary bucket, the
  local uploads directory and the console log.  What the platform decides
  (the clock, the outcome of a remote call, the availability of the
  database) is read from an explicit [Env] record. *)

From Stdlib Require Import ZArith Bool Ascii String List Lia Sorted.
From stdpp Require Import gmap strings list pretty.

Open Scope Z_scope.

(* ===================================================================== *)
(** ** JavaScript values                                                   *)
(* ===================================================================== *)

Module Js.

(** A string is a sequence of code units, one [ascii] each. *)

(** A JavaScript number.  [Frac fl] is a finite non-integer lying strictly
    between [fl] and [fl + 1]: the schemas only compare numbers with
    integer bounds, for which the floor is all that matters. *)
Inductive number :=
| Int (z : Z)
| Frac (fl : Z)
| NaN
| PosInf
| NegInf.

Inductive value :=
| VUndefined
| VNull
| VBool (b : bool)
| VNum (n : number)
| VStr (s : string)
| VDate (ms : Z)
| VArray
| VObject.

(** A plain object, in property insertion order.  Arrays and nested
    objects are opaque: no schema of the program looks inside one.
    [VDate ms] is a valid [Date] object, in milliseconds since the epoch. *)
Definition object := list (string * value).

(** ToBoolean. *)
Definition truthy (v : value) : bool :=
  match v with
  | VUndefined | VNull => false
  | VBool b => b
  | VNum (Int z) => negb (z =? 0)
  | VNum NaN => false
  | VNum _ => true
  | VStr s => negb (String.eqb s "")
  | VDate _ | VArray | VObject => true
  end.

(** [a || b]. *)
Definition or (a b : value) : value := if truthy a then a else b.

(** Property read [o[k]]; an absent key reads [undefined].  An object has
    one binding per key: the first one is the binding. *)
Fixpoint get (k : string) (o : object) : value :=
  match o with
  | [] => VUndefined
  | (k', v) :: rest => if String.eqb k k' then v else get k rest
  end.

(** Property write [o[k] = v]: in place for a key the object has, at the
    end for a new one. *)
Fixpoint set (k : string) (v : value) (o : object) : object :=
  match o with
  | [] => [(k, v)]
  | (k', v') :: rest =>
      if String.eqb k k' then (k, v) :: rest else (k', v') :: set k v rest
  end.

(** [delete o[k]]. *)
Definition remove (k : string) (o : object) : object :=
  List.filter (fun kv => negb (String.eqb k (fst kv))) o.

(** [Object.keys(o)]. *)
Definition keys (o : object) : list string := map fst o.

(** White space and line terminators of the Latin-1 range, as removed by
    [String.prototype.trim] and skipped by [parseInt]. *)
Definition is_space (a : ascii) : bool :=
  let c := nat_of_ascii a in
  ((9 <=? c) && (c <=? 13) || (c =? 32) || (c =? 160))%nat.

Fixpoint trim_start (s : string) : string :=
  match s with
  | String a rest => if is_space a then trim_start rest else s
  | EmptyString => EmptyString
  end.

Fixpoint rev_string (s : string) (acc : string) : string :=
  match s with
  | EmptyString => acc
  | String a rest => rev_string rest (String a acc)
  end.

Definition trim_end (s : string) : string :=
  rev_string (trim_start (rev_string s EmptyString)) EmptyString.

(** [s.trim()]. *)
Definition trim (s : string) : string := trim_end (trim_start s).

Definition between (lo hi : nat) (a : ascii) : bool :=
  let c := nat_of_ascii a in ((lo <=? c) && (c <=? hi))%nat.

Definition is_digit : ascii -> bool := between 48 57.
Definition is_lower : ascii -> bool := between 97 122.
Definition is_upper : ascii -> bool := between 65 90.

Definition digit_value (radix : Z) (a : ascii) : option Z :=
  let c := Z.of_nat (nat_of_ascii a) in
  let d := if is_digit a then c - 48
           else if is_lower a then c - 87
           else if is_upper a then c - 55
           else radix in
  if d <? radix then Some d else None.

(** The longest prefix of digits in [radix]; [None] when it is empty. *)
Fixpoint digits (radix : Z) (s : string) (acc : option Z) : option Z :=
  match s with
  | EmptyString => acc
  | String a rest =>
      match digit_value radix a with
      | Some d => digits radix rest (Some (radix * default 0 acc + d))
      | None => acc
      end
  end.

(** [parseInt(s)] without a radix argument.  The integer the digits
    denote is kept as it is: this is [parseInt] on the strings whose
    integer is below 2^53 in absolute value, which a Number holds
    exactly; beyond that JavaScript rounds, and from 2^1024 on gives an
    infinity. *)
Definition parseInt (s : string) : number :=
  let s1 := trim_start s in
  let '(neg, s2) :=
    match s1 with
    | String "-" r => (true, r)
    | String "+" r => (false, r)
    | _ => (false, s1)
    end in
  let '(radix, s3) :=
    match s2 with
    | String "0" (String "x" r) | String "0" (String "X" r) => (16, r)
    | _ => (10, s2)
    end in
  match digits radix s3 None with
  | Some z => Int (if neg : bool then - z else z)
  | None => NaN
  end.

(** [parseInt(q as string)] for a query parameter that may be missing:
    [undefined] is converted to the string ["undefined"]. *)
Definition parseInt_param (q : option string) : number :=
  parseInt (default "undefined" q).

(** [parseInt(q) || d]: what [parseInt] returns is an integer or [NaN]. *)
Definition parseInt_or (q : option string) (d : Z) : Z :=
  match or (VNum (parseInt_param q)) (VNum (Int d)) with
  | VNum (Int z) => z
  | _ => d
  end.

(** [Math.ceil(a / b)] on integers, [b] non-zero. *)
Definition ceil_div (a b : Z) : Z := - ((- a) / b).

(** *** Errors *)

(** The error classes the handlers meet, with the prototype chain of the
    [jsonwebtoken], [mongoose] and application classes. *)
Inductive errClass :=
| Error
| TypeError
| AppError
| JsonWebTokenError
| TokenExpiredError
| NotBeforeError
| MongooseError
| CastError
| ValidationError
| MongoServerError
| CloudinaryError
| ReferenceError.

Global Instance errClass_eq_dec : EqDecision errClass.
Proof. solve_decision. Defined.

(** The direct superclass.  In [jsonwebtoken], [TokenExpiredError] and
    [NotBeforeError] are created from [JsonWebTokenError.prototype]. *)
Definition parent (c : errClass) : option errClass :=
  match c with
  | Error => None
  | TokenExpiredError | NotBeforeError => Some JsonWebTokenError
  | CastError | ValidationError => Some MongooseError
  | _ => Some Error
  end.

Fixpoint chain (fuel : nat) (c : errClass) : list errClass :=
  match fuel with
  | O => [c]
  | S fuel' =>
      c :: match parent c with
           | Some p => chain fuel' p
           | None => []
           end
  end.

(** [e instanceof C] on the class of [e]. *)
Definition instanceof (c super : errClass) : bool :=
  bool_decide (super ∈ chain 3 c).

(** The [code] property of an error: a MongoDB numeric code or a multer
    string code. *)
Inductive errCode :=
| NumCode (n : Z)
| StrCode (s : string).

Record error := mkError {
  cls : errClass;
  name : string;
  message : string;
  statusCode : option Z;
  code : option errCode;
  details : list string
}.

Definition plain_error (msg : string) : error :=
  mkError Error "Error" msg None None [].

(** The outcome of an awaited call: a value or a thrown error. *)
Inductive outcome (A : Type) :=
| Returns (a : A)
| Throws (e : error).
Arguments Returns {A} a.
Arguments Throws {A} e.

End Js.

(* ===================================================================== *)
(** ** HTTP responses                                                      *)
(* ===================================================================== *)

Module Http.

(** The JSON envelope [{success, message, errors?}] with its status
    line; the [data] member is kept by each controller. *)
Record response (D : Type) := mkResponse {
  status : Z;
  success : bool;
  message : string;
  errors : list string;
  data : option D
}.
Arguments mkResponse {D}.
Arguments status {D}.
Arguments success {D}.
Arguments message {D}.
Arguments errors {D}.
Arguments data {D}.

Definition fail {D} (st : Z) (msg : string) : response D :=
  mkResponse st false msg [] None.

Definition fail_with {D} (st : Z) (msg : string) (errs : list string)
  : response D :=
  mkResponse st false msg errs None.

Definition ok {D} (st : Z) (msg : string) (d : D) : response D :=
  mkResponse st true msg [] (Some d).

End Http.

(* ===================================================================== *)
(** ** The Joi schemas of [utils/validators.ts]                            *)
(* ===================================================================== *)

Module Joi.
Import Js.

(** Library functions the schemas rely on and the program does not define:
    the address check behind [Joi.string().email()], the conversion of a
    numeric string behind [Joi.number()] and of a date string behind
    [Joi.date()]. *)
Record lib := mkLib {
  isEmail : string -> bool;
  toNumber : string -> option number;
  toDate : string -> option Z
}.

Inductive base := TString | TNumber | TDate.

Inductive rule :=
| StrMin (limit : nat)
| StrMax (limit : nat)
| StrEmail
| StrPattern (source : string) (test : string -> bool)
| NumInteger
| NumMin (limit : Z)
| NumMax (limit : Z).

(** One key of a [Joi.object({...})]: its type, the [trim()] conversion,
    [required()], [default(v)], [valid(...)], the rules in the order they
    were chained and the [messages({...})] overrides. *)
Record schema := mkSchema {
  type : base;
  trimmed : bool;
  required : bool;
  dflt : option Js.value;
  valids : option (list string);
  rules : list rule;
  messages : list (string * string)
}.

Record detail := mkDetail {
  path : string;
  code : string;
  text : string
}.

(** What [schema.validate(data, options)] returns: [error] is [undefined]
    (here [[]]) or carries the [details]; [value] is the converted copy. *)
Record result := mkResult {
  details : list detail;
  value : object
}.

Definition dquote : string := String (ascii_of_nat 34) EmptyString.
Definition label (key : string) : string := dquote +:+ key +:+ dquote.

Definition rule_code (r : rule) : string :=
  match r with
  | StrMin _ => "string.min"
  | StrMax _ => "string.max"
  | StrEmail => "string.email"
  | StrPattern _ _ => "string.pattern.base"
  | NumInteger => "number.integer"
  | NumMin _ => "number.min"
  | NumMax _ => "number.max"
  end.

Definition show (v : Js.value) : string :=
  match v with
  | VStr s => s
  | VNum (Int z) => pretty z
  | _ => ""
  end.

Fixpoint join (sep : string) (l : list string) : string :=
  match l with
  | [] => ""
  | [x] => x
  | x :: rest => x +:+ sep +:+ join sep rest
  end.

(** Joi's own message templates, used where [messages] has no override. *)
Definition template (s : schema) (c : string) (key : string)
  (r : option rule) (v : Js.value) : string :=
  let l := label key in
  match r with
  | Some (StrMin n) =>
      l +:+ " length must be at least " +:+ pretty n +:+ " characters long"
  | Some (StrMax n) =>
      l +:+ " length must be less than or equal to " +:+ pretty n
        +:+ " characters long"
  | Some StrEmail => l +:+ " must be a valid email"
  | Some (StrPattern src _) =>
      l +:+ " with value " +:+ dquote +:+ show v +:+ dquote
        +:+ " fails to match the required pattern: " +:+ src
  | Some NumInteger => l +:+ " must be an integer"
  | Some (NumMin z) => l +:+ " must be greater than or equal to " +:+ pretty z
  | Some (NumMax z) => l +:+ " must be less than or equal to " +:+ pretty z
  | None =>
      if String.eqb c "any.required" then l +:+ " is required"
      else if String.eqb c "any.only" then
        l +:+ " must be "
          +:+ (if (length (default [] (valids s)) =? 1)%nat then ""
               else "one of ")
          +:+ "[" +:+ join ", " (default [] (valids s)) +:+ "]"
      else if String.eqb c "string.base" then l +:+ " must be a string"
      else if String.eqb c "string.empty" then l +:+ " is not allowed to be empty"
      else if String.eqb c "number.base" then l +:+ " must be a number"
      else if String.eqb c "number.infinity" then l +:+ " cannot be infinity"
      else if String.eqb c "number.unsafe" then l +:+ " must be a safe number"
      else if String.eqb c "date.base" then l +:+ " must be a valid date"
      else l +:+ " is invalid"
  end.

Fixpoint assoc (k : string) (l : list (string * string)) : option string :=
  match l with
  | [] => None
  | (k', v) :: rest => if String.eqb k k' then Some v else assoc k rest
  end.

(** [schema.$_createError(code, ...)]: the override when there is one. *)
Definition createError (key : string) (s : schema) (c : string)
  (r : option rule) (v : Js.value) : detail :=
  mkDetail key c (default (template s c key r v) (assoc c (messages s))).

Definition max_safe_integer : Z := 2 ^ 53 - 1.

(** The time values a [Date] can hold. *)
Definition in_date_range (ms : Z) : bool := Z.abs ms <=? 8640000000000000.

(** Objects live in a store and are passed by reference. *)
Abbreviation heap := (gmap positive object) (only parsing).

Section Engine.
Variable L : lib.

(** Type coercion, run first when [convert] is on (the default): a string
    is trimmed, a numeric string becomes a number, a date string or a
    time stamp (truncated to an integer) becomes a [Date]. *)
Definition coerce (s : schema) (v : Js.value) : Js.value :=
  match type s, v with
  | TString, VStr x => if trimmed s then VStr (trim x) else v
  | TNumber, VStr x =>
      match toNumber L x with
      | Some n => VNum n
      | None => v
      end
  | TDate, VStr x =>
      match toDate L x with
      | Some ms => VDate ms
      | None => v
      end
  | TDate, VNum (Int ms) => if in_date_range ms then VDate ms else v
  | TDate, VNum (Frac fl) =>
      let ms := if 0 <=? fl then fl else fl + 1 in
      if in_date_range ms then VDate ms else v
  | _, _ => v
  end.

(** The type's own [validate] hook; its error ends the key's validation
    whatever [abortEarly] says. *)
Definition base_error (s : schema) (v : Js.value) : option string :=
  match type s, v with
  | TString, VStr x =>
      if String.eqb x "" then Some "string.empty" else None
  | TString, _ => Some "string.base"
  | TNumber, VNum (Int z) =>
      if (Z.abs z <=? max_safe_integer) then None else Some "number.unsafe"
  | TNumber, VNum (Frac fl) =>
      if (- max_safe_integer <=? fl) && (fl <? max_safe_integer) then None
      else Some "number.unsafe"
  | TNumber, VNum PosInf | TNumber, VNum NegInf => Some "number.infinity"
  | TNumber, _ => Some "number.base"
  | TDate, VDate _ => None
  | TDate, _ => Some "date.base"
  end.

Definition rule_ok (r : rule) (v : Js.value) : bool :=
  match r, v with
  | StrMin n, VStr x => (n <=? String.length x)%nat
  | StrMax n, VStr x => (String.length x <=? n)%nat
  | StrEmail, VStr x => isEmail L x
  | StrPattern _ test, VStr x => test x
  | NumInteger, VNum (Int _) => true
  | NumInteger, VNum _ => false
  | NumMin z, VNum (Int a) => z <=? a
  | NumMin z, VNum (Frac fl) => z <=? fl
  | NumMax z, VNum (Int a) => a <=? z
  | NumMax z, VNum (Frac fl) => fl <? z
  | _, _ => true
  end.

Definition in_valids (s : schema) (v : Js.value) : bool :=
  match valids s, v with
  | Some vs, VStr x => existsb (String.eqb x) vs
  | _, _ => false
  end.

(** The loop over the rules of a key: with [abortEarly] the first failing
    rule ends it, without it every failing rule adds its error. *)
Fixpoint run_rules (abortEarly : bool) (key : string) (s : schema)
  (v : Js.value) (rs : list rule) (errors : list detail) : list detail :=
  match rs with
  | [] => errors
  | r :: rest =>
      if rule_ok r v then run_rules abortEarly key s v rest errors
      else
        let report := createError key s (rule_code r) (Some r) v in
        if abortEarly then [report]
        else run_rules abortEarly key s v rest (errors ++ [report])
  end.

(** The end of the validation of a present value: the base type, whose
    error ends the validation, then the rules. *)
Definition validate_typed (abortEarly : bool) (key : string) (s : schema)
  (v : Js.value) (errors : list detail) : Js.value * list detail :=
  match base_error s v with
  | Some c => (v, errors ++ [createError key s c None v])
  | None => (v, run_rules abortEarly key s v (rules s) errors)
  end.

(** Validation of one value against the schema of its key: coercion,
    presence, allowed values, base type, rules. *)
Definition validate_value (abortEarly : bool) (key : string) (s : schema)
  (raw : Js.value) : Js.value * list detail :=
  let v := coerce s raw in
  match v with
  | VUndefined =>
      if required s then (v, [createError key s "any.required" None v])
      else (default VUndefined (dflt s), [])
  | _ =>
      match valids s with
      | Some _ =>
          if in_valids s v then (v, [])
          else
            let report := createError key s "any.only" None v in
            if abortEarly then (v, [report])
            else validate_typed abortEarly key s v [report]
      | None => validate_typed abortEarly key s v []
      end
  end.

(** The loop of [Joi.object] over the keys of the schema, on the shallow
    clone [value] of the input.  The flag tells whether the loop returned
    early. *)
Fixpoint validate_keys (abortEarly : bool) (keys : list (string * schema))
  (value : object) (errors : list detail) : bool * object * list detail :=
  match keys with
  | [] => (false, value, errors)
  | (key, child) :: rest =>
      let item := get key value in
      let '(v, errs) := validate_value abortEarly key child item in
      match errs with
      | _ :: _ =>
          if abortEarly then (true, value, errs)
          else
            validate_keys abortEarly rest
              match v with
              | VUndefined => value
              | _ => set key v value
              end
              (errors ++ errs)
      | [] =>
          match v, item with
          | VUndefined, VUndefined => validate_keys abortEarly rest value errors
          | VUndefined, _ =>
              validate_keys abortEarly rest (remove key value) errors
          | _, _ => validate_keys abortEarly rest (set key v value) errors
          end
      end
  end.

(** The error of a key the schema does not name. *)
Definition unknown_error (key : string) : detail :=
  mkDetail key "object.unknown" (label key +:+ " is not allowed").

(** The keys of the input the schema does not know. *)
Fixpoint report_unknown (abortEarly : bool) (unprocessed : list string)
  (errors : list detail) : list detail :=
  match unprocessed with
  | [] => errors
  | key :: rest =>
      if abortEarly then [unknown_error key]
      else report_unknown abortEarly rest (errors ++ [unknown_error key])
  end.

Definition unprocessed (keys : list (string * schema)) (data : object)
  : list string :=
  List.filter (fun k => negb (existsb (String.eqb k) (map fst keys)))
    (Js.keys data).

(** [Joi.object(keys).validate(data, { abortEarly })] on an object. *)
Definition validate_object (abortEarly : bool)
  (keys : list (string * schema)) (data : object) : result :=
  match validate_keys abortEarly keys data [] with
  | (true, value, errors) => mkResult errors value
  | (false, value, errors) =>
      mkResult (report_unknown abortEarly (unprocessed keys data) errors) value
  end.

(** The errors of one key of the schema on [value]. *)
Definition key_errors (value : object) (ks : string * schema) : list detail :=
  (validate_value false ks.1 ks.2 (get ks.1 value)).2.

(** A write to the object at [p]. *)
Definition write (p : positive) (f : object -> object) (h : heap) : heap :=
  match h !! p with
  | Some o => <[p := f o]> h
  | None => h
  end.

(** The loop of [validate_keys] as it runs on the store: [value] is the
    object at [clone], every [value[key] = ...] and [delete value[key]]
    is a write to it. *)
Fixpoint validate_keys_at (abortEarly : bool) (keys : list (string * schema))
  (h : heap) (clone : positive) (errors : list detail)
  : bool * heap * list detail :=
  match keys with
  | [] => (false, h, errors)
  | (key, child) :: rest =>
      let item := get key (default [] (h !! clone)) in
      let '(v, errs) := validate_value abortEarly key child item in
      match errs with
      | _ :: _ =>
          if abortEarly then (true, h, errs)
          else
            validate_keys_at abortEarly rest
              match v with
              | VUndefined => h
              | _ => write clone (set key v) h
              end
              clone (errors ++ errs)
      | [] =>
          match v, item with
          | VUndefined, VUndefined =>
              validate_keys_at abortEarly rest h clone errors
          | VUndefined, _ =>
              validate_keys_at abortEarly rest (write clone (remove key) h)
                clone errors
          | _, _ =>
              validate_keys_at abortEarly rest (write clone (set key v) h)
                clone errors
          end
      end
  end.

(** [schema.validate(data, { abortEarly })] on the store: [data] is the
    object at [ref]; Joi's object type starts with a shallow clone of it,
    a new object, runs the loop on the clone and returns the errors and
    the clone as [value]. *)
Definition validate_at (abortEarly : bool) (keys : list (string * schema))
  (h : heap) (ref : positive) : heap * (list detail * positive) :=
  let data := default [] (h !! ref) in
  let clone := fresh (dom h) in
  match validate_keys_at abortEarly keys (<[clone := data]> h) clone [] with
  | (true, h', errors) => (h', (errors, clone))
  | (false, h', errors) =>
      (h', (report_unknown abortEarly (unprocessed keys data) errors, clone))
  end.

End Engine.

(** *** The schemas *)

Definition is_symbol (a : ascii) : bool :=
  existsb (Nat.eqb (nat_of_ascii a)) [64; 36; 33; 37; 42; 63; 38]%nat.

Definition is_line_terminator (a : ascii) : bool :=
  let c := nat_of_ascii a in ((c =? 10) || (c =? 13))%nat.

(** The part of [s] a [.*] can cross from its start. *)
Fixpoint first_line (s : string) : list ascii :=
  match s with
  | EmptyString => []
  | String a rest => if is_line_terminator a then [] else a :: first_line rest
  end.

(** [^(?=.*[a-z])(?=.*[A-Z])(?=.*\d)(?=.*[@$!%*?&])[A-Za-z\d@$!%*?&]]:
    four look-aheads from the start of the string, then one character of
    the class; the pattern is not anchored at the end. *)
Definition password_pattern (s : string) : bool :=
  let line := first_line s in
  existsb is_lower line && existsb is_upper line
  && existsb is_digit line && existsb is_symbol line
  && match s with
     | String a _ => is_lower a || is_upper a || is_digit a || is_symbol a
     | EmptyString => false
     end.

Definition password_source : string :=
  "/^(?=.*[a-z])(?=.*[A-Z])(?=.*\d)(?=.*[@$!%*?&])[A-Za-z\d@$!%*?&]/".

Definition email_field : schema :=
  mkSchema TString false true None None [StrEmail]
    [("string.email", "Please provide a valid email address");
     ("any.required", "Email is required")].

Definition signInSchema : list (string * schema) :=
  [("email", email_field);
   ("password",
     mkSchema TString false true None None [StrMin 8]
       [("string.min", "Password must be at least 8 characters long");
        ("any.required", "Password is required")])].

Definition noticeSchema : list (string * schema) :=
  [("title",
     mkSchema TString true true None None [StrMin 3; StrMax 200]
       [("string.min", "Title must be at least 3 characters long");
        ("string.max", "Title cannot exceed 200 characters");
        ("any.required", "Title is required")]);
   ("description",
     mkSchema TString true true None None [StrMin 10; StrMax 2000]
       [("string.min", "Description must be at least 10 characters long");
        ("string.max", "Description cannot exceed 2000 characters");
        ("any.required", "Description is required")]);
   ("date",
     mkSchema TDate false false None None []
       [("date.base", "Please provide a valid date")])].

Definition adminRegistrationSchema : list (string * schema) :=
  [("name",
     mkSchema TString true true None None [StrMin 2; StrMax 50]
       [("string.min", "Name must be at least 2 characters long");
        ("string.max", "Name cannot exceed 50 characters");
        ("any.required", "Name is required")]);
   ("email", email_field);
   ("password",
     mkSchema TString false true None None
       [StrMin 8; StrPattern password_source password_pattern]
       [("string.min", "Password must be at least 8 characters long");
        ("string.pattern.base",
          "Password must contain at least one uppercase letter, one lowercase letter, one digit, and one special character");
        ("any.required", "Password is required")]);
   ("role",
     mkSchema TString false false (Some (VStr "admin"))
       (Some ["admin"; "super_admin"]) []
       [("any.only", "Role must be either admin or super_admin")])].

Definition queryParamsSchema : list (string * schema) :=
  [("page",
     mkSchema TNumber false false (Some (VNum (Int 1))) None
       [NumInteger; NumMin 1]
       [("number.base", "Page must be a number");
        ("number.integer", "Page must be an integer");
        ("number.min", "Page must be at least 1")]);
   ("limit",
     mkSchema TNumber false false (Some (VNum (Int 10))) None
       [NumInteger; NumMin 1; NumMax 100]
       [("number.base", "Limit must be a number");
        ("number.integer", "Limit must be an integer");
        ("number.min", "Limit must be at least 1");
        ("number.max", "Limit cannot exceed 100")]);
   ("search",
     mkSchema TString true false None None [StrMax 100]
       [("string.max", "Search term cannot exceed 100 characters")])].

(** [/^[0-9a-fA-F]{24}$/], the pattern of [objectIdSchema]. *)
Definition is_hex (a : ascii) : bool :=
  is_digit a || between 97 102 a || between 65 70 a.

Definition objectIdPattern (id : string) : bool :=
  (String.length id =? 24)%nat && forallb is_hex (list_ascii_of_string id).

(** *** The helper functions: every one validates with
    [{ abortEarly: false }]. *)

Definition validateSignIn (L : lib) (data : object) : result :=
  validate_object L false signInSchema data.

Definition validateNotice (L : lib) (data : object) : result :=
  validate_object L false noticeSchema data.

Definition validateAdminRegistration (L : lib) (data : object) : result :=
  validate_object L false adminRegistrationSchema data.

Definition validateQueryParams (L : lib) (data : object) : result :=
  validate_object L false queryParamsSchema data.

(** [error.details.map(detail => detail.message)]. *)
Definition error_messages (r : result) : list string :=
  map text (details r).

(** *** The four helpers by name *)

Inductive schemaName := SignIn | NoticeInput | AdminRegistration | Pagination.

Definition schema_of (n : schemaName) : list (string * schema) :=
  match n with
  | SignIn => signInSchema
  | NoticeInput => noticeSchema
  | AdminRegistration => adminRegistrationSchema
  | Pagination => queryParamsSchema
  end.

Definition validate (L : lib) (n : schemaName) (data : object) : result :=
  match n with
  | SignIn => validateSignIn L data
  | NoticeInput => validateNotice L data
  | AdminRegistration => validateAdminRegistration L data
  | Pagination => validateQueryParams L data
  end.

End Joi.

(* ===================================================================== *)
(** ** The contract of the validation layer                                *)
(* ===================================================================== *)

(** The validation layer as the specification words it: a constraint
    table per record type, read by one small generic validator that
    returns an ordered list of messages.  The tables name the fields in
    their order and, for each, what the specification asks of it:
    sign-in (email format, password of 8 characters or more), notice
    (title of 3 to 200 characters, description of 10 to 2000, optional
    date), admin registration (name of 2 to 50 characters, email format,
    password of 8 characters or more with an uppercase letter, a
    lowercase letter, a digit and a symbol, role admin or super_admin),
    pagination (page 1 or more, limit from 1 to 100).  The messages are
    those of [utils/validators.ts].  Nothing here is taken from the
    engine of [Joi]: the conversions, the defects and the checks are
    stated anew. *)
Module Contract.
Import Js.

Inductive kind := Text | Number | Date.

(** One thing asked of the value of a field, with the message of its
    breach. *)
Record check := mkCheck {
  holds : Joi.lib -> value -> bool;
  message : string
}.

(** A line of a table: the field, what it holds, whether text is trimmed
    before it is judged, the message of its absence when it is
    required, its allowed values and their message when it has a list of
    them, the message for a value of another kind when the table words
    it, and the checks on its length, format or range. *)
Record field := mkField {
  name : string;
  holding : kind;
  trimmed : bool;
  needed : option string;
  allowed : option (list string * string);
  mistyped : option string;
  checks : list check
}.

Definition quoted (key : string) : string :=
  String (ascii_of_nat 34) key +:+ String (ascii_of_nat 34) EmptyString.

(** The checks. *)
Definition atLeastChars (n : nat) : Joi.lib -> value -> bool :=
  fun _ v =>
    match v with
    | VStr s => (n <=? String.length s)%nat
    | _ => true
    end.

Definition atMostChars (n : nat) : Joi.lib -> value -> bool :=
  fun _ v =>
    match v with
    | VStr s => (String.length s <=? n)%nat
    | _ => true
    end.

Definition emailFormat : Joi.lib -> value -> bool :=
  fun L v =>
    match v with
    | VStr s => Joi.isEmail L s
    | _ => true
    end.

(** An uppercase letter, a lowercase letter, a digit and a symbol, as the
    pattern of the source reads it: each on the first line, and the first
    character a letter, a digit or one of the symbols. *)
Definition strongPassword : Joi.lib -> value -> bool :=
  fun _ v =>
    match v with
    | VStr s => Joi.password_pattern s
    | _ => true
    end.

Definition wholeNumber : Joi.lib -> value -> bool :=
  fun _ v =>
    match v with
    | VNum (Int _) => true
    | VNum _ => false
    | _ => true
    end.

Definition atLeast (bound : Z) : Joi.lib -> value -> bool :=
  fun _ v =>
    match v with
    | VNum (Int z) => bound <=? z
    | VNum (Frac fl) => bound <=? fl
    | VNum PosInf => true
    | VNum _ => false
    | _ => true
    end.

Definition atMost (bound : Z) : Joi.lib -> value -> bool :=
  fun _ v =>
    match v with
    | VNum (Int z) => z <=? bound
    | VNum (Frac fl) => fl <? bound
    | VNum NegInf => true
    | VNum _ => false
    | _ => true
    end.

(** *** The tables *)

Definition email : field :=
  mkField "email" Text false (Some "Email is required") None None
    [mkCheck emailFormat "Please provide a valid email address"].

Definition signIn : list field :=
  [email;
   mkField "password" Text false (Some "Password is required") None None
     [mkCheck (atLeastChars 8) "Password must be at least 8 characters long"]].

Definition notice : list field :=
  [mkField "title" Text true (Some "Title is required") None None
     [mkCheck (atLeastChars 3) "Title must be at least 3 characters long";
      mkCheck (atMostChars 200) "Title cannot exceed 200 characters"];
   mkField "description" Text true (Some "Description is required") None
     None
     [mkCheck (atLeastChars 10)
        "Description must be at least 10 characters long";
      mkCheck (atMostChars 2000) "Description cannot exceed 2000 characters"];
   mkField "date" Date false None None (Some "Please provide a valid date")
     []].

Definition adminRegistration : list field :=
  [mkField "name" Text true (Some "Name is required") None None
     [mkCheck (atLeastChars 2) "Name must be at least 2 characters long";
      mkCheck (atMostChars 50) "Name cannot exceed 50 characters"];
   email;
   mkField "password" Text false (Some "Password is required") None None
     [mkCheck (atLeastChars 8) "Password must be at least 8 characters long";
      mkCheck strongPassword
        "Password must contain at least one uppercase letter, one lowercase letter, one digit, and one special character"];
   mkField "role" Text false None
     (Some (["admin"; "super_admin"],
            "Role must be either admin or super_admin"))
     None []].

Definition pagination : list field :=
  [mkField "page" Number false None None (Some "Page must be a number")
     [mkCheck wholeNumber "Page must be an integer";
      mkCheck (atLeast 1) "Page must be at least 1"];
   mkField "limit" Number false None None (Some "Limit must be a number")
     [mkCheck wholeNumber "Limit must be an integer";
      mkCheck (atLeast 1) "Limit must be at least 1";
      mkCheck (atMost 100) "Limit cannot exceed 100"];
   mkField "search" Text true None None None
     [mkCheck (atMostChars 100) "Search term cannot exceed 100 characters"]].

Definition table (n : Joi.schemaName) : list field :=
  match n with
  | Joi.SignIn => signIn
  | Joi.NoticeInput => notice
  | Joi.AdminRegistration => adminRegistration
  | Joi.Pagination => pagination
  end.

(** *** The generic validator *)

(** The raw value read as what the field holds: text is trimmed where
    the table says so, a numeric string is a number, a date string or a
    time stamp within the range of dates is a date. *)
Definition convert (L : Joi.lib) (f : field) (raw : value) : value :=
  match holding f, raw with
  | Text, VStr s => if trimmed f then VStr (trim s) else raw
  | Number, VStr s =>
      match Joi.toNumber L s with
      | Some n => VNum n
      | None => raw
      end
  | Date, VStr s =>
      match Joi.toDate L s with
      | Some ms => VDate ms
      | None => raw
      end
  | Date, VNum (Int ms) =>
      if Z.abs ms <=? 8640000000000000 then VDate ms else raw
  | Date, VNum (Frac fl) =>
      let ms := if fl <? 0 then fl + 1 else fl in
      if Z.abs ms <=? 8640000000000000 then VDate ms else raw
  | _, _ => raw
  end.

(** The defect of a value that is not what the field holds, by its
    message: text that is empty or no text at all, a number that is not
    one, is infinite or is beyond the integers a number holds exactly, a
    date that is not one. *)
Definition defect (f : field) (v : value) : option string :=
  match holding f, v with
  | Text, VStr s =>
      if String.eqb s "" then Some (quoted (name f) +:+ " is not allowed to be empty")
      else None
  | Text, _ => Some (default (quoted (name f) +:+ " must be a string") (mistyped f))
  | Number, VNum (Int z) =>
      if Z.abs z <=? 9007199254740991 then None
      else Some (quoted (name f) +:+ " must be a safe number")
  | Number, VNum (Frac fl) =>
      if (-9007199254740991 <=? fl) && (fl <? 9007199254740991) then None
      else Some (quoted (name f) +:+ " must be a safe number")
  | Number, VNum PosInf | Number, VNum NegInf =>
      Some (quoted (name f) +:+ " cannot be infinity")
  | Number, _ =>
      Some (default (quoted (name f) +:+ " must be a number") (mistyped f))
  | Date, VDate _ => None
  | Date, _ =>
      Some (default (quoted (name f) +:+ " must be a valid date") (mistyped f))
  end.

(** The value is one of those the field lists. *)
Definition listed (f : field) (v : value) : bool :=
  match allowed f, v with
  | Some (values, _), VStr s => existsb (String.eqb s) values
  | _, _ => false
  end.

Definition optional_message (o : option string) : list string :=
  match o with
  | Some m => [m]
  | None => []
  end.

(** The messages of the checks the value fails, in the order of the
    table. *)
Definition failed (L : Joi.lib) (f : field) (v : value) : list string :=
  map message (List.filter (fun c => negb (holds c L v)) (checks f)).

(** What is reported for one field.  An absent value breaches the field
    only when it is required.  A listed value breaches nothing.  For any
    other value: the message of the list when the field has one, then
    the message of the defect of the value or, for a value without
    defect, the messages of all the checks it fails. *)
Definition report_field (L : Joi.lib) (f : field) (raw : value)
  : list string :=
  match convert L f raw with
  | VUndefined => optional_message (needed f)
  | v =>
      if listed f v then []
      else
        optional_message (snd <$> allowed f)
        ++ match defect f v with
           | Some m => [m]
           | None => failed L f v
           end
  end.

(** Every breach of one field, each thing the table asks judged on its
    own: as [report_field], but the checks are judged on a value with a
    defect as well. *)
Definition breaches_field (L : Joi.lib) (f : field) (raw : value)
  : list string :=
  match convert L f raw with
  | VUndefined => optional_message (needed f)
  | v =>
      if listed f v then []
      else
        optional_message (snd <$> allowed f)
        ++ optional_message (defect f v) ++ failed L f v
  end.

(** The keys of the input the table does not name. *)
Definition unknown (t : list field) (data : object) : list string :=
  List.filter (fun k => bool_decide (k ∉ map name t)) (keys data).

Definition not_allowed (t : list field) (data : object) : list string :=
  map (fun k => quoted k +:+ " is not allowed") (unknown t data).

(** The report of an input: field by field in the order of the table,
    then the keys that are not allowed. *)
Definition report (L : Joi.lib) (t : list field) (data : object)
  : list string :=
  flat_map (fun f => report_field L f (get (name f) data)) t
  ++ not_allowed t data.

(** All the breaches of an input, in the same order. *)
Definition breaches (L : Joi.lib) (t : list field) (data : object)
  : list string :=
  flat_map (fun f => breaches_field L f (get (name f) data)) t
  ++ not_allowed t data.

End Contract.

(* ===================================================================== *)
(** ** The world the handlers run in                                       *)
(* ===================================================================== *)

Module Admin.
(** An admin as the queries return it: the [password] path is left out
    unless asked for; [createdAt] and [updatedAt] are the time stamps
    Mongoose maintains. *)
Record t := mk {
  _id : string;
  name : string;
  email : string;
  role : string;
  isActive : bool;
  lastLogin : option Z;
  createdAt : Z;
  updatedAt : Z
}.
End Admin.

Module Attachment.
(** The attachment object as the controllers build it: the local version
    fills [path], the Cloudinary version [url], [publicId] and the
    provider metadata.  The schema of the model names [filename],
    [originalName], [path], [size] and [mimeType] only (see
    [NoticeModel.strict] and [NoticeModel.attachmentErrors]). *)
Record t := mk {
  filename : string;
  originalName : string;
  path : option string;
  url : option string;
  publicId : option string;
  size : Z;
  mimeType : string;
  format : option string;
  resourceType : option string;
  width : option Z;
  height : option Z
}.
End Attachment.

Module Notice.
Record t := mk {
  _id : string;
  title : string;
  description : string;
  date : Z;
  attachment : option Attachment.t;
  createdBy : string;
  updatedBy : string;
  isActive : bool;
  createdAt : Z;
  updatedAt : Z
}.
End Notice.

Module Gallery.
Record image := mkImage {
  url : string;
  publicId : option string;
  format : option string;
  size : option Z;
  width : option Z;
  height : option Z
}.

Record t := mk {
  _id : string;
  title : string;
  description : option string;
  image_ : image;
  category : string;
  date : Z;
  uploadedBy : string;
  createdAt : Z;
  updatedAt : Z
}.
End Gallery.

(** The collections of the database, the Cloudinary bucket (the public
    ids it holds), the local [uploads] directory (the paths it holds) and
    what was written with [console.error], [console.warn] and
    [console.log]. *)
Record World := mkWorld {
  admins : gmap string Admin.t;
  notices : gmap string Notice.t;
  gallery : gmap string Gallery.t;
  cloud : gset string;
  disk : gset string;
  console : list string
}.

Definition with_notices (f : gmap string Notice.t -> gmap string Notice.t)
  (w : World) : World :=
  mkWorld (admins w) (f (notices w)) (gallery w) (cloud w) (disk w) (console w).

Definition with_gallery (f : gmap string Gallery.t -> gmap string Gallery.t)
  (w : World) : World :=
  mkWorld (admins w) (notices w) (f (gallery w)) (cloud w) (disk w) (console w).

Definition with_cloud (f : gset string -> gset string) (w : World) : World :=
  mkWorld (admins w) (notices w) (gallery w) (f (cloud w)) (disk w) (console w).

Definition with_disk (f : gset string -> gset string) (w : World) : World :=
  mkWorld (admins w) (notices w) (gallery w) (cloud w) (f (disk w)) (console w).

Definition log (line : string) (w : World) : World :=
  mkWorld (admins w) (notices w) (gallery w) (cloud w) (disk w)
    (console w ++ [line]).

(** What [cloudinary.uploader.upload] resolves with. *)
Record UploadApiResponse := mkUpload {
  secure_url : string;
  up_format : option string;
  bytes : Z;
  up_width : option Z;
  up_height : option Z;
  resource_type : option string
}.

(** What [cloudinary.uploader.destroy] does: it resolves with
    [{ result: 'ok' }] or with another result such as ['not found'], or
    the promise rejects. *)
Inductive destroyOutcome :=
| DestroyOk
| DestroyNotFound
| DestroyRejects (e : Js.error).

(** What a request finds outside the program: the clock, the id and the
    random string the next calls draw, whether the database answers the
    queries of the handler ([dbUp]) and the [populate] that follows a
    write ([populates]), what Cloudinary does, and whether the file
    system lets a file be removed ([unlinkOk]) and written
    ([writeOk]). *)
Record Env := mkEnv {
  now : Z;
  newObjectId : string;
  random : string;
  dbUp : bool;
  upload : option UploadApiResponse;
  destroy : destroyOutcome;
  unlinkOk : bool;
  nodeEnv : string;
  populates : bool;
  writeOk : bool
}.

Definition mongoDown : Js.error :=
  Js.mkError Js.MongoServerError "MongoNetworkError" "connection closed"
    None None [].

(* ===================================================================== *)
(** ** Mongoose: casting and the queries the controllers use               *)
(* ===================================================================== *)

Module Mongoose.
Import Js.

(** Conversions of the platform the models rely on: [String(n)] on a
    number and [new Date(v)], [None] being an invalid date; and the text
    of the [CastError] Mongoose builds for a kind, a value and a path,
    which prints the value and varies with the version of the library. *)
Record lib := mkLib {
  numberToString : number -> string;
  newDate : value -> option Z;
  castErrorMessage : string -> value -> string -> string
}.

(** A string is cast to an [ObjectId] when it is made of 24 hexadecimal
    digits, the format [objectIdSchema] names; any other string makes the
    query reject with a [CastError].  (Some driver versions also take a
    string of exactly 12 bytes; no statement below is about one.)  The
    collections are keyed by the string the driver prints for an id, and
    the cast keeps the string as it is: this is the program on ids
    written as the driver prints them (see [canonical]); an id written
    with capital letters denotes, in the program, the record of its
    lower-case form. *)
Definition castObjectId (id : string) : outcome string :=
  if Joi.objectIdPattern id then Returns id
  else
    Throws (mkError CastError "CastError"
              ("Cast to ObjectId failed for value " +:+ Joi.label id)
              None None []).

(** A digit of [ObjectId.toHexString()]: [0-9] or [a-f]. *)
Definition lower_hex (c : ascii) : bool :=
  is_digit c || between 97 102 c.

(** The id is written as the driver prints it: 24 hexadecimal digits,
    the letters in lower case. *)
Definition canonical (id : string) : bool :=
  (String.length id =? 24)%nat && forallb lower_hex (list_ascii_of_string id).

(** The cast of a [String] path. *)
Definition castString (L : lib) (v : value) : option string :=
  match v with
  | VStr s => Some s
  | VBool true => Some "true"
  | VBool false => Some "false"
  | VNum n => Some (numberToString L n)
  | _ => None
  end.

(** [Model.findById(id)]. *)
Definition findById {A} (e : Env) (coll : gmap string A) (id : string)
  : outcome (option A) :=
  match castObjectId id with
  | Throws err => Throws err
  | Returns oid => if dbUp e then Returns (coll !! oid) else Throws mongoDown
  end.

Definition validationError (msgs : list string) : error :=
  mkError ValidationError "ValidationError" "Validation failed" None None msgs.

End Mongoose.

(* ===================================================================== *)
(** ** [middlewares/errorHandler.ts]                                       *)
(* ===================================================================== *)

Module ErrorHandler.
Import Js Http.

Definition has_code (c : errCode) (error : Js.error) : bool :=
  match Js.code error, c with
  | Some (NumCode a), NumCode b => a =? b
  | Some (StrCode a), StrCode b => String.eqb a b
  | _, _ => false
  end.

(** One [if (test) { statusCode = ...; message = ...; errors = ... }]. *)
Definition override (test : bool) (st : Z) (msg : string) (errs : list string)
  (acc : Z * string * list string) : Z * string * list string :=
  if test then (st, msg, errs) else acc.

(** The status, message and error list [errorHandler] answers with.  The
    tests are run one after the other, a later one overriding an earlier
    one.  [details] holds the messages of a [ValidationError] and the keys
    of [keyValue] of a duplicate key error. *)
Definition classify (error : Js.error) : Z * string * list string :=
  let statusCode :=
    match Js.statusCode error with
    | Some st => if st =? 0 then 500 else st
    | None => 500
    end in
  let message :=
    if String.eqb (Js.message error) "" then "Internal Server Error"
    else Js.message error in
  let r0 := (statusCode, message, []) in
  let r1 := override (String.eqb (name error) "ValidationError") 400
              "Validation Error" (Js.details error) r0 in
  let r2 := override (has_code (NumCode 11000) error) 400
              "Duplicate field value"
              [hd "undefined" (Js.details error) +:+ " already exists"] r1 in
  let r3 := override (String.eqb (name error) "CastError") 400
              "Invalid ID format" ["The provided ID is not valid"] r2 in
  let r4 := override (String.eqb (name error) "JsonWebTokenError") 401
              "Invalid token" ["Please provide a valid authentication token"]
              r3 in
  let r5 := override (String.eqb (name error) "TokenExpiredError") 401
              "Token expired" ["Authentication token has expired"] r4 in
  let r6 := override (has_code (StrCode "LIMIT_FILE_SIZE") error) 400
              "File too large" ["File size exceeds the maximum allowed limit"]
              r5 in
  override (has_code (StrCode "LIMIT_UNEXPECTED_FILE") error) 400
    "Unexpected file field" ["Unexpected file field in the request"] r6.

Definition errorHandler {D} (e : Env) (w : World) (error : Js.error)
  : World * response D :=
  let '(statusCode, message, errors) := classify error in
  (log (if String.eqb (nodeEnv e) "development" then "Error Details:"
        else "Production Error:") w,
   fail_with statusCode message errors).

End ErrorHandler.

(* ===================================================================== *)
(** ** [middlewares/auth.ts]                                               *)
(* ===================================================================== *)

Module Auth.
Import Js Http.

Record JwtPayload := mkPayload {
  adminId : string;
  email : string;
  role : string
}.

(** A token that decodes: the secret it was signed with, its [exp] claim
    in seconds and its payload. *)
Record Jwt := mkJwt {
  signedWith : string;
  exp : Z;
  payload : JwtPayload
}.

(** What the [token] cookie holds: a string that is no token, or a
    well-formed one. *)
Inductive token :=
| Garbled (s : string)
| WellFormed (t : Jwt).

(** [jwt.verify(token, secret)] at clock [now] (milliseconds): the shape,
    then the signature, then the expiry. *)
Definition verify (now : Z) (tok : token) (secret : string)
  : outcome JwtPayload :=
  match tok with
  | Garbled _ =>
      Throws (mkError JsonWebTokenError "JsonWebTokenError" "jwt malformed"
                None None [])
  | WellFormed t =>
      if negb (String.eqb (signedWith t) secret) then
        Throws (mkError JsonWebTokenError "JsonWebTokenError"
                  "invalid signature" None None [])
      else if exp t <=? now / 1000 then
        Throws (mkError TokenExpiredError "TokenExpiredError" "jwt expired"
                  None None [])
      else Returns (payload t)
  end.

(** What the middleware attaches to the request. *)
Record AdminContext := mkContext {
  ctx_adminId : string;
  ctx_email : string;
  ctx_name : string;
  ctx_role : string
}.

(** The middleware ends the request with a response or calls [next()]. *)
Inductive gate :=
| Reply (r : response unit)
| Next (admin : AdminContext).

Definition is_empty_token (tok : token) : bool :=
  match tok with
  | Garbled s => String.eqb s ""
  | WellFormed _ => false
  end.

Definition authenticateAdmin (JWT_SECRET : string) (e : Env) (w : World)
  (cookie : option token) : World * gate :=
  match cookie with
  | None => (w, Reply (fail 401 "Access denied. No token provided."))
  | Some tok =>
      if is_empty_token tok then
        (w, Reply (fail 401 "Access denied. No token provided."))
      else
        let found :=
          match verify (now e) tok JWT_SECRET with
          | Throws error => Throws error
          | Returns decoded => Mongoose.findById e (admins w) (adminId decoded)
          end in
        match found with
        | Returns None =>
            (w, Reply (fail 401 "Access denied. Admin not found."))
        | Returns (Some admin) =>
            if negb (Admin.isActive admin) then
              (w, Reply (fail 401 "Access denied. Admin account is deactivated."))
            else
              (w, Next (mkContext (Admin._id admin) (Admin.email admin)
                          (Admin.name admin) (Admin.role admin)))
        | Throws error =>
            let w' := log "Authentication error:" w in
            if instanceof (cls error) JsonWebTokenError then
              (w', Reply (fail 401 "Access denied. Invalid token."))
            else if instanceof (cls error) TokenExpiredError then
              (w', Reply (fail 401 "Access denied. Token has expired."))
            else
              (w', Reply (fail 500 "Internal server error during authentication."))
        end
  end.

(** [authorizeRole(allowedRoles)], for a request that may carry an admin
    context. *)
Definition authorizeRole (allowedRoles : list string)
  (admin : option AdminContext) : option (response unit) :=
  match admin with
  | Some a =>
      if negb (String.eqb (ctx_role a) "")
         && existsb (String.eqb (ctx_role a)) allowedRoles
      then None
      else Some (fail 403 "Access denied. Insufficient permissions.")
  | None => Some (fail 403 "Access denied. Insufficient permissions.")
  end.

End Auth.

(* ===================================================================== *)
(** ** The Notice model                                                    *)
(* ===================================================================== *)

Module NoticeModel.
Import Js.

(** The validators of a string path: [required], [minlength],
    [maxlength], on the trimmed value. *)
Definition stringPath (required_msg min_msg max_msg : string)
  (min max : nat) (v : string) : list string :=
  if String.eqb v "" then [required_msg]
  else if (String.length v <? min)%nat then [min_msg]
  else if (max <? String.length v)%nat then [max_msg]
  else [].

Definition titleErrors : string -> list string :=
  stringPath "Notice title is required"
    "Title must be at least 3 characters long"
    "Title cannot exceed 200 characters" 3 200.

Definition descriptionErrors : string -> list string :=
  stringPath "Notice description is required"
    "Description must be at least 10 characters long"
    "Description cannot exceed 2000 characters" 10 2000.

(** A reference to an admin: required, and an [ObjectId]. *)
Definition refErrors (required_msg : string) (v : string) : list string :=
  if String.eqb v "" then [required_msg]
  else if Joi.objectIdPattern v then []
  else ["Cast to ObjectId failed for value " +:+ Joi.label v].

(** The attachment as [attachmentSchema] casts it: in strict mode the
    members the schema does not name ([url], [publicId], [format],
    [resourceType], [width], [height]) are dropped. *)
Definition strict (a : Attachment.t) : Attachment.t :=
  Attachment.mk (Attachment.filename a) (Attachment.originalName a)
    (Attachment.path a) None None (Attachment.size a) (Attachment.mimeType a)
    None None None None.

(** [required: true] on a string path of [attachmentSchema], with the
    message Mongoose gives by default. *)
Definition requiredPath (p : string) (v : option string) : list string :=
  match v with
  | Some s => if String.eqb s "" then ["Path `" +:+ p +:+ "` is required."] else []
  | None => ["Path `" +:+ p +:+ "` is required."]
  end.

(** The validators of the attachment sub-document: [filename],
    [originalName], [path] and [mimeType] are required ([size] is a number
    the controllers always set). *)
Definition attachmentErrors (attachment : option Attachment.t) : list string :=
  match attachment with
  | Some a =>
      requiredPath "filename" (Some (Attachment.filename a))
      ++ requiredPath "originalName" (Some (Attachment.originalName a))
      ++ requiredPath "path" (Attachment.path a)
      ++ requiredPath "mimeType" (Some (Attachment.mimeType a))
  | None => []
  end.

(** [new Notice(noticeData)]: the setters trim the strings, the defaults
    fill [isActive], the time stamps are those of the coming save, the
    attachment is cast to its schema. *)
Definition create (e : Env) (title description : string) (date : Z)
  (attachment : option Attachment.t) (createdBy updatedBy : string)
  : Notice.t :=
  Notice.mk (newObjectId e) (trim title) (trim description) date
    (strict <$> attachment) createdBy updatedBy true (now e) (now e).

Definition validate (doc : Notice.t) : list string :=
  titleErrors (Notice.title doc)
  ++ descriptionErrors (Notice.description doc)
  ++ attachmentErrors (Notice.attachment doc)
  ++ refErrors "Creator admin ID is required" (Notice.createdBy doc)
  ++ refErrors "Updater admin ID is required" (Notice.updatedBy doc).

(** 30 days from now, in milliseconds. *)
Definition maxFutureDate (now : Z) : Z := now + 30 * 24 * 60 * 60 * 1000.

(** [noticeSchema.pre('save', ...)]: the error passed to [next], if any. *)
Definition preSave (now : Z) (doc : Notice.t) : option error :=
  if maxFutureDate now <? Notice.date doc then
    Some (plain_error "Notice date cannot be more than 30 days in the future")
  else None.

(** [doc.save()]: validation, then the [pre('save')] hook, then the
    write. *)
Definition save (e : Env) (w : World) (doc : Notice.t) : outcome World :=
  match validate doc with
  | (_ :: _) as msgs => Throws (Mongoose.validationError msgs)
  | [] =>
      match preSave (now e) doc with
      | Some err => Throws err
      | None =>
          if dbUp e then
            Returns (with_notices (insert (Notice._id doc) doc) w)
          else Throws mongoDown
      end
  end.

(** The [updateData] object of the controller. *)
Record update := mkUpdate {
  u_title : string;
  u_description : string;
  u_date : Z;
  u_updatedBy : string;
  u_updatedAt : Z;
  u_attachment : option Attachment.t
}.

Definition apply (u : update) (doc : Notice.t) : Notice.t :=
  Notice.mk (Notice._id doc) (trim (u_title u)) (trim (u_description u))
    (u_date u)
    match u_attachment u with
    | Some a => Some (strict a)
    | None => Notice.attachment doc
    end
    (Notice.createdBy doc) (u_updatedBy u) (Notice.isActive doc)
    (Notice.createdAt doc) (u_updatedAt u).

(** [Notice.findByIdAndUpdate(id, updateData, { new: true, runValidators:
    true })]: a query, not a document save.  The validators of the
    updated paths run, those of a new attachment sub-document included;
    document middleware such as [pre('save')] does not. *)
Definition findByIdAndUpdate (e : Env) (w : World) (id : string) (u : update)
  : outcome (World * option Notice.t) :=
  match Mongoose.castObjectId id with
  | Throws err => Throws err
  | Returns oid =>
      match titleErrors (trim (u_title u))
            ++ descriptionErrors (trim (u_description u))
            ++ attachmentErrors (u_attachment u)
            ++ refErrors "Updater admin ID is required" (u_updatedBy u) with
      | (_ :: _) as msgs => Throws (Mongoose.validationError msgs)
      | [] =>
          if dbUp e then
            match notices w !! oid with
            | Some doc =>
                let doc' := apply u doc in
                Returns (with_notices (insert oid doc') w, Some doc')
            | None => Returns (w, None)
            end
          else Throws mongoDown
      end
  end.

(** [Notice.findByIdAndDelete(id)]. *)
Definition findByIdAndDelete (e : Env) (w : World) (id : string)
  : outcome World :=
  match Mongoose.castObjectId id with
  | Throws err => Throws err
  | Returns oid =>
      if dbUp e then Returns (with_notices (delete oid) w)
      else Throws mongoDown
  end.

(** [sort({ date: -1, createdAt: -1 })]: [a] may come before [b].  The
    database fixes no order between two notices that tie on both keys;
    [sort] below is the order for a collection without ties, and one of
    the possible orders otherwise. *)
Definition before (a b : Notice.t) : bool :=
  (Notice.date b <? Notice.date a)
  || ((Notice.date a =? Notice.date b)
      && (Notice.createdAt b <=? Notice.createdAt a)).

Fixpoint insert_sorted (n : Notice.t) (l : list Notice.t) : list Notice.t :=
  match l with
  | [] => [n]
  | x :: rest => if before n x then n :: l else x :: insert_sorted n rest
  end.

Definition sort (l : list Notice.t) : list Notice.t :=
  foldr insert_sorted [] l.

(** [Notice.find().sort(...).skip(skip).limit(limit)]: the server refuses
    a negative [skip]; the driver sends the absolute value of a negative
    [limit]. *)
Definition find (e : Env) (w : World) (skip limit : Z)
  : outcome (list Notice.t) :=
  if negb (dbUp e) then Throws mongoDown
  else if skip <? 0 then
    Throws (mkError MongoServerError "MongoServerError"
              "skip value must be non-negative" None None [])
  else
    Returns (take (Z.to_nat (Z.abs limit))
               (drop (Z.to_nat skip)
                  (sort (map snd (map_to_list (notices w)))))).

(** [Notice.countDocuments()]. *)
Definition countDocuments (e : Env) (w : World) : outcome Z :=
  if dbUp e then Returns (Z.of_nat (size (notices w))) else Throws mongoDown.

End NoticeModel.

(* ===================================================================== *)
(** ** Storage helpers                                                     *)
(* ===================================================================== *)

Module Multer.
(** [req.file]: memory storage gives the buffer, disk storage has already
    written the file at [path] under [filename]. *)
Record File := mkFile {
  originalname : string;
  mimetype : string;
  size : Z;
  filename : string;
  path : string
}.
End Multer.

Module Cloudinary.
Import Js.

(** [deleteFromCloudinary(publicId)] of [config/cloudinary.ts]: the
    rejection is caught inside, logged, and turned into [false]. *)
Definition deleteFromCloudinary (e : Env) (w : World) (publicId : string)
  : World * bool :=
  match destroy e with
  | DestroyOk => (with_cloud (fun c => c ∖ {[publicId]}) w, true)
  | DestroyNotFound => (w, false)
  | DestroyRejects _ => (log "Cloudinary delete error:" w, false)
  end.

(** [cloudinaryUtils.delete(publicId)] of [utils/cloudinary.ts]: the
    promise of [cloudinary.uploader.destroy], as it is. *)
Definition cloudinaryUtils_delete (e : Env) (w : World) (publicId : string)
  : outcome World :=
  match destroy e with
  | DestroyOk => Returns (with_cloud (fun c => c ∖ {[publicId]}) w)
  | DestroyNotFound => Returns w
  | DestroyRejects err => Throws err
  end.

(** [uploadToCloudinary(filePath, { public_id })]: the object is stored
    under the folder [hitech-institute/notices]; a failure is logged and
    thrown again. *)
Definition uploadToCloudinary (e : Env) (w : World) (public_id : string)
  : World * option (string * UploadApiResponse) :=
  match upload e with
  | Some res =>
      let publicId := "hitech-institute/notices/" +:+ public_id in
      (with_cloud (fun c => c ∪ {[publicId]}) w, Some (publicId, res))
  | None => (log "Cloudinary upload error:" w, None)
  end.

End Cloudinary.

Module FileHelpers.

(** [deleteFile(filePath)]: [true] when the file is gone or was not
    there, [false] when [unlink] failed. *)
Definition deleteFile (e : Env) (w : World) (filePath : string)
  : World * bool :=
  if bool_decide (filePath ∈ disk w) then
    if unlinkOk e then
      (log ("File deleted successfully: " +:+ filePath)
         (with_disk (fun d => d ∖ {[filePath]}) w), true)
    else (log ("Error deleting file " +:+ filePath) w, false)
  else (log ("File does not exist: " +:+ filePath) w, true).

End FileHelpers.

(* ===================================================================== *)
(** ** [controllers/noticeController.ts]                                   *)
(* ===================================================================== *)

Record Pagination := mkPagination {
  currentPage : Z;
  totalPages : Z;
  totalItems : Z;
  itemsPerPage : Z;
  hasNextPage : bool;
  hasPrevPage : bool
}.

(** The [data] member of the notice responses. *)
Inductive NoticeData :=
| OneNotice (notice : option Notice.t)
| NoticeList (notices : list Notice.t) (pagination : Pagination)
| DeletedNotice (id title : string).

(** A request as the notice handlers read it. *)
Record Request := mkRequest {
  params_id : string;
  body : Js.object;
  query_page : option string;
  query_limit : option string;
  file : option Multer.File;
  admin : Auth.AdminContext
}.

Definition as_string (v : Js.value) : string :=
  match v with
  | Js.VStr s => s
  | _ => ""
  end.

Module NoticeController.
Import Js Http.

(** The block [if (req.file) { try { ... } catch (uploadError) { ... } }]:
    the buffer is written to a temporary file, the file is uploaded and
    the temporary file removed.  [None] when [fs.mkdirSync] or
    [fs.writeFileSync], the upload or [fs.unlinkSync] threw and the
    handler answered 500. *)
Definition uploadRequestFile (e : Env) (w : World) (f : Multer.File)
  : World * option Attachment.t :=
  let tempFilePath :=
    "uploads/temp_" +:+ pretty (now e) +:+ "_" +:+ Multer.originalname f in
  if writeOk e then
    let w1 := with_disk (fun d => d ∪ {[tempFilePath]}) w in
    let public_id := "notice_" +:+ pretty (now e) +:+ "_" +:+ random e in
    match Cloudinary.uploadToCloudinary e w1 public_id with
    | (w2, Some (publicId, res)) =>
        if unlinkOk e then
          let w3 := with_disk (fun d => d ∖ {[tempFilePath]}) w2 in
          (w3,
           Some (Attachment.mk (Multer.originalname f) (Multer.originalname f)
                   None (Some (secure_url res)) (Some publicId) (Multer.size f)
                   (Multer.mimetype f) (up_format res) (resource_type res)
                   (up_width res) (up_height res)))
        else (log "Cloudinary upload error:" w2, None)
    | (w2, None) => (log "Cloudinary upload error:" w2, None)
    end
  else (log "Cloudinary upload error:" w, None).

Definition uploadFailed : response NoticeData :=
  fail 500 "Failed to upload file to cloud storage".

(** [date ? new Date(date) : fallback] on the validated value. *)
Definition dateOr (v : value) (fallback : Z) : Z :=
  match v with
  | VDate ms => ms
  | _ => fallback
  end.

(** The end of [createNotice]: the document is saved, its creator is
    populated and the answer is 201, or the outer [catch] logs the error
    of [save] or of [populate] and answers 500; in the second case the
    document is stored. *)
Definition saveNotice (e : Env) (w : World) (notice : Notice.t)
  : World * response NoticeData :=
  match NoticeModel.save e w notice with
  | Returns w' =>
      if populates e then
        (w', ok 201 "Notice created successfully" (OneNotice (Some notice)))
      else
        (log "Create notice error:" w',
         fail 500 "Internal server error while creating notice")
  | Throws _ =>
      (log "Create notice error:" w,
       fail 500 "Internal server error while creating notice")
  end.

(** POST /api/notices *)
Definition createNotice (L : Joi.lib) (e : Env) (w : World) (req : Request)
  : World * response NoticeData :=
  let r := Joi.validateNotice L (body req) in
  match Joi.details r with
  | _ :: _ => (w, fail_with 400 "Validation error" (Joi.error_messages r))
  | [] =>
      let title := as_string (get "title" (Joi.value r)) in
      let description := as_string (get "description" (Joi.value r)) in
      let date := dateOr (get "date" (Joi.value r)) (now e) in
      let adminId := Auth.ctx_adminId (admin req) in
      match file req with
      | Some f =>
          match uploadRequestFile e w f with
          | (w', Some attachment) =>
              saveNotice e w'
                (NoticeModel.create e title description date (Some attachment)
                   adminId adminId)
          | (w', None) => (w', uploadFailed)
          end
      | None =>
          saveNotice e w
            (NoticeModel.create e title description date None adminId adminId)
      end
  end.

(** GET /api/notices *)
Definition getAllNotices (e : Env) (w : World) (req : Request)
  : World * response NoticeData :=
  let page := parseInt_or (query_page req) 1 in
  let limit := parseInt_or (query_limit req) 10 in
  let skip := (page - 1) * limit in
  match NoticeModel.find e w skip limit, NoticeModel.countDocuments e w with
  | Returns notices, Returns total =>
      (w,
       ok 200 "Notices retrieved successfully"
         (NoticeList notices
            (mkPagination page (ceil_div total limit) total limit
               (page <? ceil_div total limit) (1 <? page))))
  | _, _ =>
      (log "Get notices error:" w,
       fail 500 "Internal server error while fetching notices")
  end.

(** GET /api/notices/:id *)
Definition getNoticeById (e : Env) (w : World) (req : Request)
  : World * response NoticeData :=
  match Mongoose.findById e (notices w) (params_id req) with
  | Returns (Some notice) =>
      (w, ok 200 "Notice retrieved successfully" (OneNotice (Some notice)))
  | Returns None => (w, fail 404 "Notice not found")
  | Throws _ =>
      (log "Get notice by ID error:" w,
       fail 500 "Internal server error while fetching notice")
  end.

Definition truthy_id (o : option string) : option string :=
  match o with
  | Some s => if String.eqb s "" then None else Some s
  | None => None
  end.

(** [existing.attachment?.publicId], when truthy. *)
Definition attachedPublicId (n : Notice.t) : option string :=
  match Notice.attachment n with
  | Some a => truthy_id (Attachment.publicId a)
  | None => None
  end.

Definition updateFailed (w : World) : World * response NoticeData :=
  (log "Update notice error:" w,
   fail 500 "Internal server error while updating notice").

(** The end of [updateNotice]: the update is sent, the document it
    returns is populated and the answer is 200, or the outer [catch] logs
    the error of the update or of [populate] and answers 500; in the
    second case the record is changed. *)
Definition sendUpdate (e : Env) (w : World) (id : string)
  (updateData : NoticeModel.update) : World * response NoticeData :=
  match NoticeModel.findByIdAndUpdate e w id updateData with
  | Returns (w', Some notice) =>
      if populates e then
        (w', ok 200 "Notice updated successfully" (OneNotice (Some notice)))
      else updateFailed w'
  | Returns (w', None) =>
      (w', ok 200 "Notice updated successfully" (OneNotice None))
  | Throws _ => updateFailed w
  end.

(** PUT /api/notices/:id *)
Definition updateNotice (L : Joi.lib) (e : Env) (w : World) (req : Request)
  : World * response NoticeData :=
  match Mongoose.findById e (notices w) (params_id req) with
  | Throws _ => updateFailed w
  | Returns None => (w, fail 404 "Notice not found")
  | Returns (Some existingNotice) =>
      let r := Joi.validateNotice L (body req) in
      match Joi.details r with
      | _ :: _ => (w, fail_with 400 "Validation error" (Joi.error_messages r))
      | [] =>
          let title := as_string (get "title" (Joi.value r)) in
          let description := as_string (get "description" (Joi.value r)) in
          let date :=
            dateOr (get "date" (Joi.value r)) (Notice.date existingNotice) in
          let adminId := Auth.ctx_adminId (admin req) in
          match file req with
          | Some f =>
              let w1 :=
                match attachedPublicId existingNotice with
                | Some publicId =>
                    (Cloudinary.deleteFromCloudinary e w publicId).1
                | None => w
                end in
              match uploadRequestFile e w1 f with
              | (w', Some attachment) =>
                  sendUpdate e w' (params_id req)
                    (NoticeModel.mkUpdate title description date adminId
                       (now e) (Some attachment))
              | (w', None) => (w', uploadFailed)
              end
          | None =>
              sendUpdate e w (params_id req)
                (NoticeModel.mkUpdate title description date adminId (now e)
                   None)
          end
      end
  end.

(** DELETE /api/notices/:id *)
Definition deleteNotice (e : Env) (w : World) (req : Request)
  : World * response NoticeData :=
  let failed (w : World) :=
    (log "Delete notice error:" w,
     fail 500 "Internal server error while deleting notice") in
  match Mongoose.findById e (notices w) (params_id req) with
  | Throws _ => failed w
  | Returns None => (w, fail 404 "Notice not found")
  | Returns (Some notice) =>
      let w1 :=
        match attachedPublicId notice with
        | Some publicId => (Cloudinary.deleteFromCloudinary e w publicId).1
        | None => w
        end in
      match NoticeModel.findByIdAndDelete e w1 (params_id req) with
      | Returns w2 =>
          (w2,
           ok 200 "Notice deleted successfully"
             (DeletedNotice (Notice._id notice) (Notice.title notice)))
      | Throws _ => failed w1
      end
  end.

End NoticeController.

(* ===================================================================== *)
(** ** The notice controller that keeps attachments on the local disk      *)
(* ===================================================================== *)

Module LocalNoticeController.
Import Js Http.

(** This version of the controller calls [deleteFile] at each of its
    clean-up sites and neither imports nor defines it (its imports are
    [Notice], [validateNotice], the two Cloudinary helpers, [fs] and
    [path]): evaluating a call throws this error. *)
Definition deleteFile : error :=
  mkError ReferenceError "ReferenceError" "deleteFile is not defined" None
    None [].

Definition fileAttachment (f : Multer.File) : Attachment.t :=
  Attachment.mk (Multer.filename f) (Multer.originalname f)
    (Some (Multer.path f)) None None (Multer.size f) (Multer.mimetype f)
    None None None None.

(** The [catch] block of [createNotice]: the error is logged; with a file
    the clean-up throws before [res.status(500)] and the promise of the
    handler rejects, the handler having sent nothing. *)
Definition createFailed (w : World) (req : Request)
  : World * outcome (response NoticeData) :=
  match file req with
  | Some _ => (log "Create notice error:" w, Throws deleteFile)
  | None =>
      (log "Create notice error:" w,
       Returns (fail 500 "Internal server error while creating notice"))
  end.

(** POST /api/notices.  The upload middleware has stored [req.file] on
    the disk before the handler runs.  [Returns r]: the handler answered
    [r]; [Throws]: its promise rejected and it sent nothing. *)
Definition createNotice (L : Joi.lib) (e : Env) (w : World) (req : Request)
  : World * outcome (response NoticeData) :=
  let r := Joi.validateNotice L (body req) in
  match Joi.details r with
  | _ :: _ =>
      match file req with
      | Some _ => createFailed w req
      | None =>
          (w, Returns (fail_with 400 "Validation error" (Joi.error_messages r)))
      end
  | [] =>
      let title := as_string (get "title" (Joi.value r)) in
      let description := as_string (get "description" (Joi.value r)) in
      let date := NoticeController.dateOr (get "date" (Joi.value r)) (now e) in
      let adminId := Auth.ctx_adminId (admin req) in
      let notice :=
        NoticeModel.create e title description date
          (fileAttachment <$> file req) adminId adminId in
      match NoticeModel.save e w notice with
      | Returns w' =>
          if populates e then
            (w',
             Returns
               (ok 201 "Notice created successfully" (OneNotice (Some notice))))
          else createFailed w' req
      | Throws _ => createFailed w req
      end
  end.

Definition truthy_path (n : Notice.t) : option string :=
  match Notice.attachment n with
  | Some a => NoticeController.truthy_id (Attachment.path a)
  | None => None
  end.

(** DELETE /api/notices/:id.  For a notice with an attachment the call of
    [deleteFile] throws inside the [try]; the [catch] answers 500 and the
    record is not deleted. *)
Definition deleteNotice (e : Env) (w : World) (req : Request)
  : World * response NoticeData :=
  let failed (w : World) :=
    (log "Delete notice error:" w,
     fail 500 "Internal server error while deleting notice") in
  match Mongoose.findById e (notices w) (params_id req) with
  | Throws _ => failed w
  | Returns None => (w, fail 404 "Notice not found")
  | Returns (Some notice) =>
      match truthy_path notice with
      | Some _ => failed w
      | None =>
          match NoticeModel.findByIdAndDelete e w (params_id req) with
          | Returns w2 =>
              (w2,
               ok 200 "Notice deleted successfully"
                 (DeletedNotice (Notice._id notice) (Notice.title notice)))
          | Throws _ => failed w
          end
      end
  end.

End LocalNoticeController.

(* ===================================================================== *)
(** ** The Gallery model and [controllers/galleryController.ts]            *)
(* ===================================================================== *)

Module GalleryModel.
Import Js.

Definition categories : list string :=
  ["College Events"; "Workshops & Seminars"; "Campus Tour";
   "Technical Competitions"; "Sports & Cultural"].

Definition requiredPath (p : string) (v : string) : list string :=
  if String.eqb v "" then ["Path `" +:+ p +:+ "` is required."] else [].

(** The validators of [gallerySchema] on a document whose paths were
    cast. *)
Definition validate (doc : Gallery.t) : list string :=
  requiredPath "title" (Gallery.title doc)
  ++ requiredPath "image.url" (Gallery.url (Gallery.image_ doc))
  ++ (if String.eqb (Gallery.category doc) "" then
        requiredPath "category" (Gallery.category doc)
      else if existsb (String.eqb (Gallery.category doc)) categories then []
      else ["`" +:+ Gallery.category doc
              +:+ "` is not a valid enum value for path `category`."])
  ++ requiredPath "uploadedBy" (Gallery.uploadedBy doc).

End GalleryModel.

Module GalleryController.
Import Js Http.

(** [doc.path = supplied || doc.path] on a [String] path: the value that
    is assigned, [None] when the supplied value cannot be cast. *)
Definition assign (L : Mongoose.lib) (supplied : value) (current : string)
  : option string :=
  if truthy supplied then Mongoose.castString L supplied else Some current.

Definition assign_optional (L : Mongoose.lib) (supplied : value)
  (current : option string) : option (option string) :=
  if truthy supplied then Some <$> Mongoose.castString L supplied
  else Some current.

(** The error of a [String] path whose value cannot be cast. *)
Definition castFailed (L : Mongoose.lib) (p : string) (v : value)
  : list string :=
  [Mongoose.castErrorMessage L "string" v p].

(** DELETE /api/gallery/:id, wrapped in [asyncHandler]: what the handler
    throws goes to [errorHandler]. *)
Definition deleteGalleryImage (e : Env) (w : World) (id : string)
  : World * response Gallery.t :=
  match Mongoose.findById e (gallery w) id with
  | Throws err => ErrorHandler.errorHandler e w err
  | Returns None => ErrorHandler.errorHandler e w (plain_error "Image not found")
  | Returns (Some image) =>
      let deleted :=
        match Gallery.publicId (Gallery.image_ image) with
        | Some publicId => Cloudinary.cloudinaryUtils_delete e w publicId
        | None => Returns w
        end in
      match deleted with
      | Throws err => ErrorHandler.errorHandler e w err
      | Returns w1 =>
          if dbUp e then
            (with_gallery (delete (Gallery._id image)) w1,
             mkResponse 200 true "Image deleted successfully" [] None)
          else ErrorHandler.errorHandler e w1 mongoDown
      end
  end.

(** PUT /api/gallery/:id, wrapped in [asyncHandler]. *)
Definition updateGalleryImage (L : Mongoose.lib) (e : Env) (w : World)
  (id : string) (body : object) : World * response Gallery.t :=
  match Mongoose.findById e (gallery w) id with
  | Throws err => ErrorHandler.errorHandler e w err
  | Returns None => ErrorHandler.errorHandler e w (plain_error "Image not found")
  | Returns (Some image) =>
      let title := assign L (get "title" body) (Gallery.title image) in
      let description :=
        assign_optional L (get "description" body) (Gallery.description image) in
      let category :=
        trim <$> assign L (get "category" body) (Gallery.category image) in
      let date :=
        if truthy (get "date" body) then Mongoose.newDate L (get "date" body)
        else Some (Gallery.date image) in
      match date with
      | None => ErrorHandler.errorHandler e w (plain_error "Invalid date format")
      | Some date =>
          match title, description, category with
          | Some title, Some description, Some category =>
              let modified :=
                negb (bool_decide (title = Gallery.title image)
                      && bool_decide (description = Gallery.description image)
                      && bool_decide (category = Gallery.category image)
                      && bool_decide (date = Gallery.date image)) in
              let updated :=
                Gallery.mk (Gallery._id image) title description
                  (Gallery.image_ image) category date
                  (Gallery.uploadedBy image) (Gallery.createdAt image)
                  (if modified then now e else Gallery.updatedAt image) in
              match GalleryModel.validate updated with
              | (_ :: _) as msgs =>
                  ErrorHandler.errorHandler e w (Mongoose.validationError msgs)
              | [] =>
                  if dbUp e then
                    (with_gallery (insert (Gallery._id image) updated) w,
                     ok 200 "Image updated successfully" updated)
                  else ErrorHandler.errorHandler e w mongoDown
              end
          | _, _, _ =>
              ErrorHandler.errorHandler e w
                (Mongoose.validationError
                   ((if title is None then
                       castFailed L "title" (get "title" body)
                     else [])
                    ++ (if description is None then
                          castFailed L "description" (get "description" body)
                        else [])
                    ++ (if category is None then
                          castFailed L "category" (get "category" body)
                        else [])))
          end
      end
  end.

End GalleryController.

(* ===================================================================== *)
(** ** Concrete requests                                                   *)
(* ===================================================================== *)

Module Sample.
Import Js.

Definition timestamp (s : string) : option Z :=
  match parseInt s with
  | Int z => Some z
  | _ => None
  end.

(** A stand-in for the library functions: an address has an [@], numbers
    and dates are written as decimal integers. *)
Definition joi : Joi.lib :=
  Joi.mkLib
    (fun s => existsb (Ascii.eqb "@"%char) (list_ascii_of_string s))
    (fun s => Int <$> timestamp s)
    timestamp.

Definition mongoose : Mongoose.lib :=
  Mongoose.mkLib
    (fun n => match n with
              | Int z => pretty z
              | _ => "NaN"
              end)
    (fun v => match v with
              | VStr s => timestamp s
              | VNum (Int z) => Some z
              | _ => None
              end)
    (fun kind v path =>
       "Cast to " +:+ kind +:+ " failed for value "
         +:+ Joi.label (match v with
                        | VStr s => s
                        | VArray => "[]"
                        | _ => "{}"
                        end)
         +:+ " at path " +:+ Joi.label path).

Definition secret : string := "hitech-jwt-secret-key-2024".

Definition adminId : string := "aaaaaaaaaaaaaaaaaaaaaaaa".
Definition noticeId : string := "bbbbbbbbbbbbbbbbbbbbbbbb".
Definition imageId : string := "cccccccccccccccccccccccc".

Definition clock : Z := 1700000000000.

Definition uploaded : UploadApiResponse :=
  mkUpload "https://res.cloudinary.com/demo/schedule.pdf" (Some "pdf") 1024
    None None (Some "image").

Definition env : Env :=
  mkEnv clock "dddddddddddddddddddddddd" "k3x9ab" true (Some uploaded)
    DestroyOk true "production" true true.

Definition timeout : Js.error :=
  mkError CloudinaryError "Error" "Request Timeout" None None [].

(** The same request when the call to Cloudinary's [destroy] rejects. *)
Definition envDestroyRejects : Env :=
  mkEnv clock "dddddddddddddddddddddddd" "k3x9ab" true (Some uploaded)
    (DestroyRejects timeout) true "production" true true.

Definition root : Admin.t :=
  Admin.mk adminId "Principal" "principal@hitech.example" "admin" true None
    clock clock.

Definition context : Auth.AdminContext :=
  Auth.mkContext adminId "principal@hitech.example" "Principal" "admin".

Definition payload : Auth.JwtPayload :=
  Auth.mkPayload adminId "principal@hitech.example" "admin".

(** A token that expires one hour after [clock], and one that expired
    one hour before. *)
Definition liveToken : Auth.token :=
  Auth.WellFormed (Auth.mkJwt secret (clock / 1000 + 3600) payload).

Definition expiredToken : Auth.token :=
  Auth.WellFormed (Auth.mkJwt secret (clock / 1000 - 3600) payload).

Definition pdf : Multer.File :=
  Multer.mkFile "schedule.pdf" "application/pdf" 1024
    "schedule-1700000000000-42.pdf" "uploads/schedule-1700000000000-42.pdf".

Definition pdfPublicId : string :=
  "hitech-institute/notices/notice_1700000000000_k3x9ab".

(** The attachment of a notice that was stored with a file on the disk,
    as [attachmentSchema] keeps it. *)
Definition attached : Attachment.t :=
  Attachment.mk "old-1600000000000-7.pdf" "old.pdf"
    (Some "uploads/old-1600000000000-7.pdf") None None 10 "application/pdf"
    None None None None.

Definition notice : Notice.t :=
  Notice.mk noticeId "Exam schedule" "Semester exams start on Monday" clock
    (Some attached) adminId adminId true clock clock.

Definition picture : Gallery.t :=
  Gallery.mk imageId "Sports day" (Some "Annual sports day")
    (Gallery.mkImage "https://res.cloudinary.com/demo/sports.jpg"
       (Some "hitech-institute/gallery/sports") (Some "jpg") (Some 2048)
       (Some 800) (Some 600))
    "Sports & Cultural" clock adminId clock clock.

Definition world : World :=
  mkWorld {[ adminId := root ]} {[ noticeId := notice ]}
    {[ imageId := picture ]}
    {[ "hitech-institute/notices/notice_1_old";
       "hitech-institute/gallery/sports" ]}
    {[ "uploads/old-1600000000000-7.pdf" ]} [].

(** The admin of [world] after deactivation. *)
Definition deactivated : World :=
  mkWorld
    {[ adminId :=
         Admin.mk adminId "Principal" "principal@hitech.example" "admin"
           false None clock clock ]}
    (notices world) (gallery world) (cloud world) (disk world)
    (console world).

(** 31 days after [clock], as the form field carries it. *)
Definition farDate : string := "1702678400000".

Definition noticeBody (date : option string) : object :=
  [("title", VStr "Exam schedule");
   ("description", VStr "Semester exams start on Monday")]
  ++ match date with
     | Some d => [("date", VStr d)]
     | None => []
     end.

Definition request (id : string) (body : object) (page limit : option string)
  (file : option Multer.File) : Request :=
  mkRequest id body page limit file context.

(** A collection of [n] notices. *)
Definition numbered (i : nat) : Notice.t :=
  Notice.mk (pretty i) "Exam schedule" "Semester exams start on Monday"
    (Z.of_nat i) None adminId adminId true 0 0.

Definition board (n : nat) : World :=
  mkWorld ∅ (list_to_map (map (fun i => (pretty i, numbered i)) (seq 0 n)))
    ∅ ∅ ∅ [].

End Sample.

(* ===================================================================== *)
(** ** Node's [path.extname]                                               *)
(* ===================================================================== *)

Module Path.
Import Js.

(** The variables of the loop of [path.posix.extname]; [-1] is "not seen
    yet", as in the source. *)
Record scan := mkScan {
  startDot : Z;
  startPart : Z;
  end_ : Z;
  matchedSlash : bool;
  preDotState : Z
}.

Definition is_slash (a : ascii) : bool := (nat_of_ascii a =? 47)%nat.
Definition is_dot (a : ascii) : bool := (nat_of_ascii a =? 46)%nat.

(** One turn of the loop on the character at index [i]: the new state,
    and [false] when the turn ends in [break]. *)
Definition extname_step (c : ascii) (i : Z) (st : scan) : scan * bool :=
  if is_slash c then
    if negb (matchedSlash st) then
      (mkScan (startDot st) (i + 1) (end_ st) (matchedSlash st)
         (preDotState st), false)
    else (st, true)
  else
    let st1 :=
      if end_ st =? -1 then
        mkScan (startDot st) (startPart st) (i + 1) false (preDotState st)
      else st in
    let st2 :=
      if is_dot c then
        if startDot st1 =? -1 then
          mkScan i (startPart st1) (end_ st1) (matchedSlash st1)
            (preDotState st1)
        else if negb (preDotState st1 =? 1) then
          mkScan (startDot st1) (startPart st1) (end_ st1) (matchedSlash st1) 1
        else st1
      else if negb (startDot st1 =? -1) then
        mkScan (startDot st1) (startPart st1) (end_ st1) (matchedSlash st1)
          (-1)
      else st1 in
    (st2, true).

(** [for (let i = path.length - 1; i >= 0; --i)], on the characters before
    index [i + 1] taken from the last one. *)
Fixpoint extname_loop (reversed : list ascii) (i : Z) (st : scan) : scan :=
  match reversed with
  | [] => st
  | c :: rest =>
      match extname_step c i st with
      | (st', true) => extname_loop rest (i - 1) st'
      | (st', false) => st'
      end
  end.

(** [path.slice(from, to)] for [0 <= from <= to]. *)
Definition slice (path : list ascii) (from to : Z) : list ascii :=
  take (Z.to_nat (to - from)) (drop (Z.to_nat from) path).

Definition extname_chars (path : list ascii) : list ascii :=
  let st :=
    extname_loop (rev path) (Z.of_nat (length path) - 1)
      (mkScan (-1) 0 (-1) true 0) in
  if (startDot st =? -1) || (end_ st =? -1) || (preDotState st =? 0)
     || ((preDotState st =? 1) && (startDot st =? end_ st - 1)
         && (startDot st =? startPart st + 1))
  then []
  else slice path (startDot st) (end_ st).

(** [path.extname(p)] on a POSIX host. *)
Definition extname (p : string) : string :=
  string_of_list_ascii (extname_chars (list_ascii_of_string p)).

End Path.

(* ===================================================================== *)
(** ** [utils/fileHelpers.ts]: names and types of files                    *)
(* ===================================================================== *)

Module FileNames.
Import Js.

Definition underscore : ascii := ascii_of_nat 95.
Definition is_underscore (a : ascii) : bool := (nat_of_ascii a =? 95)%nat.

Definition is_alnum (a : ascii) : bool :=
  is_lower a || is_upper a || is_digit a.

(** A character [[a-zA-Z0-9.-]] keeps. *)
Definition is_kept (a : ascii) : bool :=
  is_alnum a || (nat_of_ascii a =? 46)%nat || (nat_of_ascii a =? 45)%nat.

(** [.replace(/[^a-zA-Z0-9.-]/g, '_')]. *)
Definition replace_special (l : list ascii) : list ascii :=
  map (fun a => if is_kept a then a else underscore) l.

(** [.replace(/_{2,}/g, '_')]: a run of underscores becomes one. *)
Fixpoint collapse (l : list ascii) : list ascii :=
  match l with
  | [] => []
  | a :: rest =>
      if is_underscore a then
        match rest with
        | b :: _ => if is_underscore b then collapse rest else a :: collapse rest
        | [] => [a]
        end
      else a :: collapse rest
  end.

(** [/_{2,}/.test(l)]: two underscores in a row. *)
Fixpoint doubled (l : list ascii) : bool :=
  match l with
  | [] => false
  | a :: rest =>
      match rest with
      | b :: _ => (is_underscore a && is_underscore b) || doubled rest
      | [] => false
      end
  end.

Definition strip_leading (l : list ascii) : list ascii :=
  match l with
  | a :: rest => if is_underscore a then rest else l
  | [] => []
  end.

Definition strip_trailing (l : list ascii) : list ascii :=
  rev (strip_leading (rev l)).

(** [.replace(/^_|_$/g, '')]: the underscore that starts the string and
    the one that ends what follows. *)
Definition strip_ends (l : list ascii) : list ascii :=
  strip_trailing (strip_leading l).

Definition sanitize_chars (l : list ascii) : list ascii :=
  strip_ends (collapse (replace_special l)).

(** [sanitizeFilename(filename)]. *)
Definition sanitizeFilename (filename : string) : string :=
  string_of_list_ascii (sanitize_chars (list_ascii_of_string filename)).

(** [s.toLowerCase()] on the code units below 256. *)
Definition lower_char (a : ascii) : ascii :=
  let c := nat_of_ascii a in
  if ((65 <=? c) && (c <=? 90)
      || (192 <=? c) && (c <=? 222) && negb (c =? 215))%nat
  then ascii_of_nat (c + 32)
  else a.

Definition toLowerCase (s : string) : string :=
  string_of_list_ascii (map lower_char (list_ascii_of_string s)).

(** [getFileExtension(filename)]. *)
Definition getFileExtension (filename : string) : string :=
  toLowerCase (Path.extname filename).

(** [getFileNameWithoutExtension(filename)]; [basename] is Node's
    [path.basename(p, ext)]. *)
Definition getFileNameWithoutExtension (basename : string -> string -> string)
  (filename : string) : string :=
  basename filename (Path.extname filename).

(** [generateUniqueFilename(originalName)], with the reading of the clock
    and the six characters drawn from [Math.random]. *)
Definition generateUniqueFilename (basename : string -> string -> string)
  (timestamp : Z) (randomString : string) (originalName : string) : string :=
  let extension := getFileExtension originalName in
  let nameWithoutExt := getFileNameWithoutExtension basename originalName in
  let sanitizedName := sanitizeFilename nameWithoutExt in
  sanitizedName +:+ "-" +:+ pretty timestamp +:+ "-" +:+ randomString
    +:+ extension.

(** The middleware's [filename] callback of [multer.diskStorage]:
    [.replace(/[^a-zA-Z0-9]/g, '_')] on the stem, then the suffix made of
    the clock and a number drawn from [Math.random], then the
    extension. *)
Definition storedFilename (basename : string -> string -> string)
  (now randomNumber : Z) (originalname : string) : string :=
  let extension := Path.extname originalname in
  let nameWithoutExt := basename originalname extension in
  let sanitizedName :=
    string_of_list_ascii
      (map (fun a => if is_alnum a then a else underscore)
         (list_ascii_of_string nameWithoutExt)) in
  sanitizedName +:+ "-" +:+ pretty now +:+ "-" +:+ pretty randomNumber
    +:+ extension.

End FileNames.

(* ===================================================================== *)
(** ** [config/environment.ts]                                             *)
(* ===================================================================== *)

Module Environment.
Import Js.

(** [process.env[k] || d]: an unset or empty variable gives the default. *)
Definition env_or (env : gmap string string) (k d : string) : string :=
  match env !! k with
  | Some v => if String.eqb v "" then d else v
  | None => d
  end.

(** [parseInt(s, 10)]: no hexadecimal prefix with an explicit radix 10. *)
Definition parseInt10 (s : string) : number :=
  let s1 := trim_start s in
  let '(neg, s2) :=
    match s1 with
    | String "-" r => (true, r)
    | String "+" r => (false, r)
    | _ => (false, s1)
    end in
  match digits 10 s2 None with
  | Some z => Int (if neg : bool then - z else z)
  | None => NaN
  end.

(** [s.split(',')]: the pieces between the commas, one piece at least. *)
Fixpoint split_on_commas (s : string) (piece : string) : list string :=
  match s with
  | EmptyString => [piece]
  | String a rest =>
      if (nat_of_ascii a =? 44)%nat then piece :: split_on_commas rest ""
      else split_on_commas rest (piece +:+ String a "")
  end.

(** [process.env[k]?.split(',') || d]: an array is truthy, also the one
    of an empty variable. *)
Definition env_list (env : gmap string string) (k : string) (d : list string)
  : list string :=
  match env !! k with
  | Some v => split_on_commas v ""
  | None => d
  end.

Record Config := mkConfig {
  PORT : number;
  NODE_ENV : string;
  MONGODB_URI : string;
  JWT_SECRET : string;
  JWT_EXPIRE : string;
  BCRYPT_SALT_ROUNDS : number;
  MAX_FILE_SIZE : number;
  ALLOWED_FILE_TYPES : list string;
  CORS_ORIGIN : list string
}.

Definition defaultSecret : string := "hitech-jwt-secret-key-2024".

Definition defaultFileTypes : list string :=
  ["image/jpeg"; "image/jpg"; "image/png"; "image/webp"; "application/pdf"].

(** The [config] object, built from [process.env] when the module loads. *)
Definition config (env : gmap string string) : Config :=
  mkConfig
    (parseInt10 (env_or env "PORT" "5000"))
    (env_or env "NODE_ENV" "development")
    (env_or env "MONGODB_URI" "mongodb://localhost:27017/hitech-institute")
    (env_or env "JWT_SECRET" defaultSecret)
    (env_or env "JWT_EXPIRE" "24h")
    (parseInt10 (env_or env "BCRYPT_SALT_ROUNDS" "12"))
    (parseInt10 (env_or env "MAX_FILE_SIZE" "5242880"))
    (env_list env "ALLOWED_FILE_TYPES" defaultFileTypes)
    (env_list env "CORS_ORIGIN"
       ["http://localhost:3000"; "http://localhost:5000"]).

(** [config[envVar as keyof Config]] for the two names the check reads. *)
Definition config_string (c : Config) (envVar : string) : string :=
  if String.eqb envVar "MONGODB_URI" then MONGODB_URI c
  else if String.eqb envVar "JWT_SECRET" then JWT_SECRET c
  else "".

Definition unset (env : gmap string string) (k : string) : bool :=
  match env !! k with
  | Some v => String.eqb v ""
  | None => true
  end.

(** The loop over [requiredVars]: the first variable that is missing both
    from the environment and from the configuration. *)
Fixpoint firstMissing (env : gmap string string) (c : Config)
  (requiredVars : list string) : option string :=
  match requiredVars with
  | [] => None
  | envVar :: rest =>
      if unset env envVar && String.eqb (config_string c envVar) "" then
        Some envVar
      else firstMissing env c rest
  end.

(** [validateEnvironment()]. *)
Definition validateEnvironment (env : gmap string string) (w : World)
  : outcome World :=
  let c := config env in
  match firstMissing env c ["MONGODB_URI"; "JWT_SECRET"] with
  | Some envVar =>
      Throws (plain_error
                ("❌ Missing required environment variable: " +:+ envVar))
  | None =>
      let w1 :=
        if String.eqb (NODE_ENV c) "production"
           && String.eqb (JWT_SECRET c) defaultSecret
        then
          log "⚠️ WARNING: Using default JWT secret in production. Please set JWT_SECRET environment variable." w
        else w in
      Returns (log "✅ Environment variables validated successfully" w1)
  end.

End Environment.

(* ===================================================================== *)
(** ** The upload middleware ([fileUpload.ts], [cloudinaryUpload.ts])      *)
(* ===================================================================== *)

Module Upload.
Import Js Http.

(** A file part of a multipart request, with the number of bytes it
    carries. *)
Record part := mkPart {
  fieldname : string;
  originalname : string;
  mimetype : string;
  size : Z
}.

(** What the upload can fail with: one of multer's own errors, or the
    error a callback of the program handed to it. *)
Inductive uploadError :=
| MulterError (code message : string)
| Passed (error : Js.error).

(** [new AppError(message, statusCode)]. *)
Definition AppError (message : string) (statusCode : Z) : Js.error :=
  mkError Js.AppError "Error" message (Some statusCode) None [].

(** [fileFilter]: [None] is [cb(null, true)]. *)
Definition fileFilter (ALLOWED_FILE_TYPES : list string) (mimetype : string)
  : option Js.error :=
  if existsb (String.eqb mimetype) ALLOWED_FILE_TYPES then None
  else
    Some (AppError
            ("File type " +:+ mimetype +:+ " is not allowed. Allowed types: "
               +:+ Joi.join ", " ALLOWED_FILE_TYPES)
            400).

(** [upload.single('attachment')] with [limits: { fileSize, files: 1 }],
    on the file parts of the request that carry a file name, in their
    order: a part beyond the first file, a part under another field name,
    a part the filter refuses and a part whose bytes reach [fileSize]
    (busboy stops a file as soon as it has read that many) each end the
    upload with an error.  [store] builds [req.file]. *)
Fixpoint uploadSingle (ALLOWED_FILE_TYPES : list string) (MAX_FILE_SIZE : Z)
  (store : part -> Multer.File) (parts : list part)
  (file : option Multer.File) : uploadError + option Multer.File :=
  match parts with
  | [] => inr file
  | p :: rest =>
      match file with
      | Some _ => inl (MulterError "LIMIT_FILE_COUNT" "Too many files")
      | None =>
          if negb (String.eqb (fieldname p) "attachment") then
            inl (MulterError "LIMIT_UNEXPECTED_FILE" "Unexpected field")
          else
            match fileFilter ALLOWED_FILE_TYPES (mimetype p) with
            | Some error => inl (Passed error)
            | None =>
                if MAX_FILE_SIZE <=? size p then
                  inl (MulterError "LIMIT_FILE_SIZE" "File too large")
                else
                  uploadSingle ALLOWED_FILE_TYPES MAX_FILE_SIZE store rest
                    (Some (store p))
            end
      end
  end.

(** [x.toFixed(2)] for [x = size / (1024 * 1024)], a quotient the
    floating point holds exactly. *)
Definition megabytes (size : Z) : string :=
  let n := (200 * Z.abs size + 1048576) / 2097152 in
  (if size <? 0 then "-" else "") +:+ pretty (n / 100) +:+ "."
    +:+ pretty (n mod 100 / 10) +:+ pretty (n mod 10).

(** What a middleware does with the request: it answers, it calls
    [next(error)], or it calls [next()] with [req.file] set or not. *)
Inductive step :=
| Answer (r : response unit)
| NextError (error : Js.error)
| Next (file : option Multer.File).

(** [handleMulterError(error, req, res, next)]. *)
Definition handleMulterError (MAX_FILE_SIZE : Z) (error : uploadError)
  : step :=
  match error with
  | MulterError code message =>
      if String.eqb code "LIMIT_FILE_SIZE" then
        Answer (fail_with 400 "File too large"
                  ["File size must be less than " +:+ megabytes MAX_FILE_SIZE
                     +:+ "MB"])
      else if String.eqb code "LIMIT_FILE_COUNT" then
        Answer (fail_with 400 "Too many files" ["Only one file is allowed"])
      else if String.eqb code "LIMIT_UNEXPECTED_FILE" then
        Answer (fail_with 400 "Unexpected file field"
                  ["File must be uploaded with field name "
                     +:+ Joi.label "attachment"])
      else Answer (fail_with 400 "File upload error" [message])
  | Passed error => NextError error
  end.

(** [optionalFileUpload] and [optionalCloudinaryUpload]. *)
Definition optionalUpload (ALLOWED_FILE_TYPES : list string)
  (MAX_FILE_SIZE : Z) (store : part -> Multer.File) (parts : list part)
  : step :=
  match uploadSingle ALLOWED_FILE_TYPES MAX_FILE_SIZE store parts None with
  | inl error => handleMulterError MAX_FILE_SIZE error
  | inr file => Next file
  end.

(** [requiredFileUpload] and [requiredCloudinaryUpload]. *)
Definition requiredUpload (ALLOWED_FILE_TYPES : list string)
  (MAX_FILE_SIZE : Z) (store : part -> Multer.File) (parts : list part)
  : step :=
  match uploadSingle ALLOWED_FILE_TYPES MAX_FILE_SIZE store parts None with
  | inl error => handleMulterError MAX_FILE_SIZE error
  | inr None => Answer (fail_with 400 "File required" ["Please upload a file"])
  | inr (Some file) => Next (Some file)
  end.

(** [multer.memoryStorage()]: the file stays in [req.file.buffer]. *)
Definition memoryStorage (p : part) : Multer.File :=
  Multer.mkFile (originalname p) (mimetype p) (size p) "" "".

(** [multer.diskStorage({ destination, filename })]: the file is written
    under [uploads/] with the generated name. *)
Definition diskStorage (basename : string -> string -> string)
  (now randomNumber : Z) (p : part) : Multer.File :=
  let filename :=
    FileNames.storedFilename basename now randomNumber (originalname p) in
  Multer.mkFile (originalname p) (mimetype p) (size p) filename
    ("uploads/" +:+ filename).

(** The disk after the middleware: a file that passed is there. *)
Definition written (s : step) (w : World) : World :=
  match s with
  | Next (Some file) => with_disk (fun d => d ∪ {[Multer.path file]}) w
  | _ => w
  end.

End Upload.

(* ===================================================================== *)
(** ** [objectIdSchema] and [validateObjectId]                             *)
(* ===================================================================== *)

Module Validators.
Import Js.

Definition objectIdSchema : Joi.schema :=
  Joi.mkSchema Joi.TString false true None None
    [Joi.StrPattern "/^[0-9a-fA-F]{24}$/" Joi.objectIdPattern]
    [("string.pattern.base", "Invalid ID format");
     ("any.required", "ID is required")].

(** [objectIdSchema.validate(id)]: the schema is not an object, its label
    is [value], and validation stops at the first error. *)
Definition validateObjectId (L : Joi.lib) (id : value)
  : value * list Joi.detail :=
  Joi.validate_value L true "value" objectIdSchema id.

End Validators.

(* ===================================================================== *)
(** ** The Admin model and [controllers/authController.ts]                 *)
(* ===================================================================== *)

Module AdminModel.
Import Js.

Definition is_at (a : ascii) : bool := (nat_of_ascii a =? 64)%nat.

(** A dot that is neither the first nor the last character. *)
Fixpoint inner_dot (l : list ascii) : bool :=
  match l with
  | _ :: ((b :: _ :: _) as rest) => Path.is_dot b || inner_dot rest
  | _ => false
  end.

(** [/^[^\s@]+@[^\s@]+\.[^\s@]+$/]: no white space, one [@] with
    something before it, and after it a dot with something on both
    sides. *)
Definition email_after_at (l : list ascii) : bool :=
  forallb (fun a => negb (is_space a || is_at a)) l && inner_dot l.

Fixpoint email_local (l : list ascii) (seen : bool) : bool :=
  match l with
  | [] => false
  | a :: rest =>
      if is_at a then seen && email_after_at rest
      else if is_space a then false
      else email_local rest true
  end.

Definition emailPattern (s : string) : bool :=
  email_local (list_ascii_of_string s) false.

(** The validators of [adminSchema] on a stored admin and its password
    hash. *)
Definition validate (a : Admin.t) (password : string) : list string :=
  NoticeModel.stringPath "Name is required"
    "Name must be at least 2 characters long"
    "Name cannot exceed 50 characters" 2 50 (Admin.name a)
  ++ (if String.eqb (Admin.email a) "" then ["Email is required"]
      else if emailPattern (Admin.email a) then []
      else ["Please provide a valid email address"])
  ++ (if String.eqb password "" then ["Password is required"]
      else if (String.length password <? 8)%nat then
        ["Password must be at least 8 characters long"]
      else [])
  ++ (if existsb (String.eqb (Admin.role a)) ["admin"; "super_admin"] then []
      else ["Role must be either admin or super_admin"]).

End AdminModel.

Module AuthController.
Import Js Http.

(** What the handler takes from its libraries: [bcrypt.compare(plain,
    hash)] and the cast Mongoose applies to the [email] of a query
    filter. *)
Record lib := mkLib {
  compare : string -> string -> bool;
  castEmail : string -> string
}.

Record AdminInfo := mkInfo {
  id : string;
  name : string;
  email : string;
  role : string;
  lastLogin : option Z
}.

Record SignedIn := mkSignedIn {
  token : Auth.token;
  admin : AdminInfo
}.

(** [Admin.findOne({ email })]. *)
Definition findOne (A : lib) (w : World) (email : string) : option Admin.t :=
  snd <$> List.find
            (fun kv => String.eqb (Admin.email kv.2) (castEmail A email))
            (map_to_list (admins w)).

(** [const { email, password } = value] on the validated body. *)
Definition email_of (L : Joi.lib) (body : object) : string :=
  as_string (get "email" (Joi.value (Joi.validateSignIn L body))).

Definition password_of (L : Joi.lib) (body : object) : string :=
  as_string (get "password" (Joi.value (Joi.validateSignIn L body))).

(** [admin.lastLogin = new Date()], and the [updatedAt] the coming save
    sets. *)
Definition touched (admin : Admin.t) (now : Z) : Admin.t :=
  Admin.mk (Admin._id admin) (Admin.name admin) (Admin.email admin)
    (Admin.role admin) (Admin.isActive admin) (Some now)
    (Admin.createdAt admin) now.

(** [jwt.sign(payload, secret, { expiresIn: '24h' })] at clock [now]. *)
Definition sign (now : Z) (payload : Auth.JwtPayload) (secret : string)
  : Auth.token :=
  Auth.WellFormed (Auth.mkJwt secret (now / 1000 + 24 * 60 * 60) payload).

Definition signInFailed (w : World) : World * response SignedIn :=
  (log "Sign in error:" w,
   fail 500 "Internal server error during authentication").

(** POST /api/auth/signin.  [hashes] holds the [password] path of the
    admins, which queries leave out unless asked. *)
Definition signIn (L : Joi.lib) (A : lib) (JWT_SECRET : string) (e : Env)
  (w : World) (hashes : gmap string string) (body : object)
  : World * response SignedIn :=
  let r := Joi.validateSignIn L body in
  match Joi.details r with
  | _ :: _ => (w, fail_with 400 "Validation error" (Joi.error_messages r))
  | [] =>
      let email := email_of L body in
      let password := password_of L body in
      if negb (dbUp e) then signInFailed w
      else
        match findOne A w email with
        | None => (w, fail 401 "Invalid credentials")
        | Some admin =>
            match hashes !! Admin._id admin with
            | None => signInFailed w
            | Some hash =>
                if negb (compare A password hash) then
                  (w, fail 401 "Invalid credentials")
                else
                  let payload :=
                    Auth.mkPayload (Admin._id admin) (Admin.email admin)
                      (Admin.role admin) in
                  let token := sign (now e) payload JWT_SECRET in
                  let saved := touched admin (now e) in
                  match AdminModel.validate saved hash with
                  | _ :: _ => signInFailed w
                  | [] =>
                      (mkWorld (<[Admin._id admin := saved]> (admins w))
                         (notices w) (gallery w) (cloud w) (disk w)
                         (console w),
                       ok 200 "Authentication successful"
                         (mkSignedIn token
                            (mkInfo (Admin._id admin) (Admin.name admin)
                               (Admin.email admin) (Admin.role admin)
                               (Some (now e)))))
                  end
            end
        end
  end.

(** GET /api/auth/verify, behind the gate. *)
Definition verifyToken (w : World) (ctx : Auth.AdminContext)
  : World * response Auth.AdminContext :=
  (w, ok 200 "Token is valid" ctx).

End AuthController.

(* ===================================================================== *)
(** ** [controllers/galleryController.ts]: upload and list                 *)
(* ===================================================================== *)

Module GalleryHandlers.
Import Js Http.

(** [cloudinaryUtils.upload(buffer, folder)]: the provider draws the
    public id under the folder; [rejection] is what the promise rejects
    with when the upload fails. *)
Definition cloudinaryUtils_upload (rejection : Js.error) (e : Env) (w : World)
  (folder : string) : outcome (World * string * UploadApiResponse) :=
  match upload e with
  | Some res =>
      let public_id := folder +:+ "/" +:+ random e in
      Returns (with_cloud (fun c => c ∪ {[public_id]}) w, public_id, res)
  | None => Throws rejection
  end.

(** [Gallery.create(doc)] on a document whose paths were cast: validate,
    insert. *)
Definition create (e : Env) (w : World) (doc : Gallery.t) : outcome World :=
  match GalleryModel.validate doc with
  | (_ :: _) as msgs => Throws (Mongoose.validationError msgs)
  | [] =>
      if dbUp e then Returns (with_gallery (insert (Gallery._id doc) doc) w)
      else Throws mongoDown
  end.

(** The cast of an optional [String] path: [undefined] and [null] leave
    it unset. *)
Definition castOptional (L : Mongoose.lib) (v : value)
  : option (option string) :=
  match v with
  | VUndefined | VNull => Some None
  | _ => Some <$> Mongoose.castString L v
  end.

(** POST /api/gallery, wrapped in [asyncHandler]. *)
Definition uploadImageToGallery (L : Mongoose.lib) (rejection : Js.error)
  (e : Env) (w : World) (file : option Multer.File) (body : object)
  (ctx : Auth.AdminContext) : World * response Gallery.t :=
  match file with
  | None => ErrorHandler.errorHandler e w (plain_error "No file uploaded")
  | Some _ =>
      let title := get "title" body in
      let description := get "description" body in
      let category := get "category" body in
      let date := get "date" body in
      if negb (truthy title) || negb (truthy category) then
        ErrorHandler.errorHandler e w
          (plain_error "Title and category are required")
      else
        let parsedDate :=
          if truthy date then Mongoose.newDate L date else Some (now e) in
        match parsedDate with
        | None =>
            ErrorHandler.errorHandler e w (plain_error "Invalid date format")
        | Some parsedDate =>
            match cloudinaryUtils_upload rejection e w
                    "hitech-institute/gallery" with
            | Throws err => ErrorHandler.errorHandler e w err
            | Returns (w1, public_id, res) =>
                match Mongoose.castString L title, castOptional L description,
                      Mongoose.castString L category,
                      Mongoose.castObjectId (Auth.ctx_adminId ctx) with
                | Some title, Some description, Some category, Returns _ =>
                    let newImage :=
                      Gallery.mk (newObjectId e) title description
                        (Gallery.mkImage (secure_url res) (Some public_id)
                           (up_format res) (Some (bytes res)) (up_width res)
                           (up_height res))
                        (trim category) parsedDate (Auth.ctx_adminId ctx)
                        (now e) (now e) in
                    match create e w1 newImage with
                    | Throws err => ErrorHandler.errorHandler e w1 err
                    | Returns w2 =>
                        (w2, ok 201 "Image uploaded successfully" newImage)
                    end
                | title', description', category', uploadedBy =>
                    ErrorHandler.errorHandler e w1
                      (Mongoose.validationError
                         ((if title' is None then
                             GalleryController.castFailed L "title" title
                           else [])
                          ++ (if description' is None then
                                GalleryController.castFailed L "description"
                                  description
                              else [])
                          ++ (if category' is None then
                                GalleryController.castFailed L "category"
                                  category
                              else [])
                          ++ (if uploadedBy is Throws _ then
                                [Mongoose.castErrorMessage L "ObjectId"
                                   (VStr (Auth.ctx_adminId ctx)) "uploadedBy"]
                              else [])))
                end
            end
        end
  end.

(** [sort({ date: -1 })]. *)
Fixpoint insert_by_date (g : Gallery.t) (l : list Gallery.t) : list Gallery.t :=
  match l with
  | [] => [g]
  | x :: rest =>
      if Gallery.date x <=? Gallery.date g then g :: l
      else x :: insert_by_date g rest
  end.

Definition sortByDate (l : list Gallery.t) : list Gallery.t :=
  foldr insert_by_date [] l.

(** GET /api/gallery, wrapped in [asyncHandler]; the list is the [images]
    member of the answer. *)
Definition getAllGalleryImages (e : Env) (w : World)
  : World * response (list Gallery.t) :=
  if dbUp e then
    (w,
     ok 200 "Gallery images fetched successfully"
       (sortByDate (map snd (map_to_list (gallery w)))))
  else ErrorHandler.errorHandler e w mongoDown.

End GalleryHandlers.

(* ===================================================================== *)
(** ** The routers                                                         *)
(* ===================================================================== *)

Module Routes.
Import Js Http.

(** What the middleware reads from [config]. *)
Record settings := mkSettings {
  JWT_SECRET : string;
  ALLOWED_FILE_TYPES : list string;
  MAX_FILE_SIZE : Z
}.

(** A request as it reaches a router. *)
Record Incoming := mkIncoming {
  cookie : option Auth.token;
  id : string;
  fields : object;
  page : option string;
  limit : option string;
  parts : list Upload.part
}.

(** The response of a middleware, sent as it is. *)
Definition sent {D} (r : response unit) : response D :=
  mkResponse (status r) (success r) (message r) (errors r) None.

(** [router.METHOD(path, authenticateAdmin, ...rest)]. *)
Definition behindGate {D} (S : settings) (e : Env) (w : World)
  (req : Incoming) (rest : World -> Auth.AdminContext -> World * response D)
  : World * response D :=
  match Auth.authenticateAdmin (JWT_SECRET S) e w (cookie req) with
  | (w', Auth.Reply r) => (w', sent r)
  | (w', Auth.Next admin) => rest w' admin
  end.

(** An upload middleware followed by a handler; [next(error)] reaches
    [errorHandler]. *)
Definition afterUpload {D} (e : Env) (w : World) (s : Upload.step)
  (handler : option Multer.File -> World * response D) : World * response D :=
  match s with
  | Upload.Answer r => (w, sent r)
  | Upload.NextError error => ErrorHandler.errorHandler e w error
  | Upload.Next file => handler file
  end.

Definition request (req : Incoming) (file : option Multer.File)
  (admin : Auth.AdminContext) : Request :=
  mkRequest (id req) (fields req) (page req) (limit req) file admin.

(** [router.post('/', authenticateAdmin, optionalCloudinaryUpload,
    NoticeController.createNotice)]. *)
Definition postNotice (L : Joi.lib) (S : settings) (e : Env) (w : World)
  (req : Incoming) : World * response NoticeData :=
  behindGate S e w req (fun w admin =>
    afterUpload e w
      (Upload.optionalUpload (ALLOWED_FILE_TYPES S) (MAX_FILE_SIZE S)
         Upload.memoryStorage (parts req))
      (fun file => NoticeController.createNotice L e w (request req file admin))).

(** [router.put('/:id', authenticateAdmin, optionalCloudinaryUpload,
    NoticeController.updateNotice)]. *)
Definition putNotice (L : Joi.lib) (S : settings) (e : Env) (w : World)
  (req : Incoming) : World * response NoticeData :=
  behindGate S e w req (fun w admin =>
    afterUpload e w
      (Upload.optionalUpload (ALLOWED_FILE_TYPES S) (MAX_FILE_SIZE S)
         Upload.memoryStorage (parts req))
      (fun file => NoticeController.updateNotice L e w (request req file admin))).

(** [router.delete('/:id', authenticateAdmin,
    NoticeController.deleteNotice)]. *)
Definition deleteNotice (S : settings) (e : Env) (w : World) (req : Incoming)
  : World * response NoticeData :=
  behindGate S e w req (fun w admin =>
    NoticeController.deleteNotice e w (request req None admin)).

(** The same route in the version that keeps attachments on the local
    disk: [router.post('/', authenticateAdmin, optionalFileUpload,
    NoticeController.createNotice)].  [basename] is Node's
    [path.basename], [randomNumber] the number the file name is drawn
    from.  [Returns r]: [r] was sent; [Throws]: the promise of the handler
    rejected and the handler sent nothing (what becomes of the rejection
    is the framework's: the route does not catch it). *)
Definition postNoticeLocal (L : Joi.lib) (S : settings)
  (basename : string -> string -> string) (randomNumber : Z) (e : Env)
  (w : World) (req : Incoming) : World * outcome (response NoticeData) :=
  match Auth.authenticateAdmin (JWT_SECRET S) e w (cookie req) with
  | (w', Auth.Reply r) => (w', Returns (sent r))
  | (w', Auth.Next admin) =>
      let s :=
        Upload.optionalUpload (ALLOWED_FILE_TYPES S) (MAX_FILE_SIZE S)
          (Upload.diskStorage basename (now e) randomNumber) (parts req) in
      match s with
      | Upload.Answer r => (w', Returns (sent r))
      | Upload.NextError error =>
          let answer := ErrorHandler.errorHandler e w' error in
          (answer.1, Returns answer.2)
      | Upload.Next file =>
          LocalNoticeController.createNotice L e (Upload.written s w')
            (request req file admin)
      end
  end.

(** [router.post('/', authenticateAdmin, requiredCloudinaryUpload,
    uploadImageToGallery)]. *)
Definition postGallery (L : Mongoose.lib) (rejection : Js.error) (S : settings)
  (e : Env) (w : World) (req : Incoming) : World * response Gallery.t :=
  behindGate S e w req (fun w admin =>
    afterUpload e w
      (Upload.requiredUpload (ALLOWED_FILE_TYPES S) (MAX_FILE_SIZE S)
         Upload.memoryStorage (parts req))
      (fun file =>
         GalleryHandlers.uploadImageToGallery L rejection e w file (fields req)
           admin)).

(** [router.delete('/:id', authenticateAdmin, deleteGalleryImage)]. *)
Definition deleteGallery (S : settings) (e : Env) (w : World) (req : Incoming)
  : World * response Gallery.t :=
  behindGate S e w req (fun w _ =>
    GalleryController.deleteGalleryImage e w (id req)).

(** [router.put('/:id', authenticateAdmin, updateGalleryImage)]. *)
Definition putGallery (L : Mongoose.lib) (S : settings) (e : Env) (w : World)
  (req : Incoming) : World * response Gallery.t :=
  behindGate S e w req (fun w _ =>
    GalleryController.updateGalleryImage L e w (id req) (fields req)).

(** [router.get('/verify', authenticateAdmin,
    AuthController.verifyToken)]. *)
Definition getVerify (S : settings) (e : Env) (w : World) (req : Incoming)
  : World * response Auth.AdminContext :=
  behindGate S e w req AuthController.verifyToken.

End Routes.

(* ===================================================================== *)
(** ** More concrete requests                                              *)
(* ===================================================================== *)

Module Fixtures.
Import Js.

(** A stand-in for [bcrypt]: the hash of a password is the password after
    a fixed prefix; the address of a query is taken as it is. *)
Definition bcrypt : AuthController.lib :=
  AuthController.mkLib
    (fun plain hash => String.eqb hash ("$2a$12$" +:+ plain))
    (fun email => email).

Definition hashes : gmap string string :=
  {[ Sample.adminId := "$2a$12$correct horse" ]}.

Definition credentials (email password : string) : object :=
  [("email", VStr email); ("password", VStr password)].

(** The request of [Sample.env] when the upload to Cloudinary fails. *)
Definition envUploadFails : Env :=
  mkEnv Sample.clock "dddddddddddddddddddddddd" "k3x9ab" true None DestroyOk
    true "production" true true.

(** [Sample.env] twenty-five hours later. *)
Definition nextDay : Env :=
  mkEnv (Sample.clock + 25 * 60 * 60 * 1000) "eeeeeeeeeeeeeeeeeeeeeeee"
    "p7q2zz" true (Some Sample.uploaded) DestroyOk true "production" true
    true.

Definition settings : Routes.settings :=
  Routes.mkSettings Sample.secret Environment.defaultFileTypes 5242880.

Definition pdfPart : Upload.part :=
  Upload.mkPart "attachment" "schedule.pdf" "application/pdf" 1024.

(** A stand-in for [path.basename(p, ext)] on a name without directories:
    the name without its last [length ext] characters. *)
Definition basename (p ext : string) : string :=
  string_of_list_ascii
    (take (String.length p - String.length ext) (list_ascii_of_string p)).

Definition incoming (cookie : option Auth.token) (fields : object)
  (parts : list Upload.part) : Routes.Incoming :=
  Routes.mkIncoming cookie "" fields None None parts.

(** A sign-in whose password is the empty string. *)
Definition emptyPassword : object :=
  [("email", VStr "principal@hitech.example"); ("password", VStr "")].

(** [Sample.world] with a second notice. *)
Definition circular : Notice.t :=
  Notice.mk "ffffffffffffffffffffffff" "Holiday list"
    "The institute is closed on Friday" (Sample.clock + 1000) None
    Sample.adminId Sample.adminId true Sample.clock Sample.clock.

Definition twoNotices : World :=
  with_notices (insert (Notice._id circular) circular) Sample.world.

(** [Sample.env] when the [populate] that follows a write is not
    answered, and when [fs.unlinkSync] throws. *)
Definition envPopulateFails : Env :=
  mkEnv Sample.clock "dddddddddddddddddddddddd" "k3x9ab" true
    (Some Sample.uploaded) DestroyOk true "production" false true.

Definition envUnlinkFails : Env :=
  mkEnv Sample.clock "dddddddddddddddddddddddd" "k3x9ab" true
    (Some Sample.uploaded) DestroyOk false "production" true true.

End Fixtures.

(** What a client reads in the answer of GET /api/notices: the notices of
    the page, none when the answer is an error. *)
Definition listed (r : Http.response NoticeData) : list Notice.t :=
  match Http.data r with
  | Some (NoticeList items _) => items
  | _ => []
  end.

(* ===================================================================== *)
(** * Properties                                                           *)
(* ===================================================================== *)

(* ===================================================================== *)
(** ** The validation layer                                                *)
(* ===================================================================== *)

Module JoiFacts.
Import Js Joi.

Section Collecting.
Variable L : lib.
#[local] Arguments createError : simpl never.

Lemma run_rules_abort key s v rs errors :
  (length errors <= 1)%nat ->
  (length (run_rules L true key s v rs errors) <= 1)%nat.
Proof.
  revert errors. induction rs as [|r rs IH]; intros errors H; simpl.
  - done.
  - destruct (rule_ok L r v); simpl; [by apply IH | lia].
Qed.

Lemma get_set_ne k k' v o : k <> k' -> get k (set k' v o) = get k o.
Proof.
  intros Hne. induction o as [|[k0 v0] o IH]; simpl.
  - destruct (String.eqb_spec k k'); done.
  - destruct (String.eqb_spec k' k0) as [->|]; simpl.
    + destruct (String.eqb_spec k k0); done.
    + destruct (String.eqb_spec k k0); done.
Qed.

Lemma get_remove_ne k k' o : k <> k' -> get k (remove k' o) = get k o.
Proof.
  intros Hne. induction o as [|[k0 v0] o IH]; simpl; [done|].
  destruct (String.eqb_spec k' k0) as [->|]; simpl.
  - destruct (String.eqb_spec k k0); done.
  - destruct (String.eqb_spec k k0); done.
Qed.

Lemma key_errors_agree keys value value' :
  (forall k, In k (map fst keys) -> get k value' = get k value) ->
  flat_map (key_errors L value') keys = flat_map (key_errors L value) keys.
Proof.
  induction keys as [|[k s] keys IH]; intros H; simpl; [done|].
  rewrite IH by (intros; apply H; simpl; auto).
  unfold key_errors at 1 3. simpl. rewrite H by (simpl; auto). done.
Qed.

(** Without [abortEarly] the loop visits every key, and the errors of a
    key are those of the value the input holds for it: what the loop has
    written for the keys before does not matter. *)
Lemma validate_keys_collects keys : forall value errors,
  NoDup (map fst keys) ->
  (validate_keys L false keys value errors).1.1 = false
  /\ (validate_keys L false keys value errors).2
     = errors ++ flat_map (key_errors L value) keys.
Proof.
  induction keys as [|[key child] rest IH]; intros value errors Hnd.
  - simpl. by rewrite app_nil_r.
  - apply NoDup_cons in Hnd as [Hnotin Hnd].
    assert (forall value', (forall k, k <> key -> get k value' = get k value) ->
              flat_map (key_errors L value') rest = flat_map (key_errors L value) rest)
      as Hrest.
    { intros value' H. apply key_errors_agree. intros k Hk. apply H.
      intros ->. by apply Hnotin, list_elem_of_In. }
    assert (forall value' errors',
              (forall k, k <> key -> get k value' = get k value) ->
              (validate_keys L false rest value' errors').1.1 = false
              /\ (validate_keys L false rest value' errors').2
                 = errors' ++ flat_map (key_errors L value) rest) as Hstep.
    { intros value' errors' H. destruct (IH value' errors' Hnd) as [H1 H2].
      by rewrite H1, H2, Hrest. }
    cbn [validate_keys flat_map]. unfold key_errors at 1. cbn [fst snd].
    destruct (validate_value L false key child (get key value)) as [v errs].
    cbn [snd]. destruct errs as [|d errs].
    + rewrite app_nil_l.
      destruct v; try (apply Hstep; intros; by apply get_set_ne).
      destruct (get key value);
        apply Hstep; intros; (by apply get_remove_ne) || done.
    + rewrite app_assoc. apply Hstep. intros.
      destruct v; (by apply get_set_ne) || done.
Qed.

Lemma report_unknown_collects l errors :
  report_unknown false l errors = errors ++ map unknown_error l.
Proof.
  revert errors. induction l as [|k l IH]; intros errors; simpl.
  - by rewrite app_nil_r.
  - by rewrite IH, <- app_assoc.
Qed.

Lemma unprocessed_unknown keys (t : list Contract.field) data :
  map fst keys = map Contract.name t ->
  unprocessed keys data = Contract.unknown t data.
Proof.
  intros Hnames. unfold unprocessed, Contract.unknown. rewrite <- Hnames.
  apply List.filter_ext. intros k.
  destruct (existsb (String.eqb k) (map fst keys)) eqn:H; simpl; symmetry.
  - apply bool_decide_eq_false_2. intros Hn. apply Hn.
    apply existsb_exists in H as (x & Hin & Heq). apply String.eqb_eq in Heq.
    subst. by apply list_elem_of_In.
  - apply bool_decide_eq_true_2. intros Hin. apply list_elem_of_In in Hin.
    assert (existsb (String.eqb k) (map fst keys) = true); [|congruence].
    apply existsb_exists. exists k. split; [done|]. apply String.eqb_refl.
Qed.

(** Without [abortEarly], the messages of an object are those of its keys
    in the order of the schema, then those of the keys the schema does
    not name. *)
Lemma validate_object_messages keys data :
  NoDup (map fst keys) ->
  error_messages (validate_object L false keys data)
  = flat_map (fun ks => map text (key_errors L data ks)) keys
    ++ map (fun k => label k +:+ " is not allowed") (unprocessed keys data).
Proof.
  intros Hnd. unfold error_messages, validate_object.
  destruct (validate_keys_collects keys data [] Hnd) as [Hflag Herrs].
  destruct (validate_keys L false keys data []) as [[flag value] errors].
  simpl in Hflag, Herrs. subst. simpl.
  rewrite report_unknown_collects, map_app, map_map. f_equal.
  clear Hnd. induction keys as [|ks keys IH]; simpl; [done|].
  by rewrite map_app, IH.
Qed.

(** *** With [abortEarly], one error at most *)

Lemma validate_typed_abort key s v errors :
  errors = [] ->
  (length (validate_typed L true key s v errors).2 <= 1)%nat.
Proof.
  intros ->. unfold validate_typed.
  destruct (base_error s v); cbn [snd]; [simpl; lia|].
  apply run_rules_abort. simpl; lia.
Qed.

Lemma validate_value_abort key s raw :
  (length (validate_value L true key s raw).2 <= 1)%nat.
Proof.
  assert (forall v,
            (length
               match valids s with
               | Some _ =>
                   if in_valids s v then (v, [])
                   else (v, [createError key s "any.only" None v])
               | None => validate_typed L true key s v []
               end.2 <= 1)%nat) as Hdefined.
  { intros v. destruct (valids s).
    - destruct (in_valids _ v); simpl; lia.
    - by apply validate_typed_abort. }
  unfold validate_value. destruct (coerce L s raw); try apply Hdefined.
  destruct (required s); simpl; lia.
Qed.

Lemma validate_keys_abort keys : forall value errors,
  (length errors <= 1)%nat ->
  (length (validate_keys L true keys value errors).2 <= 1)%nat.
Proof.
  induction keys as [|[key child] rest IH]; intros value errors H; [done|].
  cbn [validate_keys].
  pose proof (validate_value_abort key child (get key value)) as Hv.
  destruct (validate_value L true key child (get key value)) as [v errs].
  destruct errs as [|d errs]; [|done].
  destruct v; try (by apply IH). destruct (get key value); by apply IH.
Qed.

Lemma validate_object_abort keys data :
  (length (details (validate_object L true keys data)) <= 1)%nat.
Proof.
  unfold validate_object.
  pose proof (validate_keys_abort keys data [] ltac:(simpl; lia)) as H.
  destruct (validate_keys L true keys data []) as [[flag value] errors].
  destruct flag; simpl in *; [done|].
  destruct (unprocessed keys data); simpl; [done|lia].
Qed.

(** *** The run on the store *)

Lemma write_at (h : heap) clone value f :
  h !! clone = Some value -> write clone f h = <[clone := f value]> h.
Proof. unfold write. by intros ->. Qed.

(** The loop on the store computes what the loop on the value computes,
    and writes to the clone only. *)
Lemma validate_keys_at_pure abortEarly keys :
  forall (h : heap) clone value errors,
    h !! clone = Some value ->
    validate_keys_at L abortEarly keys h clone errors
    = ((validate_keys L abortEarly keys value errors).1.1,
       <[clone := (validate_keys L abortEarly keys value errors).1.2]> h,
       (validate_keys L abortEarly keys value errors).2).
Proof.
  induction keys as [|[key child] rest IH]; intros h clone value errors Hc.
  - cbn [validate_keys_at validate_keys fst snd]. by rewrite insert_id.
  - assert (Hstep : forall f errors',
      validate_keys_at L abortEarly rest (write clone f h) clone errors'
      = ((validate_keys L abortEarly rest (f value) errors').1.1,
         <[clone := (validate_keys L abortEarly rest (f value) errors').1.2]> h,
         (validate_keys L abortEarly rest (f value) errors').2)).
    { intros f errors'. rewrite (write_at h clone value f Hc).
      rewrite (IH _ clone (f value) errors') by apply lookup_insert_eq.
      by rewrite insert_insert_eq. }
    cbn [validate_keys_at validate_keys]. unfold object in *. rewrite Hc.
    cbn [default from_option id].
    destruct (validate_value L abortEarly key child (get key value))
      as [v errs].
    destruct errs as [|d errs].
    + destruct v; try apply Hstep.
      destruct (get key value); try apply Hstep. by apply IH.
    + destruct abortEarly; [cbn [fst snd]; by rewrite insert_id|].
      destruct v; try apply Hstep. by apply IH.
Qed.

(** The call on the store returns what the call on the value returns, in
    a new object, and leaves every object of the store as it was. *)
Lemma validate_at_pure abortEarly keys (h : heap) ref data :
  h !! ref = Some data ->
  let r := validate_at L abortEarly keys h ref in
  r.2.1 = details (validate_object L abortEarly keys data)
  /\ r.1 !! r.2.2 = Some (value (validate_object L abortEarly keys data))
  /\ h !! r.2.2 = None
  /\ r.1 !! ref = Some data
  /\ forall p, p <> r.2.2 -> r.1 !! p = h !! p.
Proof.
  intros Href. cbv zeta. unfold validate_at, validate_object.
  unfold object in *. rewrite Href. cbn [default from_option id].
  set (clone := fresh (dom h)).
  assert (Hfresh : h !! clone = None).
  { apply not_elem_of_dom. apply is_fresh. }
  rewrite (validate_keys_at_pure abortEarly keys _ clone data [])
    by apply lookup_insert_eq.
  rewrite insert_insert_eq.
  destruct (validate_keys L abortEarly keys data []) as [[flag v] errors].
  assert (Hne : ref <> clone) by congruence.
  destruct flag; cbn [fst snd details value];
    (split; [reflexivity|]); (split; [apply lookup_insert_eq|]);
    (split; [exact Hfresh|]);
    (split; [by rewrite lookup_insert_ne|]);
    intros p Hp; by rewrite lookup_insert_ne.
Qed.

End Collecting.

(** *** The engine on the schemas and the tables of the contract *)

Section Tables.
Variable L : lib.
#[local] Arguments trim : simpl never.
#[local] Arguments password_pattern : simpl never.
#[local] Arguments String.length : simpl never.
#[local] Arguments Z.abs : simpl never.
#[local] Arguments Z.leb : simpl never.
#[local] Arguments Z.ltb : simpl never.
#[local] Arguments Nat.leb : simpl never.

Ltac split_ifs :=
  repeat match goal with
         | H : ?b = _ |- context [if ?b then _ else _] => rewrite H; cbn
         | |- context [if ?b then _ else _] => destruct b eqn:?; cbn
         | |- context [match toNumber L ?s with _ => _ end] =>
             destruct (toNumber L s) as [[ | | | | ]|] eqn:?; cbn
         | |- context [match toDate L ?s with _ => _ end] =>
             destruct (toDate L s) eqn:?; cbn
         end.

Ltac field_agrees :=
  unfold key_errors, validate_value, Contract.report_field; cbn;
  match goal with
  | |- context [get ?k ?data] => generalize (get k data)
  end;
  let raw := fresh "raw" in
  intros raw; destruct raw as [| |b|[z|fl| | |]|s|d| |];
  unfold validate_typed, base_error, in_valids, in_date_range,
    Contract.defect, Contract.listed, Contract.failed;
  change max_safe_integer with 9007199254740991;
  change (- 9007199254740991) with (-9007199254740991); cbn;
  split_ifs; try reflexivity; try congruence;
  repeat match goal with
         | H : context [if ?b then _ else _] |- _ => destruct b eqn:?
         | H : (_ <=? _) = true |- _ => apply Z.leb_le in H
         | H : (_ <=? _) = false |- _ => apply Z.leb_gt in H
         | H : (_ <? _) = true |- _ => apply Z.ltb_lt in H
         | H : (_ <? _) = false |- _ => apply Z.ltb_ge in H
         end;
  try lia.

Lemma signIn_agrees data :
  flat_map (fun ks => map text (key_errors L data ks)) signInSchema
  = flat_map (fun f => Contract.report_field L f (get (Contract.name f) data))
      Contract.signIn.
Proof.
  cbn [flat_map signInSchema Contract.signIn]. rewrite !app_nil_r.
  f_equal; field_agrees.
Qed.

Lemma notice_agrees data :
  flat_map (fun ks => map text (key_errors L data ks)) noticeSchema
  = flat_map (fun f => Contract.report_field L f (get (Contract.name f) data))
      Contract.notice.
Proof.
  cbn [flat_map noticeSchema Contract.notice]. rewrite !app_nil_r.
  f_equal; [|f_equal]; field_agrees.
Qed.

Lemma adminRegistration_agrees data :
  flat_map (fun ks => map text (key_errors L data ks)) adminRegistrationSchema
  = flat_map (fun f => Contract.report_field L f (get (Contract.name f) data))
      Contract.adminRegistration.
Proof.
  cbn [flat_map adminRegistrationSchema Contract.adminRegistration].
  rewrite !app_nil_r.
  f_equal; [|f_equal; [|f_equal]]; field_agrees.
Qed.

Lemma pagination_agrees data :
  flat_map (fun ks => map text (key_errors L data ks)) queryParamsSchema
  = flat_map (fun f => Contract.report_field L f (get (Contract.name f) data))
      Contract.pagination.
Proof.
  cbn [flat_map queryParamsSchema Contract.pagination]. rewrite !app_nil_r.
  f_equal; [|f_equal]; field_agrees.
Qed.

End Tables.

(** Two keys in breach give two messages; two rules of one key in breach
    give two messages; the bound on [limit] is the schema's. *)
Example notice_with_two_short_fields :
  error_messages
    (validateNotice Sample.joi
       [("title", VStr "ab"); ("description", VStr "too short")])
  = ["Title must be at least 3 characters long";
     "Description must be at least 10 characters long"].
Proof. reflexivity. Qed.

Example registration_with_a_weak_password :
  error_messages
    (validateAdminRegistration Sample.joi
       [("name", VStr "Principal"); ("email", VStr "principal@hitech.example");
        ("password", VStr "abc")])
  = ["Password must be at least 8 characters long";
     "Password must contain at least one uppercase letter, one lowercase letter, one digit, and one special character"].
Proof. reflexivity. Qed.

Example query_with_limit_150 :
  error_messages (validateQueryParams Sample.joi [("limit", VStr "150")])
  = ["Limit cannot exceed 100"].
Proof. reflexivity. Qed.

Example abort_early_stops_at_the_first :
  map text
    (details
       (validate_object Sample.joi true noticeSchema
          [("title", VStr "ab"); ("description", VStr "too short")]))
  = ["Title must be at least 3 characters long"].
Proof. reflexivity. Qed.

Lemma schemas_name_each_key_once n :
  NoDup (map fst (schema_of n)).
Proof. destruct n; apply (bool_decide_unpack _); vm_compute; exact I. Qed.


(** The messages of a helper are the report of the contract on the table
    of its schema. *)
Lemma validate_reports (L : lib) n data :
  error_messages (validate L n data) = Contract.report L (Contract.table n) data.
Proof.
  pose proof (schemas_name_each_key_once n) as Hnd.
  assert (Hmsgs :
    error_messages (validate L n data)
    = flat_map (fun ks => map text (key_errors L data ks)) (schema_of n)
      ++ map (fun k => label k +:+ " is not allowed")
           (unprocessed (schema_of n) data)).
  { destruct n; by apply validate_object_messages. }
  rewrite Hmsgs. unfold Contract.report, Contract.not_allowed. f_equal.
  - destruct n; [apply signIn_agrees|apply notice_agrees
                |apply adminRegistration_agrees|apply pagination_agrees].
  - rewrite (unprocessed_unknown (schema_of n) (Contract.table n))
      by (by destruct n).
    reflexivity.
Qed.

End JoiFacts.

(* ===================================================================== *)
(** ** The authorization gate                                              *)
(* ===================================================================== *)

Module AuthFacts.
Import Js Http Auth.

Lemma verify_expired secret now t :
  signedWith t = secret -> exp t <= now / 1000 ->
  verify now (WellFormed t) secret
  = Throws (mkError TokenExpiredError "TokenExpiredError" "jwt expired"
              None None []).
Proof.
  intros <- Hexp. unfold verify. rewrite String.eqb_refl. simpl.
  by rewrite (proj2 (Z.leb_le _ _) Hexp).
Qed.

Lemma verify_live secret now t :
  signedWith t = secret -> now / 1000 < exp t ->
  verify now (WellFormed t) secret = Returns (payload t).
Proof.
  intros <- Hexp. unfold verify. rewrite String.eqb_refl. simpl.
  by rewrite (proj2 (Z.leb_gt _ _) Hexp).
Qed.

(** An expired token error is an instance of [JsonWebTokenError]: the
    first test of the [catch] block takes it. *)
Lemma expired_is_jwt_error : instanceof TokenExpiredError JsonWebTokenError = true.
Proof. reflexivity. Qed.

(** Whatever the store holds, a well-formed token that has expired is
    answered with the message of an invalid token. *)
Lemma expired_token_reply secret e w t :
  signedWith t = secret -> exp t <= now e / 1000 ->
  authenticateAdmin secret e w (Some (WellFormed t))
  = (log "Authentication error:" w,
     Reply (fail 401 "Access denied. Invalid token.")).
Proof.
  intros Hs Hexp. unfold authenticateAdmin, is_empty_token.
  by rewrite (verify_expired _ _ _ Hs Hexp).
Qed.

(** The branch that answers [Token has expired] is never taken. *)
Lemma expired_message_unreachable secret e w cookie w' r :
  authenticateAdmin secret e w cookie = (w', Reply r) ->
  message r <> "Access denied. Token has expired.".
Proof.
  unfold authenticateAdmin. intros H.
  destruct cookie as [tok|]; [|by inversion H].
  destruct (is_empty_token tok); [by inversion H|].
  destruct (verify (now e) tok secret) as [decoded|err] eqn:Hv.
  - destruct (Mongoose.findById e (admins w) (adminId decoded))
      as [[admin|]|err] eqn:Hf.
    + destruct (Admin.isActive admin); by inversion H.
    + by inversion H.
    + unfold Mongoose.findById, Mongoose.castObjectId in Hf.
      destruct (Joi.objectIdPattern (adminId decoded)).
      * destruct (dbUp e); inversion Hf; subst. by inversion H.
      * inversion Hf; subst. by inversion H.
  - unfold verify in Hv. destruct tok as [s|t].
    + inversion Hv; subst. by inversion H.
    + destruct (negb _); [inversion Hv; subst; by inversion H|].
      destruct (exp t <=? now e / 1000); inversion Hv; subst. by inversion H.
Qed.

Lemma inactive_admin_reply secret e w t admin :
  signedWith t = secret ->
  now e / 1000 < exp t ->
  dbUp e = true ->
  Joi.objectIdPattern (adminId (payload t)) = true ->
  admins w !! adminId (payload t) = Some admin ->
  Admin.isActive admin = false ->
  authenticateAdmin secret e w (Some (WellFormed t))
  = (w, Reply (fail 401 "Access denied. Admin account is deactivated.")).
Proof.
  intros Hs Hexp Hdb Hid Hadmin Hinactive.
  unfold authenticateAdmin, is_empty_token.
  rewrite (verify_live _ _ _ Hs Hexp).
  unfold Mongoose.findById, Mongoose.castObjectId.
  by rewrite Hid, Hdb, Hadmin, Hinactive.
Qed.

(** The same token, accepted while the admin is active, is refused on the
    first request after the record is deactivated. *)
Lemma next_call_after_deactivation secret e e' w t admin :
  signedWith t = secret ->
  now e / 1000 < exp t ->
  now e' / 1000 < exp t ->
  dbUp e = true ->
  dbUp e' = true ->
  Joi.objectIdPattern (adminId (payload t)) = true ->
  admins w !! adminId (payload t) = Some admin ->
  Admin.isActive admin = true ->
  let off :=
    Admin.mk (Admin._id admin) (Admin.name admin) (Admin.email admin)
      (Admin.role admin) false (Admin.lastLogin admin)
      (Admin.createdAt admin) (Admin.updatedAt admin) in
  let w' :=
    mkWorld (<[adminId (payload t) := off]> (admins w)) (notices w)
      (gallery w) (cloud w) (disk w) (console w) in
  (exists ctx,
     authenticateAdmin secret e w (Some (WellFormed t)) = (w, Next ctx))
  /\ authenticateAdmin secret e' w' (Some (WellFormed t))
     = (w', Reply (fail 401 "Access denied. Admin account is deactivated.")).
Proof.
  intros Hs Hexp Hexp' Hdb Hdb' Hid Hadmin Hactive off w'. split.
  - unfold authenticateAdmin, is_empty_token.
    rewrite (verify_live _ _ _ Hs Hexp).
    unfold Mongoose.findById, Mongoose.castObjectId.
    rewrite Hid, Hdb, Hadmin, Hactive. by eexists.
  - apply (inactive_admin_reply secret e' w' t off); try done.
    apply lookup_insert_eq.
Qed.

End AuthFacts.

(* ===================================================================== *)
(** ** The notice handlers                                                 *)
(* ===================================================================== *)

Module NoticeFacts.
Import Js Http.

Lemma ceil_div_bounds a b :
  0 < b -> (ceil_div a b - 1) * b < a <= ceil_div a b * b.
Proof.
  intros Hb. unfold ceil_div.
  pose proof (Z.div_mod (- a) b ltac:(lia)) as Hdm.
  pose proof (Z.mod_pos_bound (- a) b Hb) as Hmod. nia.
Qed.

Lemma insert_sorted_length n l :
  length (NoticeModel.insert_sorted n l) = S (length l).
Proof.
  induction l as [|x l IH]; simpl; [done|].
  destruct (NoticeModel.before n x); simpl; by rewrite ?IH.
Qed.

Lemma sort_length l : length (NoticeModel.sort l) = length l.
Proof.
  induction l as [|x l IH]; simpl; [done|].
  by rewrite insert_sorted_length, IH.
Qed.

(** *** The sort of the list query *)

Lemma before_total a b :
  NoticeModel.before a b = false -> NoticeModel.before b a = true.
Proof.
  unfold NoticeModel.before. intros H.
  apply orb_false_iff in H as [H1 H2]. apply Z.ltb_ge in H1.
  apply andb_false_iff in H2.
  destruct (Z.ltb_spec (Notice.date a) (Notice.date b)); [done|].
  simpl. assert (Notice.date a = Notice.date b) as Heq by lia.
  destruct H2 as [H2|H2].
  - apply Z.eqb_neq in H2. done.
  - apply Z.leb_gt in H2. rewrite Heq, Z.eqb_refl. simpl.
    apply Z.leb_le. lia.
Qed.

Lemma insert_sorted_perm n l : NoticeModel.insert_sorted n l ≡ₚ n :: l.
Proof.
  induction l as [|x l IH]; simpl; [done|].
  destruct (NoticeModel.before n x); [done|].
  rewrite IH. apply Permutation_swap.
Qed.

(** The query returns the notices of the collection, each once, by date
    and then by creation time, latest first. *)
Lemma sort_perm l : NoticeModel.sort l ≡ₚ l.
Proof.
  induction l as [|x l IH]; simpl; [done|].
  unfold NoticeModel.sort in *. simpl. by rewrite insert_sorted_perm, IH.
Qed.

Lemma insert_sorted_hd n x l :
  NoticeModel.before x n = true ->
  HdRel (fun a b => NoticeModel.before a b = true) x l ->
  HdRel (fun a b => NoticeModel.before a b = true) x
    (NoticeModel.insert_sorted n l).
Proof.
  intros Hxn Hhd. destruct l as [|y l]; simpl.
  - by constructor.
  - destruct (NoticeModel.before n y); constructor; [done|].
    by inversion Hhd.
Qed.

Lemma insert_sorted_sorted n l :
  Sorted (fun a b => NoticeModel.before a b = true) l ->
  Sorted (fun a b => NoticeModel.before a b = true)
    (NoticeModel.insert_sorted n l).
Proof.
  induction 1 as [|x l Hs IH Hhd]; simpl.
  - repeat constructor.
  - destruct (NoticeModel.before n x) eqn:Hb.
    + constructor; [by constructor|by constructor].
    + constructor; [done|]. apply insert_sorted_hd; [|done].
      by apply before_total.
Qed.

Lemma sort_sorted l :
  Sorted (fun a b => NoticeModel.before a b = true) (NoticeModel.sort l).
Proof.
  induction l as [|x l IH]; [constructor|].
  unfold NoticeModel.sort in *. simpl. by apply insert_sorted_sorted.
Qed.

Lemma find_all_length (w : World) :
  length (NoticeModel.sort (map snd (map_to_list (notices w))))
  = size (notices w).
Proof. by rewrite sort_length, length_map, length_map_to_list. Qed.

(** The envelope of a list response follows the formulas of the
    handler. *)
Lemma pagination_envelope e w req w' r items p :
  NoticeController.getAllNotices e w req = (w', r) ->
  data r = Some (NoticeList items p) ->
  totalItems p = Z.of_nat (size (notices w))
  /\ totalPages p = ceil_div (totalItems p) (itemsPerPage p)
  /\ hasNextPage p = (currentPage p <? totalPages p)
  /\ hasPrevPage p = (1 <? currentPage p).
Proof.
  unfold NoticeController.getAllNotices, NoticeModel.countDocuments.
  destruct (NoticeModel.find _ _ _ _); destruct (dbUp e);
    intros H; inversion H; subst; simpl; intros Hd; inversion Hd; subst.
  done.
Qed.

(** *** The pre-save rule on the date *)

Lemma save_rejects_far_date e w doc :
  NoticeModel.maxFutureDate (now e) < Notice.date doc ->
  exists err, NoticeModel.save e w doc = Throws err.
Proof.
  intros Hfar. unfold NoticeModel.save, NoticeModel.preSave.
  destruct (NoticeModel.validate doc); [|by eexists].
  rewrite (proj2 (Z.ltb_lt _ _) Hfar). by eexists.
Qed.

Lemma save_stores_within_bound e w doc w' :
  NoticeModel.save e w doc = Returns w' ->
  Notice.date doc <= NoticeModel.maxFutureDate (now e)
  /\ w' = with_notices (insert (Notice._id doc) doc) w.
Proof.
  unfold NoticeModel.save, NoticeModel.preSave.
  destruct (NoticeModel.validate doc); [|done].
  destruct (Z.ltb_spec (NoticeModel.maxFutureDate (now e)) (Notice.date doc))
    as [|Hle]; [done|].
  destruct (dbUp e); [|done]. intros Heq; inversion Heq. split; [lia|done].
Qed.

Lemma uploadRequestFile_notices e w f :
  notices (NoticeController.uploadRequestFile e w f).1 = notices w.
Proof.
  unfold NoticeController.uploadRequestFile, Cloudinary.uploadToCloudinary.
  by destruct (writeOk e), (upload e), (unlinkOk e).
Qed.

Lemma uploadRequestFile_cloud e w f attachment :
  (NoticeController.uploadRequestFile e w f).2 = Some attachment ->
  ("hitech-institute/notices/notice_" +:+ pretty (now e) +:+ "_" +:+ random e)
    ∈ cloud (NoticeController.uploadRequestFile e w f).1.
Proof.
  unfold NoticeController.uploadRequestFile, Cloudinary.uploadToCloudinary.
  destruct (writeOk e); [|done].
  destruct (upload e); [|done]. destruct (unlinkOk e); [|done].
  intros _. simpl. apply elem_of_union_r. by apply elem_of_singleton.
Qed.

Lemma saveNotice_respects_bound e w0 doc id n :
  notices (NoticeController.saveNotice e w0 doc).1 !! id = Some n ->
  notices w0 !! id = Some n
  \/ Notice.date n <= NoticeModel.maxFutureDate (now e).
Proof.
  unfold NoticeController.saveNotice.
  destruct (NoticeModel.save e w0 doc) as [w'|err] eqn:Hsave; simpl.
  - apply save_stores_within_bound in Hsave as [Hle ->].
    destruct (populates e); simpl; rewrite lookup_insert;
      (case_decide; [|by left]); intros Heq; inversion Heq; subst; by right.
  - by left.
Qed.

(** The create path never persists a notice dated beyond the bound: a
    stored notice was there before or respects it. *)
Lemma createNotice_respects_bound L e w req id n :
  notices (NoticeController.createNotice L e w req).1 !! id = Some n ->
  notices w !! id = Some n
  \/ Notice.date n <= NoticeModel.maxFutureDate (now e).
Proof.
  unfold NoticeController.createNotice.
  destruct (Joi.details _); [|by left].
  destruct (file req) as [f|]; [|by apply saveNotice_respects_bound].
  pose proof (uploadRequestFile_notices e w f) as Hn.
  destruct (NoticeController.uploadRequestFile e w f) as [w1 [a|]]; simpl in Hn.
  - rewrite <- Hn. by apply saveNotice_respects_bound.
  - simpl. rewrite Hn. by left.
Qed.

(** *** Create: what is left in storage when the save fails *)

Lemma saveNotice_cloud e w doc :
  cloud (NoticeController.saveNotice e w doc).1 = cloud w.
Proof.
  unfold NoticeController.saveNotice.
  destruct (NoticeModel.save e w doc) as [w'|err] eqn:Hsave; [|done].
  apply save_stores_within_bound in Hsave as [_ ->].
  by destruct (populates e).
Qed.

(** In the Cloudinary controller, a create that uploaded its file and
    then answers with the 500 of the outer [catch] leaves the uploaded
    object in the bucket. *)
Lemma createNotice_keeps_upload L e w req f :
  file req = Some f ->
  message (NoticeController.createNotice L e w req).2
  = "Internal server error while creating notice" ->
  ("hitech-institute/notices/notice_" +:+ pretty (now e) +:+ "_" +:+ random e)
    ∈ cloud (NoticeController.createNotice L e w req).1.
Proof.
  intros Hf. unfold NoticeController.createNotice. rewrite Hf.
  destruct (Joi.details _); [|done].
  pose proof (uploadRequestFile_cloud e w f) as Hc.
  destruct (NoticeController.uploadRequestFile e w f) as [w1 [a|]]; [|done].
  intros _. rewrite saveNotice_cloud. by apply (Hc a).
Qed.

Lemma deleteFile_removes e w p :
  unlinkOk e = true -> p ∉ disk (FileHelpers.deleteFile e w p).1.
Proof.
  intros Hu. unfold FileHelpers.deleteFile. rewrite Hu.
  destruct (bool_decide (p ∈ disk w)) eqn:Hin; simpl.
  - intros Hp. apply elem_of_difference in Hp as [_ Hp]. apply Hp.
    by apply elem_of_singleton.
  - by apply bool_decide_eq_false in Hin.
Qed.

(** The controller that keeps files on the disk does no better: its
    [catch] block means to remove the stored file, but the [deleteFile]
    it calls is not bound, so the file stays and the promise of the
    handler rejects. *)
Lemma local_createNotice_keeps_file L e w req f err :
  file req = Some f ->
  (LocalNoticeController.createNotice L e w req).2 = Throws err ->
  err = LocalNoticeController.deleteFile
  /\ disk (LocalNoticeController.createNotice L e w req).1 = disk w.
Proof.
  intros Hf. unfold LocalNoticeController.createNotice,
    LocalNoticeController.createFailed. rewrite Hf.
  destruct (Joi.details _).
  - destruct (NoticeModel.save _ _ _) as [w'|] eqn:Hsave.
    + apply save_stores_within_bound in Hsave as [_ ->].
      destruct (populates e); [done|].
      simpl. intros H; inversion H. done.
    + simpl. intros H; inversion H. done.
  - simpl. intros H; inversion H. done.
Qed.

(** *** Delete *)

Lemma deleteFromCloudinary_notices e w p :
  notices (Cloudinary.deleteFromCloudinary e w p).1 = notices w.
Proof. unfold Cloudinary.deleteFromCloudinary. by destruct (destroy e). Qed.

(** Deleting a notice goes through whatever Cloudinary answers. *)
Lemma deleteNotice_proceeds e w req n :
  Joi.objectIdPattern (params_id req) = true ->
  dbUp e = true ->
  notices w !! params_id req = Some n ->
  notices (NoticeController.deleteNotice e w req).1 !! params_id req = None
  /\ status (NoticeController.deleteNotice e w req).2 = 200.
Proof.
  intros Hid Hdb Hn.
  unfold NoticeController.deleteNotice, NoticeModel.findByIdAndDelete,
    Mongoose.findById, Mongoose.castObjectId.
  rewrite Hid, Hdb, Hn. simpl. split; [|done].
  apply lookup_delete_eq.
Qed.

(** A rejection of Cloudinary's [destroy] while a notice is deleted is
    written to the console and goes no further. *)
Lemma deleteNotice_logs_rejection e w req n publicId err :
  Joi.objectIdPattern (params_id req) = true ->
  dbUp e = true ->
  notices w !! params_id req = Some n ->
  NoticeController.attachedPublicId n = Some publicId ->
  destroy e = DestroyRejects err ->
  console (NoticeController.deleteNotice e w req).1
  = console w ++ ["Cloudinary delete error:"].
Proof.
  intros Hid Hdb Hn Hp Hd.
  unfold NoticeController.deleteNotice, NoticeModel.findByIdAndDelete,
    Mongoose.findById, Mongoose.castObjectId, Cloudinary.deleteFromCloudinary.
  by rewrite Hid, Hdb, Hn, Hp, Hd.
Qed.

(** *** Read *)

Lemma getNoticeById_malformed e w req :
  Joi.objectIdPattern (params_id req) = false ->
  NoticeController.getNoticeById e w req
  = (log "Get notice by ID error:" w,
     fail 500 "Internal server error while fetching notice").
Proof.
  intros Hid.
  unfold NoticeController.getNoticeById, Mongoose.findById,
    Mongoose.castObjectId.
  by rewrite Hid.
Qed.

Lemma getNoticeById_absent e w req :
  Joi.objectIdPattern (params_id req) = true ->
  dbUp e = true ->
  notices w !! params_id req = None ->
  NoticeController.getNoticeById e w req = (w, fail 404 "Notice not found").
Proof.
  intros Hid Hdb Hn.
  unfold NoticeController.getNoticeById, Mongoose.findById,
    Mongoose.castObjectId.
  by rewrite Hid, Hdb, Hn.
Qed.

(** The central error handler answers a cast error with 400; the notice
    handlers never hand it one. *)
Lemma errorHandler_cast_error id err :
  Joi.objectIdPattern id = false ->
  Mongoose.castObjectId id = Throws err ->
  ErrorHandler.classify err
  = (400, "Invalid ID format", ["The provided ID is not valid"]).
Proof.
  unfold Mongoose.castObjectId. intros ->. intros H; inversion H. reflexivity.
Qed.

(** Without query parameters the handler serves page 1 with 10 items a
    page. *)
Lemma getAllNotices_defaults e w req :
  dbUp e = true ->
  query_page req = None ->
  query_limit req = None ->
  NoticeController.getAllNotices e w req
  = (w, ok 200 "Notices retrieved successfully"
          (NoticeList
             (take 10 (NoticeModel.sort (map snd (map_to_list (notices w)))))
             (mkPagination 1 (ceil_div (Z.of_nat (size (notices w))) 10)
                (Z.of_nat (size (notices w))) 10
                (1 <? ceil_div (Z.of_nat (size (notices w))) 10) false))).
Proof.
  intros Hdb Hpage Hlimit.
  unfold NoticeController.getAllNotices, NoticeModel.find,
    NoticeModel.countDocuments.
  rewrite Hpage, Hlimit, Hdb. reflexivity.
Qed.

Lemma second_page e w req :
  dbUp e = true ->
  size (notices w) = 25%nat ->
  query_page req = Some "2" ->
  query_limit req = Some "10" ->
  exists items,
    NoticeController.getAllNotices e w req
    = (w, ok 200 "Notices retrieved successfully"
            (NoticeList items (mkPagination 2 3 25 10 true true)))
    /\ items = take 10 (drop 10 (NoticeModel.sort
                                   (map snd (map_to_list (notices w)))))
    /\ length items = 10%nat.
Proof.
  intros Hdb Hsize Hpage Hlimit. eexists. split; [|split; [reflexivity|]].
  - unfold NoticeController.getAllNotices, NoticeModel.find,
      NoticeModel.countDocuments.
    rewrite Hpage, Hlimit, Hdb, Hsize. reflexivity.
  - rewrite length_take, length_drop, find_all_length, Hsize. reflexivity.
Qed.

End NoticeFacts.

(* ===================================================================== *)
(** ** The gallery handlers                                                *)
(* ===================================================================== *)

Module GalleryFacts.
Import Js Http.

Lemma errorHandler_world {D} e w err :
  gallery (@ErrorHandler.errorHandler D e w err).1 = gallery w
  /\ success (@ErrorHandler.errorHandler D e w err).2 = false.
Proof.
  unfold ErrorHandler.errorHandler.
  by destruct (ErrorHandler.classify err) as [[st msg] errs].
Qed.

(** A rejection of Cloudinary's [destroy] ends the deletion of a gallery
    item: the record stays. *)
Lemma deleteGalleryImage_stops e w id image publicId err :
  Joi.objectIdPattern id = true ->
  dbUp e = true ->
  gallery w !! id = Some image ->
  Gallery.publicId (Gallery.image_ image) = Some publicId ->
  destroy e = DestroyRejects err ->
  gallery (GalleryController.deleteGalleryImage e w id).1 = gallery w
  /\ success (GalleryController.deleteGalleryImage e w id).2 = false.
Proof.
  intros Hid Hdb Himage Hp Hd.
  unfold GalleryController.deleteGalleryImage, Mongoose.findById,
    Mongoose.castObjectId, Cloudinary.cloudinaryUtils_delete.
  rewrite Hid, Hdb, Himage, Hp, Hd. apply errorHandler_world.
Qed.








End GalleryFacts.

(* ===================================================================== *)
(** ** The statements of the specification                                  *)
(* ===================================================================== *)

Import Js Http.

(** C1.  The specification asks that a create whose file reached storage and
    whose save then fails deletes the file before answering 500.  In the
    Cloudinary controller the outer [catch] only logs and answers: for a
    valid notice dated 31 days ahead and sent with a file, the upload
    succeeds, the save is refused (the attachment has no [path], which
    the model requires, and the date is beyond the bound of the
    [pre('save')] hook), the answer is 500, no record is stored, and the
    uploaded object, absent from the bucket before the request, is still
    in the bucket after it. *)
Theorem createNotice_orphan_after_failed_save :
  let req :=
    Sample.request "" (Sample.noticeBody (Some Sample.farDate)) None None
      (Some Sample.pdf) in
  let r := NoticeController.createNotice Sample.joi Sample.env Sample.world req in
  Joi.details (Joi.validateNotice Sample.joi (body req)) = []
  /\ upload Sample.env = Some Sample.uploaded
  /\ status r.2 = 500
  /\ message r.2 = "Internal server error while creating notice"
  /\ notices r.1 = notices Sample.world
  /\ (Sample.pdfPublicId ∉ cloud Sample.world)
  /\ (Sample.pdfPublicId ∈ cloud r.1).
Proof.
  repeat split; try (vm_compute; reflexivity);
    apply (bool_decide_unpack _); vm_compute; exact I.
Qed.

(** C2.  The specification asks that a failed deletion in remote storage never
    blocks the deletion of the record.  [deleteGalleryImage] awaits
    [cloudinaryUtils.delete] without a [catch]: when Cloudinary's [destroy]
    rejects, the error goes to the error handler, the answer is 500 and the
    gallery record is still in the collection. *)
Theorem deleteGalleryImage_blocked_by_storage_failure :
  let r :=
    GalleryController.deleteGalleryImage Sample.envDestroyRejects Sample.world
      Sample.imageId in
  gallery Sample.world !! Sample.imageId = Some Sample.picture
  /\ destroy Sample.envDestroyRejects = DestroyRejects Sample.timeout
  /\ status r.2 = 500
  /\ success r.2 = false
  /\ gallery r.1 !! Sample.imageId = Some Sample.picture.
Proof. repeat split; vm_compute; reflexivity. Qed.

(** C3.  The specification asks that validation returns the messages of all
    the violated field constraints.  It does not when a value has a defect
    of presence or of type: for a sign-in with an empty password the
    field breaches two things the table asks of it, it is empty and it is
    shorter than 8 characters, and the helper returns the first message
    only, because Joi does not run the rules of a key whose value is
    empty or of another type.  What holds for every raw input object and
    every recognized schema (sign-in, notice, admin registration, query
    parameters) is this.  The helper validates in one pass without
    stopping at the first error and returns, in the order of the schema
    and field by field: for a missing value, the message of a required
    field; for a value one of those the field lists, nothing; for any
    other value, the message of the list of allowed values when the field
    has one, then the message of the defect of the value (no text, empty
    text, no number, an infinite or unsafe number, no valid date) or,
    when the value has no defect, the messages of all the rules on length,
    format and range it violates; and after the fields one message for
    each key the schema does not name.  The input is left as it was: Joi
    works on a clone, a new object, the call on the store returns what
    the call on the value returns, and every object the store held
    before, the input among them, is unchanged. *)
Theorem validation_reports_every_field (L : Joi.lib) (n : Joi.schemaName)
  (data : Js.object) :
  Joi.error_messages (Joi.validate L n data)
  = Contract.report L (Contract.table n) data
  /\ (forall (h : Joi.heap) (ref : positive),
        h !! ref = Some data ->
        let r := Joi.validate_at L false (Joi.schema_of n) h ref in
        r.2.1 = Joi.details (Joi.validate L n data)
        /\ r.1 !! r.2.2 = Some (Joi.value (Joi.validate L n data))
        /\ h !! r.2.2 = None
        /\ r.1 !! ref = Some data
        /\ forall p, p <> r.2.2 -> r.1 !! p = h !! p).
Proof.
  split; [apply JoiFacts.validate_reports|].
  intros h ref Href.
  destruct n; by apply JoiFacts.validate_at_pure.
Qed.

(** The statement of the specification fails on a sign-in whose password
    is empty: the breaches of the input are two, the helper returns
    one. *)
Lemma empty_password_hides_its_length_breach :
  Contract.breaches Sample.joi (Contract.table Joi.SignIn)
    Fixtures.emptyPassword
  = [Joi.label "password" +:+ " is not allowed to be empty";
     "Password must be at least 8 characters long"]
  /\ Joi.error_messages
       (Joi.validate Sample.joi Joi.SignIn Fixtures.emptyPassword)
     = [Joi.label "password" +:+ " is not allowed to be empty"]
  /\ Joi.error_messages
       (Joi.validate Sample.joi Joi.SignIn Fixtures.emptyPassword)
     <> Contract.breaches Sample.joi (Contract.table Joi.SignIn)
          Fixtures.emptyPassword.
Proof.
  split; [reflexivity|]. split; [reflexivity|]. discriminate.
Qed.

(** C4.  The specification asks that the update path also rejects a date more
    than 30 days ahead.  [updateNotice] writes with [findByIdAndUpdate],
    which does not run the [pre('save')] hook: an update carrying a date 31
    days ahead is answered 200 and the stored notice then has a date
    beyond now + 30 days. *)
Theorem updateNotice_accepts_date_beyond_bound :
  let req :=
    Sample.request Sample.noticeId (Sample.noticeBody (Some Sample.farDate))
      None None None in
  let r := NoticeController.updateNotice Sample.joi Sample.env Sample.world req in
  status r.2 = 200
  /\ (Notice.date <$> notices r.1 !! Sample.noticeId) = Some 1702678400000
  /\ NoticeModel.maxFutureDate (now Sample.env) = 1702592000000.
Proof. repeat split; vm_compute; reflexivity. Qed.

(** C5.  The specification asks that a well-formed expired token is answered with
    the expired-token message.  The [catch] block of [authenticateAdmin]
    tests [JsonWebTokenError] first, and [TokenExpiredError] is a subclass
    of it: the answer to an expired token is 401 with the invalid-token
    message. *)
Theorem expired_token_answered_as_invalid :
  Auth.authenticateAdmin Sample.secret Sample.env Sample.world
    (Some Sample.expiredToken)
  = (log "Authentication error:" Sample.world,
     Auth.Reply (fail 401 "Access denied. Invalid token.")).
Proof. vm_compute. reflexivity. Qed.

(** C6.  For every request whose token is signed with the secret and not
    expired, and whose admin record is inactive in the store the request
    finds, the gate answers 401 with the deactivated-account message and
    does not call [next]: the record is read from the store on each
    request. *)
Theorem deactivated_admin_rejected secret e w t admin :
  Auth.signedWith t = secret ->
  now e / 1000 < Auth.exp t ->
  dbUp e = true ->
  Joi.objectIdPattern (Auth.adminId (Auth.payload t)) = true ->
  admins w !! Auth.adminId (Auth.payload t) = Some admin ->
  Admin.isActive admin = false ->
  exists r,
    Auth.authenticateAdmin secret e w (Some (Auth.WellFormed t))
    = (w, Auth.Reply r)
    /\ status r = 401
    /\ message r = "Access denied. Admin account is deactivated.".
Proof.
  intros Hs Hexp Hdb Hid Hadmin Hinactive. eexists. split.
  - exact (AuthFacts.inactive_admin_reply _ _ _ _ _ Hs Hexp Hdb Hid Hadmin
             Hinactive).
  - done.
Qed.

(** The statement of C6 on a concrete request. *)
Lemma deactivated_admin_rejected_witness :
  exists r,
    Auth.authenticateAdmin Sample.secret Sample.env Sample.deactivated
      (Some Sample.liveToken)
    = (Sample.deactivated, Auth.Reply r)
    /\ status r = 401
    /\ message r = "Access denied. Admin account is deactivated.".
Proof.
  apply (deactivated_admin_rejected Sample.secret Sample.env
           Sample.deactivated
           (Auth.mkJwt Sample.secret (Sample.clock / 1000 + 3600)
              Sample.payload)
           (Admin.mk Sample.adminId "Principal" "principal@hitech.example"
              "admin" false None Sample.clock Sample.clock));
    vm_compute; reflexivity.
Defined.

(** C7.  The specification asks for 400 when the id of a single-notice read is
    not a well-formed identifier.  [getNoticeById] catches the cast error
    of [findById] itself: for the id [abc] the answer is 500 with the
    internal-error message. *)
Theorem getNoticeById_malformed_id_is_500 :
  let r :=
    NoticeController.getNoticeById Sample.env Sample.world
      (Sample.request "abc" [] None None None) in
  Joi.objectIdPattern "abc" = false
  /\ status r.2 = 500
  /\ message r.2 = "Internal server error while fetching notice".
Proof. repeat split; vm_compute; reflexivity. Qed.

(** C8.  The specification asks that the list handler derives [page] and [limit]
    through [validateQueryParams], so that no request returns more than
    100 items.  [getAllNotices] reads them with [parseInt] and a default
    and calls no validator: with [limit=150] on a collection of 150
    notices the answer is 200 with 150 items. *)
Theorem getAllNotices_returns_more_than_100 :
  let r :=
    NoticeController.getAllNotices Sample.env (Sample.board 150)
      (Sample.request "" [] None (Some "150") None) in
  exists items pagination,
    data r.2 = Some (NoticeList items pagination)
    /\ status r.2 = 200
    /\ length items = 150%nat
    /\ itemsPerPage pagination = 150.
Proof. vm_compute. do 2 eexists. repeat split; reflexivity. Qed.

(** C9.  For a list request with [page=2] and [limit=10] on a store of 25
    notices, the answer is 200 with exactly 10 items, those that follow
    the first 10 in the sort order, and the envelope has [totalPages = 3
    = ceil(25 / 10)], [hasNextPage = true = (2 < 3)] and [hasPrevPage =
    true = (2 > 1)]. *)
Theorem second_page_of_25 e w req :
  dbUp e = true ->
  size (notices w) = 25%nat ->
  query_page req = Some "2" ->
  query_limit req = Some "10" ->
  exists items,
    NoticeController.getAllNotices e w req
    = (w, ok 200 "Notices retrieved successfully"
            (NoticeList items (mkPagination 2 3 25 10 true true)))
    /\ items = take 10 (drop 10 (NoticeModel.sort
                                   (map snd (map_to_list (notices w)))))
    /\ length items = 10%nat
    /\ 3 = ceil_div 25 10
    /\ true = (2 <? ceil_div 25 10)
    /\ true = (1 <? 2).
Proof.
  intros Hdb Hsize Hpage Hlimit.
  destruct (NoticeFacts.second_page e w req Hdb Hsize Hpage Hlimit)
    as (items & H1 & H2 & H3).
  exists items. repeat split; done.
Qed.

(** The statement of C9 on a concrete request. *)
Lemma second_page_of_25_witness :
  exists items,
    NoticeController.getAllNotices Sample.env (Sample.board 25)
      (Sample.request "" [] (Some "2") (Some "10") None)
    = (Sample.board 25,
       ok 200 "Notices retrieved successfully"
         (NoticeList items (mkPagination 2 3 25 10 true true)))
    /\ items = take 10 (drop 10 (NoticeModel.sort
                                   (map snd (map_to_list
                                               (notices (Sample.board 25))))))
    /\ length items = 10%nat
    /\ 3 = ceil_div 25 10
    /\ true = (2 <? ceil_div 25 10)
    /\ true = (1 <? 2).
Proof.
  apply (second_page_of_25 Sample.env (Sample.board 25)
           (Sample.request "" [] (Some "2") (Some "10") None));
    vm_compute; reflexivity.
Defined.



(* ===================================================================== *)
(** ** Further properties of the handlers, the middleware and the helpers  *)
(* ===================================================================== *)

Module MoreNoticeFacts.
Import Js Http.

Lemma uploadRequestFile_frame e w f :
  admins (NoticeController.uploadRequestFile e w f).1 = admins w
  /\ notices (NoticeController.uploadRequestFile e w f).1 = notices w
  /\ gallery (NoticeController.uploadRequestFile e w f).1 = gallery w.
Proof.
  unfold NoticeController.uploadRequestFile, Cloudinary.uploadToCloudinary.
  destruct (writeOk e), (upload e), (unlinkOk e); simpl; auto.
Qed.

Lemma save_returns e w doc w' :
  NoticeModel.save e w doc = Returns w' ->
  NoticeModel.validate doc = []
  /\ Notice.date doc <= NoticeModel.maxFutureDate (now e)
  /\ dbUp e = true
  /\ w' = with_notices (insert (Notice._id doc) doc) w.
Proof.
  unfold NoticeModel.save, NoticeModel.preSave.
  destruct (NoticeModel.validate doc); [|discriminate].
  destruct (Z.ltb_spec (NoticeModel.maxFutureDate (now e)) (Notice.date doc));
    [discriminate|].
  destruct (dbUp e); [|discriminate].
  intros [= <-]. auto.
Qed.

Lemma saveNotice_cases e w doc :
  (NoticeModel.save e w doc
   = Returns (with_notices (insert (Notice._id doc) doc) w)
   /\ populates e = true
   /\ NoticeController.saveNotice e w doc
      = (with_notices (insert (Notice._id doc) doc) w,
         ok 201 "Notice created successfully" (OneNotice (Some doc))))
  \/ (NoticeModel.save e w doc
      = Returns (with_notices (insert (Notice._id doc) doc) w)
      /\ populates e = false
      /\ NoticeController.saveNotice e w doc
         = (log "Create notice error:"
              (with_notices (insert (Notice._id doc) doc) w),
            fail 500 "Internal server error while creating notice"))
  \/ ((exists err, NoticeModel.save e w doc = Throws err)
      /\ NoticeController.saveNotice e w doc
         = (log "Create notice error:" w,
            fail 500 "Internal server error while creating notice")).
Proof.
  unfold NoticeController.saveNotice.
  destruct (NoticeModel.save e w doc) as [w'|err] eqn:Hsave.
  - apply save_returns in Hsave as (_ & _ & _ & ->).
    destruct (populates e); auto.
  - right. right. eauto.
Qed.

(** The attachment the Cloudinary controller builds has no [path]: the
    model refuses it. *)
Lemma validate_needs_path (doc : Notice.t) (a : Attachment.t) :
  Notice.attachment doc = Some a ->
  NoticeModel.validate doc = [] ->
  exists p, Attachment.path a = Some p /\ p <> "".
Proof.
  unfold NoticeModel.validate. intros -> Hv.
  apply app_eq_nil in Hv as [_ Hv]. apply app_eq_nil in Hv as [_ Hv].
  apply app_eq_nil in Hv as [Hv _]. unfold NoticeModel.attachmentErrors in Hv.
  apply app_eq_nil in Hv as [_ Hv]. apply app_eq_nil in Hv as [_ Hv].
  apply app_eq_nil in Hv as [Hv _]. unfold NoticeModel.requiredPath in Hv.
  destruct (Attachment.path a) as [p|]; [|discriminate].
  exists p. split; [reflexivity|].
  destruct (String.eqb_spec p ""); [discriminate|assumption].
Qed.

Lemma uploadRequestFile_no_path e w f a :
  (NoticeController.uploadRequestFile e w f).2 = Some a ->
  Attachment.path a = None.
Proof.
  unfold NoticeController.uploadRequestFile, Cloudinary.uploadToCloudinary.
  destruct (writeOk e); [|discriminate].
  destruct (upload e); [|discriminate]. destruct (unlinkOk e); [|discriminate].
  cbn. by intros [= <-].
Qed.

Lemma save_refuses_upload e w title description date a createdBy updatedBy :
  Attachment.path a = None ->
  exists err,
    NoticeModel.save e w
      (NoticeModel.create e title description date (Some a) createdBy updatedBy)
    = Throws err.
Proof.
  intros Hp.
  destruct (NoticeModel.save e w _) as [w'|err] eqn:Hsave; [|by eexists].
  apply save_returns in Hsave as (Hv & _).
  eapply validate_needs_path in Hv as (p & Hp' & _); [|reflexivity].
  cbn in Hp'. congruence.
Qed.

Lemma findById_returns {A} e (coll : gmap string A) id o :
  Mongoose.findById e coll id = Returns o ->
  Joi.objectIdPattern id = true /\ dbUp e = true /\ o = coll !! id.
Proof.
  unfold Mongoose.findById, Mongoose.castObjectId.
  destruct (Joi.objectIdPattern id); [|discriminate].
  destruct (dbUp e); [|discriminate].
  intros [= <-]. auto.
Qed.

Lemma findById_found {A} e (coll : gmap string A) id :
  Joi.objectIdPattern id = true -> dbUp e = true ->
  Mongoose.findById e coll id = Returns (coll !! id).
Proof.
  unfold Mongoose.findById, Mongoose.castObjectId. intros -> ->. reflexivity.
Qed.

Lemma deleteFromCloudinary_frame e w p :
  admins (Cloudinary.deleteFromCloudinary e w p).1 = admins w
  /\ notices (Cloudinary.deleteFromCloudinary e w p).1 = notices w
  /\ gallery (Cloudinary.deleteFromCloudinary e w p).1 = gallery w
  /\ disk (Cloudinary.deleteFromCloudinary e w p).1 = disk w.
Proof.
  unfold Cloudinary.deleteFromCloudinary. destruct (destroy e); simpl; auto.
Qed.

Lemma take_drop_sorted {A} (R : A -> A -> Prop) (l : list A) :
  Sorted R l -> forall n m, Sorted R (take n (drop m l)).
Proof.
  intros Hs n m. revert l Hs n.
  induction m as [|m IH]; intros l Hs n.
  - rewrite drop_0. revert n. induction Hs as [|x l Hl IHl Hhd]; intros n.
    + destruct n; constructor.
    + destruct n as [|n]; simpl; [constructor|].
      constructor; [apply IHl|].
      destruct Hhd; destruct n; simpl; constructor; auto.
  - destruct l as [|x l]; simpl; [destruct n; constructor|].
    apply IH. inversion Hs; auto.
Qed.

Lemma createNotice_cases (L : Joi.lib) (e : Env) (w : World)
  (req : Request) :
  let r := NoticeController.createNotice L e w req in
  admins r.1 = admins w
  /\ gallery r.1 = gallery w
  /\ ((exists n,
         notices r.1 = <[newObjectId e := n]> (notices w)
         /\ file req = None
         /\ Notice._id n = newObjectId e
         /\ Notice.createdBy n = Auth.ctx_adminId (admin req)
         /\ Notice.updatedBy n = Auth.ctx_adminId (admin req)
         /\ Notice.isActive n = true
         /\ Notice.attachment n = None
         /\ NoticeModel.validate n = []
         /\ Notice.date n <= NoticeModel.maxFutureDate (now e)
         /\ ((populates e = true
              /\ r.2 = ok 201 "Notice created successfully"
                         (OneNotice (Some n)))
             \/ (populates e = false
                 /\ r.2 = fail 500 "Internal server error while creating notice")))
      \/ (status r.2 <> 201 /\ success r.2 = false
          /\ notices r.1 = notices w)).
Proof.
  cbv zeta. unfold NoticeController.createNotice.
  destruct (Joi.details (Joi.validateNotice L (body req))) as [|d ds].
  2:{ simpl. split; [done|]. split; [done|]. right. done. }
  set (title := as_string _). set (description := as_string _).
  set (date := NoticeController.dateOr _ _).
  destruct (file req) as [f|].
  - pose proof (uploadRequestFile_frame e w f) as (Ha & Hn & Hg).
    pose proof (uploadRequestFile_no_path e w f) as Hpath.
    destruct (NoticeController.uploadRequestFile e w f) as [w' [att|]].
    + destruct (save_refuses_upload e w' title description date att
                  (Auth.ctx_adminId (admin req)) (Auth.ctx_adminId (admin req))
                  (Hpath att eq_refl)) as [err Herr].
      unfold NoticeController.saveNotice. rewrite Herr. simpl in *.
      split; [done|]. split; [done|]. right. done.
    + simpl in *. split; [done|]. split; [done|]. right. done.
  - destruct (saveNotice_cases e w
                (NoticeModel.create e title description date None
                   (Auth.ctx_adminId (admin req))
                   (Auth.ctx_adminId (admin req))))
      as [(Hsave & Hpop & ->)|[(Hsave & Hpop & ->)|[_ ->]]].
    + apply save_returns in Hsave as (Hv & Hd & _ & _).
      simpl. split; [done|]. split; [done|]. left.
      eexists. split; [reflexivity|]. simpl. auto 12.
    + apply save_returns in Hsave as (Hv & Hd & _ & _).
      simpl. split; [done|]. split; [done|]. left.
      eexists. split; [reflexivity|]. simpl. auto 12.
    + simpl. split; [done|]. split; [done|]. right. done.
Qed.

End MoreNoticeFacts.

Import MoreNoticeFacts.

(** X1.  POST /api/notices (Cloudinary controller) stores at most one
    notice, and only a sound one.  The admins and the gallery are never
    touched.  Either the notices are as they were and the answer is a
    failure, or exactly one document was stored: under the fresh id,
    created and updated by the authenticated admin, active, valid for the
    model, dated at most 30 days after the clock, without attachment, for
    a request that carried no file.  In that case the answer is 201 with
    the stored document when the [populate] that follows the save
    succeeds, and the 500 of the outer [catch] when it does not; the
    document stays stored in both cases. *)
Theorem createNotice_stores_only_sound_notices (L : Joi.lib) (e : Env)
  (w : World) (req : Request) :
  let r := NoticeController.createNotice L e w req in
  admins r.1 = admins w
  /\ gallery r.1 = gallery w
  /\ ((exists n,
         notices r.1 = <[newObjectId e := n]> (notices w)
         /\ file req = None
         /\ Notice._id n = newObjectId e
         /\ Notice.createdBy n = Auth.ctx_adminId (admin req)
         /\ Notice.updatedBy n = Auth.ctx_adminId (admin req)
         /\ Notice.isActive n = true
         /\ Notice.attachment n = None
         /\ NoticeModel.validate n = []
         /\ Notice.date n <= NoticeModel.maxFutureDate (now e)
         /\ ((populates e = true
              /\ r.2 = ok 201 "Notice created successfully"
                         (OneNotice (Some n)))
             \/ (populates e = false
                 /\ r.2 = fail 500 "Internal server error while creating notice")))
      \/ (status r.2 <> 201 /\ success r.2 = false
          /\ notices r.1 = notices w)).
Proof. exact (MoreNoticeFacts.createNotice_cases L e w req). Qed.

(** X2.  A notice that POST /api/notices answered with 201 is what
    GET /api/notices/:id returns for the new id on the resulting store,
    whenever the database is reachable. *)
Theorem created_notice_is_read_back (L : Joi.lib) (e e' : Env) (w : World)
  (req req' : Request) :
  status (NoticeController.createNotice L e w req).2 = 201 ->
  Joi.objectIdPattern (newObjectId e) = true ->
  dbUp e' = true ->
  params_id req' = newObjectId e ->
  NoticeController.getNoticeById e'
    (NoticeController.createNotice L e w req).1 req'
  = ((NoticeController.createNotice L e w req).1,
     mkResponse 200 true "Notice retrieved successfully" []
       (data (NoticeController.createNotice L e w req).2)).
Proof.
  intros Hst Hid Hup Hreq.
  pose proof (MoreNoticeFacts.createNotice_cases L e w req) as H.
  cbv zeta in H.
  destruct H as (_ & _ & [(n & Hn & _ & _ & _ & _ & _ & _ & _ & _ & Hr)|[Hne _]]);
    [|done].
  destruct Hr as [[_ Hr]|[_ Hr]]; [|rewrite Hr in Hst; discriminate].
  unfold NoticeController.getNoticeById.
  rewrite findById_found by (rewrite ?Hreq; assumption).
  rewrite Hreq, Hn, lookup_insert_eq, Hr. reflexivity.
Qed.

Lemma created_notice_is_read_back_witness :
  let req :=
    Sample.request "" (Sample.noticeBody None) None None None in
  let req' := Sample.request (newObjectId Sample.env) [] None None None in
  NoticeController.getNoticeById Sample.env
    (NoticeController.createNotice Sample.joi Sample.env Sample.world req).1 req'
  = ((NoticeController.createNotice Sample.joi Sample.env Sample.world req).1,
     mkResponse 200 true "Notice retrieved successfully" []
       (data (NoticeController.createNotice Sample.joi Sample.env Sample.world
                req).2)).
Proof.
  intros req req'.
  apply (created_notice_is_read_back Sample.joi Sample.env Sample.env
           Sample.world req req'); reflexivity.
Defined.

Module IdFacts.

Lemma canonical_pattern id :
  Mongoose.canonical id = true -> Joi.objectIdPattern id = true.
Proof.
  unfold Mongoose.canonical, Joi.objectIdPattern.
  intros H. apply andb_true_iff in H as [Hlen Hall].
  rewrite Hlen. cbn [andb]. rewrite forallb_forall in *.
  intros c Hc. specialize (Hall c Hc). unfold Mongoose.lower_hex in Hall.
  unfold Joi.is_hex. rewrite Hall. reflexivity.
Qed.

End IdFacts.

Module UpdateFacts.

Lemma attachmentErrors_no_path a :
  Attachment.path a = None -> NoticeModel.attachmentErrors (Some a) <> [].
Proof.
  unfold NoticeModel.attachmentErrors. intros -> H.
  apply app_eq_nil in H as [_ H]. apply app_eq_nil in H as [_ H].
  apply app_eq_nil in H as [H _]. cbn in H. discriminate.
Qed.

Lemma sendUpdate_refuses_upload e w id title description date by_ at_ a :
  Attachment.path a = None ->
  NoticeController.sendUpdate e w id
    (NoticeModel.mkUpdate title description date by_ at_ (Some a))
  = NoticeController.updateFailed w.
Proof.
  intros Hp. unfold NoticeController.sendUpdate, NoticeModel.findByIdAndUpdate.
  destruct (Mongoose.castObjectId id); [|reflexivity].
  cbn [NoticeModel.u_title NoticeModel.u_description NoticeModel.u_attachment
       NoticeModel.u_updatedBy].
  destruct (_ ++ _) as [|m ms] eqn:Herrs; [|reflexivity].
  apply app_eq_nil in Herrs as [_ Herrs]. apply app_eq_nil in Herrs as [_ Herrs].
  apply app_eq_nil in Herrs as [Herrs _].
  by apply attachmentErrors_no_path in Herrs.
Qed.

Lemma updateNotice_cases (L : Joi.lib) (e : Env) (w : World) (req : Request) :
  let r := NoticeController.updateNotice L e w req in
  admins r.1 = admins w /\ gallery r.1 = gallery w
  /\ ((notices r.1 = notices w /\ success r.2 = false)
      \/ exists old new,
           notices w !! params_id req = Some old
           /\ notices r.1 = <[params_id req := new]> (notices w)
           /\ file req = None
           /\ Notice._id new = Notice._id old
           /\ Notice.createdBy new = Notice.createdBy old
           /\ Notice.createdAt new = Notice.createdAt old
           /\ Notice.isActive new = Notice.isActive old
           /\ Notice.attachment new = Notice.attachment old
           /\ Notice.updatedBy new = Auth.ctx_adminId (admin req)
           /\ Notice.updatedAt new = now e
           /\ ((populates e = true
                /\ r.2 = ok 200 "Notice updated successfully"
                           (OneNotice (Some new)))
               \/ (populates e = false
                   /\ r.2 = fail 500
                              "Internal server error while updating notice"))).
Proof.
  cbv zeta. unfold NoticeController.updateNotice.
  destruct (Mongoose.findById e (notices w) (params_id req))
    as [[old|]|err] eqn:Hfind; [|cbn; auto..].
  apply findById_returns in Hfind as (Hid & Hdb & Hold). symmetry in Hold.
  destruct (Joi.details (Joi.validateNotice L (body req))) as [|d ds];
    [|cbn; auto].
  set (title := as_string _). set (description := as_string _).
  set (date := NoticeController.dateOr _ _).
  destruct (file req) as [f|] eqn:Hfile.
  - set (w1 := match NoticeController.attachedPublicId old with
               | Some p => _ | None => w end).
    assert (Hw1 : admins w1 = admins w /\ notices w1 = notices w
                  /\ gallery w1 = gallery w).
    { subst w1. destruct (NoticeController.attachedPublicId old); [|auto].
      destruct (deleteFromCloudinary_frame e w s) as (? & ? & ? & _). auto. }
    destruct Hw1 as (Ha1 & Hn1 & Hg1).
    pose proof (uploadRequestFile_frame e w1 f) as (Ha & Hn & Hg).
    pose proof (uploadRequestFile_no_path e w1 f) as Hpath.
    destruct (NoticeController.uploadRequestFile e w1 f) as [w' [att|]].
    + rewrite sendUpdate_refuses_upload by (by apply Hpath).
      cbn in *. rewrite Ha, Hn, Hg, Ha1, Hn1, Hg1. auto.
    + cbn in *. rewrite Ha, Hn, Hg, Ha1, Hn1, Hg1. auto.
  - unfold NoticeController.sendUpdate, NoticeModel.findByIdAndUpdate,
      Mongoose.castObjectId.
    rewrite Hid.
    destruct (_ ++ _) as [|m ms]; [|cbn; auto].
    rewrite Hdb, Hold.
    destruct (populates e) eqn:Hpop; cbn; (split; [reflexivity|]);
      (split; [reflexivity|]); right; eexists old, _;
      (split; [reflexivity|]); (split; [reflexivity|]); cbn; auto 15.
Qed.

End UpdateFacts.

(** X3.  After DELETE /api/notices/:id answered 200 the notice can no
    longer be read: GET /api/notices/:id answers 404 for that id, and
    every other notice is as it was.  The id is one written as the driver
    prints it. *)
Theorem deleted_notice_is_gone (e e' : Env) (w : World) (req req' : Request) :
  Mongoose.canonical (params_id req) = true ->
  status (NoticeController.deleteNotice e w req).2 = 200 ->
  dbUp e' = true ->
  params_id req' = params_id req ->
  NoticeController.getNoticeById e' (NoticeController.deleteNotice e w req).1
    req'
  = ((NoticeController.deleteNotice e w req).1, fail 404 "Notice not found")
  /\ forall id, id <> params_id req ->
       notices (NoticeController.deleteNotice e w req).1 !! id
       = notices w !! id.
Proof.
  intros _ Hst Hup Hreq. revert Hst.
  unfold NoticeController.deleteNotice.
  destruct (Mongoose.findById e (notices w) (params_id req))
    as [[n|]|err] eqn:Hfind; [|discriminate..].
  apply findById_returns in Hfind as (Hid & Hdb & _).
  set (w1 := match NoticeController.attachedPublicId n with
             | Some p => _ | None => w end).
  assert (Hw1 : notices w1 = notices w).
  { subst w1. destruct (NoticeController.attachedPublicId n);
      [apply deleteFromCloudinary_frame|reflexivity]. }
  unfold NoticeModel.findByIdAndDelete, Mongoose.castObjectId.
  rewrite Hid, Hdb. intros _. cbn [fst snd]. split.
  - unfold NoticeController.getNoticeById.
    rewrite findById_found by (rewrite ?Hreq; assumption).
    rewrite Hreq. cbn [notices with_notices]. rewrite lookup_delete_eq.
    reflexivity.
  - intros id Hne. cbn [notices with_notices].
    rewrite lookup_delete_ne by congruence. by rewrite Hw1.
Qed.

Lemma deleted_notice_is_gone_witness :
  let req := Sample.request Sample.noticeId [] None None None in
  let w1 := (NoticeController.deleteNotice Sample.env Fixtures.twoNotices req).1 in
  NoticeController.getNoticeById Sample.env w1 req
  = (w1, fail 404 "Notice not found")
  /\ notices w1 !! Notice._id Fixtures.circular = Some Fixtures.circular.
Proof.
  intros req w1.
  destruct (deleted_notice_is_gone Sample.env Sample.env Fixtures.twoNotices
              req req eq_refl eq_refl eq_refl eq_refl) as [Hgone Hkept].
  split; [exact Hgone|].
  subst w1. rewrite Hkept by discriminate. reflexivity.
Defined.

(** X4.  PUT /api/notices/:id touches one record only, the one of the id
    (written as the driver prints it), and nothing else.  Either the
    notices are as they were and the answer is a failure, or the request
    carried no file and the record of the id was replaced: the new record
    keeps the id, the creator, the creation time, the active flag and the
    attachment of the old one and is stamped with the authenticated admin
    and the clock.  In that case the answer is 200 with the new record
    when the [populate] of the query succeeds, and the 500 of the outer
    [catch] when it does not; the record is changed in both cases. *)
Theorem updateNotice_changes_one_record (L : Joi.lib) (e : Env) (w : World)
  (req : Request) :
  Mongoose.canonical (params_id req) = true ->
  let r := NoticeController.updateNotice L e w req in
  admins r.1 = admins w /\ gallery r.1 = gallery w
  /\ (forall id, id <> params_id req -> notices r.1 !! id = notices w !! id)
  /\ ((notices r.1 = notices w /\ success r.2 = false)
      \/ exists old new,
           notices w !! params_id req = Some old
           /\ notices r.1 = <[params_id req := new]> (notices w)
           /\ file req = None
           /\ Notice._id new = Notice._id old
           /\ Notice.createdBy new = Notice.createdBy old
           /\ Notice.createdAt new = Notice.createdAt old
           /\ Notice.isActive new = Notice.isActive old
           /\ Notice.attachment new = Notice.attachment old
           /\ Notice.updatedBy new = Auth.ctx_adminId (admin req)
           /\ Notice.updatedAt new = now e
           /\ ((populates e = true
                /\ r.2 = ok 200 "Notice updated successfully"
                           (OneNotice (Some new)))
               \/ (populates e = false
                   /\ r.2 = fail 500
                              "Internal server error while updating notice"))).
Proof.
  intros _. cbv zeta.
  destruct (UpdateFacts.updateNotice_cases L e w req) as (Ha & Hg & Hcases).
  split; [exact Ha|]. split; [exact Hg|]. split; [|exact Hcases].
  intros id Hne.
  destruct Hcases as [[-> _]|(old & new & _ & -> & _)]; [reflexivity|].
  by rewrite lookup_insert_ne by congruence.
Qed.

Lemma updateNotice_changes_one_record_witness :
  let req :=
    Sample.request Sample.noticeId (Sample.noticeBody None) None None None in
  let r :=
    NoticeController.updateNotice Sample.joi Fixtures.envPopulateFails
      Fixtures.twoNotices req in
  r.2 = fail 500 "Internal server error while updating notice"
  /\ (Notice.updatedAt <$> notices r.1 !! Sample.noticeId) = Some Sample.clock
  /\ notices r.1 !! Notice._id Fixtures.circular = Some Fixtures.circular.
Proof.
  intros req r.
  destruct (updateNotice_changes_one_record Sample.joi
              Fixtures.envPopulateFails Fixtures.twoNotices req eq_refl)
    as (_ & _ & Hkept & _).
  split; [reflexivity|]. split; [reflexivity|].
  subst r. rewrite Hkept by discriminate. reflexivity.
Defined.

(** X5.  The Cloudinary controller cannot attach a file to a notice.  The
    attachment object it builds names [url] and [publicId] and has no
    [path], which [attachmentSchema] requires, so the model refuses the
    document.  Whatever else the request holds, POST /api/notices and
    PUT /api/notices/:id with a file answer with a failure and leave the
    notices as they were.  When the body is valid, the temporary file
    could be written and Cloudinary took the file, the answer of the
    create is 500 and the uploaded object is in the bucket afterwards,
    with no notice naming it. *)
Theorem notice_with_file_is_never_stored (L : Joi.lib) (e : Env) (w : World)
  (req : Request) (f : Multer.File) :
  file req = Some f ->
  let c := NoticeController.createNotice L e w req in
  let u := NoticeController.updateNotice L e w req in
  success c.2 = false /\ notices c.1 = notices w
  /\ success u.2 = false /\ notices u.1 = notices w
  /\ (Joi.details (Joi.validateNotice L (body req)) = [] ->
      writeOk e = true ->
      upload e <> None ->
      status c.2 = 500
      /\ ("hitech-institute/notices/notice_" +:+ pretty (now e) +:+ "_"
            +:+ random e) ∈ cloud c.1).
Proof.
  intros Hfile. cbv zeta.
  destruct (createNotice_cases L e w req) as (_ & _ & Hc).
  destruct (UpdateFacts.updateNotice_cases L e w req) as (_ & _ & Hu).
  assert (Hcs : success (NoticeController.createNotice L e w req).2 = false
                /\ notices (NoticeController.createNotice L e w req).1
                   = notices w).
  { destruct Hc as [(n & _ & Hnone & _)|(_ & Hs & Hn)]; [congruence|auto]. }
  assert (Hus : success (NoticeController.updateNotice L e w req).2 = false
                /\ notices (NoticeController.updateNotice L e w req).1
                   = notices w).
  { destruct Hu as [[Hn Hs]|(old & new & _ & _ & Hnone & _)];
      [auto|congruence]. }
  destruct Hcs as [Hcs Hcn], Hus as [Hus Hun].
  repeat (split; [assumption|]).
  intros Hvalid Hwrite Hup.
  unfold NoticeController.createNotice. rewrite Hvalid, Hfile.
  pose proof (uploadRequestFile_no_path e w f) as Hpath.
  revert Hpath.
  unfold NoticeController.uploadRequestFile, Cloudinary.uploadToCloudinary.
  rewrite Hwrite.
  destruct (upload e) as [res|]; [|done].
  destruct (unlinkOk e).
  - intros Hpath.
    match goal with
    | |- context [NoticeController.saveNotice e ?w0 (NoticeModel.create e ?t ?d ?dt (Some ?a) ?c ?u)] =>
        destruct (save_refuses_upload e w0 t d dt a c u (Hpath a eq_refl))
          as [err Herr]
    end.
    unfold NoticeController.saveNotice. rewrite Herr. cbn.
    split; [reflexivity|].
    apply elem_of_union; right. by apply elem_of_singleton.
  - intros _. cbn. split; [reflexivity|].
    apply elem_of_union; right. by apply elem_of_singleton.
Qed.

Lemma notice_with_file_is_never_stored_witness :
  let req :=
    Sample.request Sample.noticeId (Sample.noticeBody None) None None
      (Some Sample.pdf) in
  let c := NoticeController.createNotice Sample.joi Sample.env Sample.world req in
  let u := NoticeController.updateNotice Sample.joi Sample.env Sample.world req in
  c.2 = fail 500 "Internal server error while creating notice"
  /\ u.2 = fail 500 "Internal server error while updating notice"
  /\ notices c.1 = notices Sample.world
  /\ notices u.1 = notices Sample.world
  /\ (Sample.pdfPublicId ∈ cloud c.1).
Proof.
  intros req c u.
  destruct (notice_with_file_is_never_stored Sample.joi Sample.env
              Sample.world req Sample.pdf eq_refl)
    as (_ & Hc & _ & Hu & Horphan).
  split; [reflexivity|]. split; [reflexivity|].
  split; [exact Hc|]. split; [exact Hu|].
  apply Horphan; [reflexivity|reflexivity|discriminate].
Defined.

(** X6.  POST /api/notices with a file writes the buffer to a temporary
    file under uploads/ and removes it after the upload.  The removal is
    skipped when the upload throws, and fails when [fs.unlinkSync]
    throws: for a valid body with a file, once the temporary file could
    be written, it is on the disk after the request exactly when the
    upload to Cloudinary or the removal failed. *)
Theorem createNotice_temp_file_left_iff_upload_or_unlink_fails (L : Joi.lib)
  (e : Env) (w : World) (req : Request) (f : Multer.File) :
  Joi.details (Joi.validateNotice L (body req)) = [] ->
  file req = Some f ->
  writeOk e = true ->
  let tempFilePath :=
    "uploads/temp_" +:+ pretty (now e) +:+ "_" +:+ Multer.originalname f in
  tempFilePath ∈ disk (NoticeController.createNotice L e w req).1
  <-> upload e = None \/ unlinkOk e = false.
Proof.
  intros Hvalid Hfile Hwrite. cbv zeta.
  unfold NoticeController.createNotice. rewrite Hvalid, Hfile.
  unfold NoticeController.uploadRequestFile, Cloudinary.uploadToCloudinary.
  rewrite Hwrite.
  destruct (upload e) as [res|].
  - destruct (unlinkOk e).
    + match goal with
      | |- context [NoticeController.saveNotice e ?w0 ?n] =>
          destruct (saveNotice_cases e w0 n)
            as [(_ & _ & ->)|[(_ & _ & ->)|[_ ->]]]
      end; cbn; rewrite elem_of_difference, elem_of_singleton;
        (split; [tauto|intros [?|?]; discriminate]).
    + cbn. rewrite elem_of_union, elem_of_singleton. tauto.
  - cbn. rewrite elem_of_union, elem_of_singleton. tauto.
Qed.

Lemma createNotice_temp_file_left_iff_upload_or_unlink_fails_witness :
  let req :=
    Sample.request "" (Sample.noticeBody None) None None (Some Sample.pdf) in
  ("uploads/temp_1700000000000_schedule.pdf"
     ∈ disk (NoticeController.createNotice Sample.joi Fixtures.envUnlinkFails
               Sample.world req).1)
  /\ ("uploads/temp_1700000000000_schedule.pdf"
        ∉ disk (NoticeController.createNotice Sample.joi Sample.env
                  Sample.world req).1).
Proof.
  intros req. split.
  - apply (createNotice_temp_file_left_iff_upload_or_unlink_fails Sample.joi
             Fixtures.envUnlinkFails Sample.world req Sample.pdf eq_refl
             eq_refl eq_refl).
    right. reflexivity.
  - intros Hin.
    apply (createNotice_temp_file_left_iff_upload_or_unlink_fails Sample.joi
             Sample.env Sample.world req Sample.pdf eq_refl eq_refl eq_refl)
      in Hin.
    destruct Hin; discriminate.
Defined.

Module ListingFacts.
Import Js Http.

Lemma parseInt_or_not_zero q d : d <> 0 -> parseInt_or q d <> 0.
Proof.
  intros Hd. unfold parseInt_or, or, truthy.
  destruct (parseInt_param q) as [z| | | |]; cbn; try assumption.
  destruct (Z.eqb_spec z 0); cbn; assumption.
Qed.

Lemma getAllNotices_cases e w req :
  let page := parseInt_or (query_page req) 1 in
  let limit := parseInt_or (query_limit req) 10 in
  (dbUp e = true /\ 0 <= (page - 1) * limit
   /\ NoticeController.getAllNotices e w req
      = (w,
         ok 200 "Notices retrieved successfully"
           (NoticeList
              (take (Z.to_nat (Z.abs limit))
                 (drop (Z.to_nat ((page - 1) * limit))
                    (NoticeModel.sort (map snd (map_to_list (notices w))))))
              (mkPagination page
                 (ceil_div (Z.of_nat (size (notices w))) limit)
                 (Z.of_nat (size (notices w))) limit
                 (page <? ceil_div (Z.of_nat (size (notices w))) limit)
                 (1 <? page)))))
  \/ ((dbUp e = false \/ (page - 1) * limit < 0)
      /\ NoticeController.getAllNotices e w req
         = (log "Get notices error:" w,
            fail 500 "Internal server error while fetching notices")).
Proof.
  cbv zeta. unfold NoticeController.getAllNotices, NoticeModel.find,
    NoticeModel.countDocuments.
  destruct (dbUp e); cbn [negb]; [|right; auto].
  destruct (Z.ltb_spec
              ((parseInt_or (query_page req) 1 - 1)
               * parseInt_or (query_limit req) 10) 0).
  - right. auto.
  - left. auto.
Qed.

End ListingFacts.

(** X7.  GET /api/notices never changes the store: for every request the
    admins, the notices, the gallery, the bucket and the disk are after
    the request what they were before it.  The answer is the 500 of the
    [catch], or a list of stored notices, newest first (by date, then by
    creation time), in an envelope whose page size is never 0, the list
    being no longer than its absolute value. *)
Theorem getAllNotices_lists_stored_notices_in_order (e : Env) (w : World)
  (req : Request) :
  let r := NoticeController.getAllNotices e w req in
  admins r.1 = admins w /\ notices r.1 = notices w /\ gallery r.1 = gallery w
  /\ cloud r.1 = cloud w /\ disk r.1 = disk w
  /\ (r = (log "Get notices error:" w,
           fail 500 "Internal server error while fetching notices")
      \/ exists items p,
           r = (w, ok 200 "Notices retrieved successfully" (NoticeList items p))
           /\ Sorted (fun a b => NoticeModel.before a b = true) items
           /\ (forall n, n ∈ items -> exists id, notices w !! id = Some n)
           /\ itemsPerPage p <> 0
           /\ Z.of_nat (length items) <= Z.abs (itemsPerPage p)).
Proof.
  cbv zeta.
  destruct (ListingFacts.getAllNotices_cases e w req)
    as [(_ & _ & Heq)|(_ & Heq)]; rewrite Heq; cbn [fst snd];
    repeat (split; [reflexivity|]); [right|left; reflexivity].
  eexists _, _. split; [reflexivity|]. cbn [itemsPerPage].
  split; [|split; [|split]].
  - apply MoreNoticeFacts.take_drop_sorted, NoticeFacts.sort_sorted.
  - intros n Hn.
    assert (Hi : n ∈ NoticeModel.sort (map snd (map_to_list (notices w)))).
    { eapply elem_of_sublist; [exact Hn|].
      etrans; [apply sublist_take|apply sublist_drop]. }
    rewrite NoticeFacts.sort_perm in Hi.
    apply list_elem_of_fmap in Hi as ([id n'] & -> & Hin).
    apply elem_of_map_to_list in Hin. eauto.
  - apply ListingFacts.parseInt_or_not_zero. discriminate.
  - rewrite length_take. lia.
Qed.

(** X8.  GET /api/notices answers 500 when the parsed page and limit give
    a negative offset, as with [page=-1]: the query is refused by the
    database and the handler's [catch] answers. *)
Theorem getAllNotices_negative_offset_is_500 (e : Env) (w : World)
  (req : Request) :
  (parseInt_or (query_page req) 1 - 1) * parseInt_or (query_limit req) 10 < 0 ->
  NoticeController.getAllNotices e w req
  = (log "Get notices error:" w,
     fail 500 "Internal server error while fetching notices").
Proof.
  intros Hneg.
  destruct (ListingFacts.getAllNotices_cases e w req)
    as [(_ & Hpos & _)|(_ & Heq)]; [lia|exact Heq].
Qed.

Lemma getAllNotices_negative_offset_is_500_witness :
  NoticeController.getAllNotices Sample.env Sample.world
    (Sample.request "" [] (Some "-1") None None)
  = (log "Get notices error:" Sample.world,
     fail 500 "Internal server error while fetching notices").
Proof.
  apply (getAllNotices_negative_offset_is_500 Sample.env Sample.world
           (Sample.request "" [] (Some "-1") None None)).
  vm_compute. reflexivity.
Defined.

Module LocalFacts.
Import Js Http.

Lemma local_createNotice_cases L e w req :
  let r := LocalNoticeController.createNotice L e w req in
  admins r.1 = admins w /\ gallery r.1 = gallery w /\ cloud r.1 = cloud w
  /\ disk r.1 = disk w
  /\ ((exists n,
         notices r.1 = <[newObjectId e := n]> (notices w)
         /\ Notice._id n = newObjectId e
         /\ Notice.attachment n = LocalNoticeController.fileAttachment <$> file req
         /\ NoticeModel.validate n = []
         /\ ((populates e = true
              /\ r.2 = Returns (ok 201 "Notice created successfully"
                                  (OneNotice (Some n))))
             \/ (populates e = false
                 /\ r.2 = (LocalNoticeController.createFailed w req).2)))
      \/ (notices r.1 = notices w
          /\ (r.2 = (LocalNoticeController.createFailed w req).2
              \/ file req = None
                 /\ r.2 = Returns
                            (fail_with 400 "Validation error"
                               (Joi.error_messages
                                  (Joi.validateNotice L (body req))))))).
Proof.
  cbv zeta. unfold LocalNoticeController.createNotice.
  destruct (Joi.details (Joi.validateNotice L (body req))) as [|d ds].
  - match goal with
    | |- context [NoticeModel.save e w ?doc] =>
        destruct (NoticeModel.save e w doc) as [w'|err] eqn:Hsave
    end.
    + apply save_returns in Hsave as (Hv & _ & _ & ->).
      destruct (populates e).
      * cbn [fst snd admins gallery cloud disk notices with_notices].
        repeat (split; [reflexivity|]). left. eexists.
        split; [reflexivity|]. split; [reflexivity|].
        split; [by destruct (file req)|]. split; [exact Hv|]. left. auto.
      * unfold LocalNoticeController.createFailed.
        destruct (file req);
          cbn [fst snd admins gallery cloud disk notices with_notices log];
          repeat (split; [reflexivity|]); left;
          eexists; (split; [reflexivity|]); (split; [reflexivity|]);
          (split; [reflexivity|]); (split; [exact Hv|]); right; auto.
    + unfold LocalNoticeController.createFailed.
      destruct (file req); cbn; auto 10.
  - unfold LocalNoticeController.createFailed.
    destruct (file req); cbn; auto 10.
Qed.

End LocalFacts.

(** X9.  In the controller that keeps attachments on the local disk,
    POST /api/notices with a file never answers with a failure and never
    removes the file.  Each failure path of the handler (a validation
    error, a refused save, a failed [populate]) calls [deleteFile], which
    the module neither imports nor defines: the call throws a
    [ReferenceError], the second time from inside the [catch] block, so
    the promise of the handler rejects and the handler sends nothing.
    The only answer the handler gives is therefore 201; the file the
    middleware stored is on the disk afterwards in every case. *)
Theorem local_createNotice_with_file_creates_or_rejects (L : Joi.lib)
  (e : Env) (w : World) (req : Request) (f : Multer.File) :
  file req = Some f ->
  let r := LocalNoticeController.createNotice L e w req in
  disk r.1 = disk w
  /\ (r.2 = Throws LocalNoticeController.deleteFile
      \/ exists n,
           r.2 = Returns (ok 201 "Notice created successfully"
                            (OneNotice (Some n)))
           /\ notices r.1 = <[newObjectId e := n]> (notices w)
           /\ Notice.attachment n
              = Some (LocalNoticeController.fileAttachment f))
  /\ (r.2 = Throws LocalNoticeController.deleteFile ->
      notices r.1 = notices w
      \/ populates e = false
         /\ exists n, notices r.1 = <[newObjectId e := n]> (notices w)).
Proof.
  intros Hfile. cbv zeta.
  destruct (LocalFacts.local_createNotice_cases L e w req)
    as (_ & _ & _ & Hd & Hcases).
  split; [exact Hd|].
  unfold LocalNoticeController.createFailed in Hcases.
  rewrite Hfile in Hcases. cbn in Hcases.
  destruct Hcases as [(n & Hn & _ & Ha & _ & [[Hp ->]|[Hp ->]])
                     |(Hn & [->|[? _]])]; [| | |discriminate].
  - split; [right; eauto|]. discriminate.
  - split; [by left|]. intros _. right. eauto.
  - split; [by left|]. intros _. by left.
Qed.

Lemma local_createNotice_with_file_creates_or_rejects_witness :
  let w := with_disk (fun d => d ∪ {[Multer.path Sample.pdf]}) Sample.world in
  let req := Sample.request "" [] None None (Some Sample.pdf) in
  let r := LocalNoticeController.createNotice Sample.joi Sample.env w req in
  r.2 = Throws LocalNoticeController.deleteFile
  /\ disk r.1 = disk w
  /\ notices r.1 = notices w.
Proof.
  intros w req r.
  destruct (local_createNotice_with_file_creates_or_rejects Sample.joi
              Sample.env w req Sample.pdf eq_refl) as (Hd & _ & Hn).
  split; [reflexivity|]. split; [exact Hd|]. reflexivity.
Defined.

(** X10.  A notice that the local-disk controller created with a file
    cannot be deleted through it.  DELETE /api/notices/:id finds the
    record, sees the path of its attachment and calls the unbound
    [deleteFile]; the [ReferenceError] is caught, the answer is 500, and
    the record and the file stay. *)
Theorem local_notice_with_file_cannot_be_deleted (L : Joi.lib) (e e' : Env)
  (w : World) (req req' : Request) (f : Multer.File)
  (resp : response NoticeData) :
  file req = Some f ->
  Multer.path f <> "" ->
  (LocalNoticeController.createNotice L e w req).2 = Returns resp ->
  Mongoose.canonical (newObjectId e) = true ->
  dbUp e' = true ->
  params_id req' = newObjectId e ->
  let w1 := (LocalNoticeController.createNotice L e w req).1 in
  status resp = 201
  /\ LocalNoticeController.deleteNotice e' w1 req'
     = (log "Delete notice error:" w1,
        fail 500 "Internal server error while deleting notice").
Proof.
  intros Hfile Hpath Hresp Hid Hdb Hreq. cbv zeta.
  destruct (LocalFacts.local_createNotice_cases L e w req)
    as (_ & _ & _ & _ & Hcases).
  unfold LocalNoticeController.createFailed in Hcases.
  rewrite Hfile in Hcases. cbn in Hcases. rewrite Hresp in Hcases.
  destruct Hcases as [(n & Hn & _ & Ha & _ & [[Hp Hr]|[Hp Hr]])
                     |(Hn & [Hr|[? _]])]; try discriminate.
  injection Hr as ->. split; [reflexivity|].
  unfold LocalNoticeController.deleteNotice.
  rewrite findById_found
    by (rewrite ?Hreq; auto using IdFacts.canonical_pattern).
  rewrite Hreq, Hn, lookup_insert_eq.
  unfold LocalNoticeController.truthy_path. rewrite Ha. cbn.
  destruct (String.eqb_spec (Multer.path f) ""); [contradiction|reflexivity].
Qed.

Lemma local_notice_with_file_cannot_be_deleted_witness :
  let w := with_disk (fun d => d ∪ {[Multer.path Sample.pdf]}) Sample.world in
  let req :=
    Sample.request "" (Sample.noticeBody None) None None (Some Sample.pdf) in
  let req' := Sample.request (newObjectId Sample.env) [] None None None in
  let w1 := (LocalNoticeController.createNotice Sample.joi Sample.env w req).1 in
  (Notice.title <$> notices w1 !! newObjectId Sample.env) = Some "Exam schedule"
  /\ LocalNoticeController.deleteNotice Fixtures.nextDay w1 req'
     = (log "Delete notice error:" w1,
        fail 500 "Internal server error while deleting notice").
Proof.
  intros w req req' w1.
  split; [reflexivity|].
  eapply (local_notice_with_file_cannot_be_deleted Sample.joi Sample.env
            Fixtures.nextDay w req req' Sample.pdf);
    [reflexivity|discriminate|reflexivity..].
Defined.

Module MoreGalleryFacts.
Import Js Http.

Lemma plain_error_is_500 {D} e w msg :
  msg <> "" ->
  @ErrorHandler.errorHandler D e w (plain_error msg)
  = (log (if String.eqb (nodeEnv e) "development" then "Error Details:"
          else "Production Error:") w,
     fail_with 500 msg []).
Proof.
  intros Hmsg. unfold ErrorHandler.errorHandler, ErrorHandler.classify.
  cbn. destruct (String.eqb_spec msg ""); [done|]. reflexivity.
Qed.

Lemma errorHandler_frame {D} e w err :
  admins (@ErrorHandler.errorHandler D e w err).1 = admins w
  /\ notices (@ErrorHandler.errorHandler D e w err).1 = notices w
  /\ gallery (@ErrorHandler.errorHandler D e w err).1 = gallery w
  /\ cloud (@ErrorHandler.errorHandler D e w err).1 = cloud w
  /\ disk (@ErrorHandler.errorHandler D e w err).1 = disk w
  /\ success (@ErrorHandler.errorHandler D e w err).2 = false
  /\ data (@ErrorHandler.errorHandler D e w err).2 = None.
Proof.
  unfold ErrorHandler.errorHandler.
  destruct (ErrorHandler.classify err) as [[st msg] errs]. cbn. auto 10.
Qed.

Lemma validationError_is_400 {D} e w msgs :
  status (@ErrorHandler.errorHandler D e w (Mongoose.validationError msgs)).2
  = 400.
Proof. reflexivity. Qed.

Lemma insert_by_date_perm g l : GalleryHandlers.insert_by_date g l ≡ₚ g :: l.
Proof.
  induction l as [|x l IH]; simpl; [reflexivity|].
  destruct (Gallery.date x <=? Gallery.date g); [reflexivity|].
  rewrite IH. apply Permutation_swap.
Qed.

Lemma sortByDate_perm l : GalleryHandlers.sortByDate l ≡ₚ l.
Proof.
  induction l as [|x l IH]; simpl; [reflexivity|].
  rewrite insert_by_date_perm. by rewrite IH.
Qed.

Lemma insert_by_date_hd g x l :
  Gallery.date g <= Gallery.date x ->
  HdRel (fun a b => Gallery.date b <= Gallery.date a) x l ->
  HdRel (fun a b => Gallery.date b <= Gallery.date a) x
    (GalleryHandlers.insert_by_date g l).
Proof.
  intros Hg Hl. destruct l as [|y l]; simpl; [by constructor|].
  destruct (Gallery.date y <=? Gallery.date g); constructor; [assumption|].
  by inversion Hl.
Qed.

Lemma insert_by_date_sorted g l :
  Sorted (fun a b => Gallery.date b <= Gallery.date a) l ->
  Sorted (fun a b => Gallery.date b <= Gallery.date a)
    (GalleryHandlers.insert_by_date g l).
Proof.
  induction 1 as [|x l Hl IH Hhd]; simpl; [repeat constructor|].
  destruct (Z.leb_spec (Gallery.date x) (Gallery.date g)).
  - constructor; [by constructor|]. by constructor.
  - constructor; [assumption|]. apply insert_by_date_hd; [lia|assumption].
Qed.

Lemma sortByDate_sorted l :
  Sorted (fun a b => Gallery.date b <= Gallery.date a)
    (GalleryHandlers.sortByDate l).
Proof.
  induction l as [|x l IH]; simpl; [constructor|].
  by apply insert_by_date_sorted.
Qed.

Lemma uploadImageToGallery_cases (L : Mongoose.lib)
  (rejection : Js.error) (e : Env) (w : World) (file : option Multer.File)
  (body : object) (ctx : Auth.AdminContext) :
  let r := GalleryHandlers.uploadImageToGallery L rejection e w file body ctx in
  (success r.2 = true
   /\ status r.2 = 201
   /\ exists g,
        data r.2 = Some g
        /\ gallery r.1 = <[newObjectId e := g]> (gallery w)
        /\ Gallery._id g = newObjectId e
        /\ Gallery.publicId (Gallery.image_ g)
           = Some ("hitech-institute/gallery/" +:+ random e)
        /\ ("hitech-institute/gallery/" +:+ random e) ∈ cloud r.1
        /\ Gallery.uploadedBy g = Auth.ctx_adminId ctx
        /\ Gallery.category g ∈ GalleryModel.categories
        /\ Gallery.title g <> "")
  \/ (success r.2 = false /\ data r.2 = None /\ gallery r.1 = gallery w).
Proof.
  cbv zeta. unfold GalleryHandlers.uploadImageToGallery.
  assert (Hfail : forall w0 err,
    gallery w0 = gallery w ->
    success (@ErrorHandler.errorHandler Gallery.t e w0 err).2 = false
    /\ data (@ErrorHandler.errorHandler Gallery.t e w0 err).2 = None
    /\ gallery (@ErrorHandler.errorHandler Gallery.t e w0 err).1 = gallery w).
  { intros w0 err Hw0.
    destruct (MoreGalleryFacts.errorHandler_frame (D:=Gallery.t) e w0 err)
      as (_ & _ & Hg & _ & _ & Hs & Hd).
    rewrite Hg, Hw0. auto. }
  destruct file as [f|]; [|right; by apply Hfail].
  destruct (truthy (get "title" body)) eqn:Htitle; cbn [negb orb];
    [|right; by apply Hfail].
  destruct (truthy (get "category" body)) eqn:Hcat; cbn [negb orb];
    [|right; by apply Hfail].
  destruct (if truthy (get "date" body) then _ else _) as [parsedDate|];
    [|right; by apply Hfail].
  unfold GalleryHandlers.cloudinaryUtils_upload.
  destruct (upload e) as [res|]; [|right; by apply Hfail].
  destruct (Mongoose.castString L (get "title" body)) as [title|];
    [|right; by apply Hfail].
  destruct (GalleryHandlers.castOptional L (get "description" body))
    as [description|]; [|right; by apply Hfail].
  destruct (Mongoose.castString L (get "category" body)) as [category|];
    [|right; by apply Hfail].
  destruct (Mongoose.castObjectId (Auth.ctx_adminId ctx));
    [|right; by apply Hfail].
  unfold GalleryHandlers.create.
  match goal with
  | |- context [GalleryModel.validate ?doc] =>
      destruct (GalleryModel.validate doc) as [|m ms] eqn:Hvalid
  end; [|right; by apply Hfail].
  destruct (dbUp e); [|right; by apply Hfail].
  left. cbn. split; [reflexivity|]. split; [reflexivity|].
  eexists. split; [reflexivity|].
  cbn [Gallery.publicId Gallery.image_ Gallery.uploadedBy Gallery.category
       Gallery.title Gallery._id].
  split; [reflexivity|]. split; [reflexivity|]. split; [reflexivity|].
  split; [apply elem_of_union; right; by apply elem_of_singleton|].
  split; [reflexivity|].
  revert Hvalid. unfold GalleryModel.validate, GalleryModel.requiredPath.
  cbn [Gallery.publicId Gallery.image_ Gallery.uploadedBy Gallery.category
       Gallery.title Gallery.url].
  destruct (String.eqb_spec title ""); [discriminate|].
  destruct (secure_url res =? "")%string; [discriminate|].
  destruct (trim category =? "")%string; [discriminate|].
  destruct (existsb (String.eqb (trim category)) GalleryModel.categories)
    eqn:Hex; [|discriminate].
  intros _. split; [|assumption].
  apply existsb_exists in Hex as (c & Hin & Heq).
  apply String.eqb_eq in Heq. rewrite Heq. by apply list_elem_of_In.
Qed.

End MoreGalleryFacts.

(** X11.  DELETE and PUT /api/gallery/:id on an id that has no record
    (the id written as the driver prints it) answer 500, not 404: the
    handlers call [res.status(404)] and throw, and [errorHandler] answers
    with [error.statusCode || 500].  The message is the thrown one and
    nothing is changed. *)
Theorem gallery_absent_image_is_500 (L : Mongoose.lib) (e : Env) (w : World)
  (id : string) (body : object) :
  Mongoose.canonical id = true ->
  dbUp e = true ->
  gallery w !! id = None ->
  let d := GalleryController.deleteGalleryImage e w id in
  let u := GalleryController.updateGalleryImage L e w id body in
  d.2 = fail_with 500 "Image not found" []
  /\ u.2 = fail_with 500 "Image not found" []
  /\ gallery d.1 = gallery w /\ cloud d.1 = cloud w
  /\ gallery u.1 = gallery w /\ cloud u.1 = cloud w.
Proof.
  intros Hid Hdb Hnone. cbv zeta. apply IdFacts.canonical_pattern in Hid.
  unfold GalleryController.deleteGalleryImage,
    GalleryController.updateGalleryImage.
  rewrite MoreNoticeFacts.findById_found, Hnone by assumption.
  rewrite !MoreGalleryFacts.plain_error_is_500 by discriminate.
  cbn. auto 10.
Qed.

Lemma gallery_absent_image_is_500_witness :
  let d :=
    GalleryController.deleteGalleryImage Sample.env Sample.world
      Sample.noticeId in
  let u :=
    GalleryController.updateGalleryImage Sample.mongoose Sample.env
      Sample.world Sample.noticeId [] in
  d.2 = fail_with 500 "Image not found" []
  /\ u.2 = fail_with 500 "Image not found" []
  /\ gallery d.1 = gallery Sample.world /\ cloud d.1 = cloud Sample.world
  /\ gallery u.1 = gallery Sample.world /\ cloud u.1 = cloud Sample.world.
Proof.
  apply (gallery_absent_image_is_500 Sample.mongoose Sample.env Sample.world
           Sample.noticeId []); reflexivity.
Defined.

(** X12.  POST /api/gallery stores a record exactly when it answers with
    success, and then the status is 201.  The record is the one sent back,
    stored under the fresh id; its image names the object just put in the
    bucket, its uploader is the authenticated admin, its category is one
    of the five the model lists and its title is not empty.  Every other
    answer is a failure that leaves the gallery as it was. *)
Theorem uploadImageToGallery_stores_exactly_on_success (L : Mongoose.lib)
  (rejection : Js.error) (e : Env) (w : World) (file : option Multer.File)
  (body : object) (ctx : Auth.AdminContext) :
  let r := GalleryHandlers.uploadImageToGallery L rejection e w file body ctx in
  (success r.2 = true
   /\ status r.2 = 201
   /\ exists g,
        data r.2 = Some g
        /\ gallery r.1 = <[newObjectId e := g]> (gallery w)
        /\ Gallery._id g = newObjectId e
        /\ Gallery.publicId (Gallery.image_ g)
           = Some ("hitech-institute/gallery/" +:+ random e)
        /\ ("hitech-institute/gallery/" +:+ random e) ∈ cloud r.1
        /\ Gallery.uploadedBy g = Auth.ctx_adminId ctx
        /\ Gallery.category g ∈ GalleryModel.categories
        /\ Gallery.title g <> "")
  \/ (success r.2 = false /\ data r.2 = None /\ gallery r.1 = gallery w).
Proof.
  exact (MoreGalleryFacts.uploadImageToGallery_cases L rejection e w file body
           ctx).
Qed.

(** X13.  POST /api/gallery uploads the image before it creates the
    record and has no clean-up: when the upload succeeded and the request
    is then refused (a category outside the list, a title that cannot be
    cast, an unreachable database), the image stays in the bucket and no
    record names it. *)
Theorem uploadImageToGallery_keeps_image_of_refused_record (L : Mongoose.lib)
  (rejection : Js.error) (e : Env) (w : World) (f : Multer.File)
  (body : object) (ctx : Auth.AdminContext) (res : UploadApiResponse) :
  truthy (get "title" body) = true ->
  truthy (get "category" body) = true ->
  (truthy (get "date" body) = true ->
   Mongoose.newDate L (get "date" body) <> None) ->
  upload e = Some res ->
  let r :=
    GalleryHandlers.uploadImageToGallery L rejection e w (Some f) body ctx in
  success r.2 = false ->
  ("hitech-institute/gallery/" +:+ random e) ∈ cloud r.1
  /\ gallery r.1 = gallery w.
Proof.
  intros Htitle Hcat Hdate Hupload. cbv zeta.
  unfold GalleryHandlers.uploadImageToGallery.
  rewrite Htitle, Hcat. cbn [negb orb].
  destruct (if truthy (get "date" body) then _ else _) as [parsedDate|] eqn:Hd.
  2:{ destruct (truthy (get "date" body)); [|discriminate].
      by destruct (Hdate eq_refl). }
  unfold GalleryHandlers.cloudinaryUtils_upload. rewrite Hupload.
  assert (Hfail : forall err,
    ("hitech-institute/gallery/" +:+ random e)
      ∈ cloud (@ErrorHandler.errorHandler Gallery.t e
                 (with_cloud
                    (fun c => c ∪ {["hitech-institute/gallery/" +:+ random e]})
                    w) err).1
    /\ gallery (@ErrorHandler.errorHandler Gallery.t e
                  (with_cloud
                     (fun c => c ∪ {["hitech-institute/gallery/" +:+ random e]})
                     w) err).1
       = gallery w).
  { intros err.
    match goal with
    | |- context [ErrorHandler.errorHandler e ?w1 err] =>
        destruct (MoreGalleryFacts.errorHandler_frame (D:=Gallery.t) e w1 err)
          as (_ & _ & -> & -> & _)
    end.
    cbn. split; [|reflexivity].
    apply elem_of_union; right; by apply elem_of_singleton. }
  destruct (Mongoose.castString L (get "title" body)) as [title|];
    [|intros _; apply Hfail].
  destruct (GalleryHandlers.castOptional L (get "description" body))
    as [description|]; [|intros _; apply Hfail].
  destruct (Mongoose.castString L (get "category" body)) as [category|];
    [|intros _; apply Hfail].
  destruct (Mongoose.castObjectId (Auth.ctx_adminId ctx));
    [|intros _; apply Hfail].
  match goal with
  | |- context [GalleryHandlers.create e ?w1 ?doc] =>
      destruct (GalleryHandlers.create e w1 doc) as [w2|err]
  end; [discriminate|].
  intros _. apply Hfail.
Qed.

Lemma uploadImageToGallery_keeps_image_of_refused_record_witness :
  let body := [("title", VStr "Picnic"); ("category", VStr "Picnic")] in
  let r :=
    GalleryHandlers.uploadImageToGallery Sample.mongoose Sample.timeout
      Sample.env Sample.world (Some Sample.pdf) body Sample.context in
  ("hitech-institute/gallery/" +:+ random Sample.env) ∈ cloud r.1
  /\ gallery r.1 = gallery Sample.world.
Proof.
  intros body.
  apply (uploadImageToGallery_keeps_image_of_refused_record Sample.mongoose
           Sample.timeout Sample.env Sample.world Sample.pdf body
           Sample.context Sample.uploaded);
    [reflexivity|reflexivity|discriminate|reflexivity|reflexivity].
Defined.

(** X14.  An image uploaded with POST /api/gallery is removed again by
    DELETE /api/gallery/:id on the new id when Cloudinary performs the
    deletion: the answer is 200, the record is gone and so is the object
    in the bucket. *)
Theorem uploaded_image_can_be_deleted (L : Mongoose.lib) (rejection : Js.error)
  (e e' : Env) (w : World) (file : option Multer.File) (body : object)
  (ctx : Auth.AdminContext) :
  let r := GalleryHandlers.uploadImageToGallery L rejection e w file body ctx in
  success r.2 = true ->
  Joi.objectIdPattern (newObjectId e) = true ->
  dbUp e' = true ->
  destroy e' = DestroyOk ->
  let d := GalleryController.deleteGalleryImage e' r.1 (newObjectId e) in
  status d.2 = 200
  /\ gallery d.1 !! newObjectId e = None
  /\ ("hitech-institute/gallery/" +:+ random e) ∉ cloud d.1.
Proof.
  cbv zeta. intros Hs Hid Hdb Hdestroy.
  destruct (MoreGalleryFacts.uploadImageToGallery_cases L rejection e w file
              body ctx)
    as [(_ & _ & g & _ & Hg & Hgid & Hpid & _)|(Hf & _)]; [|congruence].
  unfold GalleryController.deleteGalleryImage,
    Cloudinary.cloudinaryUtils_delete.
  rewrite MoreNoticeFacts.findById_found, Hg, lookup_insert_eq, Hpid, Hdestroy,
    Hdb, Hgid by assumption.
  cbn. split; [reflexivity|]. split; [apply lookup_delete_eq|].
  rewrite elem_of_difference, elem_of_singleton. tauto.
Qed.

Lemma uploaded_image_can_be_deleted_witness :
  let body := [("title", VStr "Picnic"); ("category", VStr "Campus Tour")] in
  let r :=
    GalleryHandlers.uploadImageToGallery Sample.mongoose Sample.timeout
      Sample.env Sample.world (Some Sample.pdf) body Sample.context in
  let d :=
    GalleryController.deleteGalleryImage Sample.env r.1
      (newObjectId Sample.env) in
  status d.2 = 200
  /\ gallery d.1 !! newObjectId Sample.env = None
  /\ ("hitech-institute/gallery/" +:+ random Sample.env) ∉ cloud d.1.
Proof.
  intros body.
  apply (uploaded_image_can_be_deleted Sample.mongoose Sample.timeout
           Sample.env Sample.env Sample.world (Some Sample.pdf) body
           Sample.context); reflexivity.
Defined.

(** X15.  GET /api/gallery returns every stored image, each once, newest
    date first, and changes nothing. *)
Theorem getAllGalleryImages_lists_everything_newest_first (e : Env) (w : World)
  (images : list Gallery.t) :
  data (GalleryHandlers.getAllGalleryImages e w).2 = Some images ->
  (GalleryHandlers.getAllGalleryImages e w).1 = w
  /\ status (GalleryHandlers.getAllGalleryImages e w).2 = 200
  /\ images ≡ₚ map snd (map_to_list (gallery w))
  /\ Sorted (fun a b => Gallery.date b <= Gallery.date a) images.
Proof.
  unfold GalleryHandlers.getAllGalleryImages.
  destruct (dbUp e).
  - cbn. intros [= <-]. split; [reflexivity|]. split; [reflexivity|].
    split; [apply MoreGalleryFacts.sortByDate_perm|].
    apply MoreGalleryFacts.sortByDate_sorted.
  - intros Hd.
    destruct (MoreGalleryFacts.errorHandler_frame (D:=list Gallery.t) e w
                mongoDown) as (_ & _ & _ & _ & _ & _ & Hnone).
    congruence.
Qed.

Lemma getAllGalleryImages_lists_everything_newest_first_witness :
  (GalleryHandlers.getAllGalleryImages Sample.env Sample.world).1
  = Sample.world
  /\ status (GalleryHandlers.getAllGalleryImages Sample.env Sample.world).2
     = 200
  /\ [Sample.picture] ≡ₚ map snd (map_to_list (gallery Sample.world))
  /\ Sorted (fun a b => Gallery.date b <= Gallery.date a) [Sample.picture].
Proof.
  apply (getAllGalleryImages_lists_everything_newest_first Sample.env
           Sample.world [Sample.picture]).
  vm_compute. reflexivity.
Defined.

Module SignInFacts.
Import Js Http.

Lemma signIn_success L A secret e w hashes body :
  success (AuthController.signIn L A secret e w hashes body).2 = true ->
  exists admin hash,
    Joi.details (Joi.validateSignIn L body) = []
    /\ dbUp e = true
    /\ AuthController.findOne A w (AuthController.email_of L body) = Some admin
    /\ hashes !! Admin._id admin = Some hash
    /\ AuthController.compare A (AuthController.password_of L body) hash = true
    /\ AdminModel.validate (AuthController.touched admin (now e)) hash = []
    /\ AuthController.signIn L A secret e w hashes body
       = (mkWorld (<[Admin._id admin := AuthController.touched admin (now e)]> (admins w))
            (notices w) (gallery w) (cloud w) (disk w) (console w),
          ok 200 "Authentication successful"
            (AuthController.mkSignedIn
               (AuthController.sign (now e)
                  (Auth.mkPayload (Admin._id admin) (Admin.email admin)
                     (Admin.role admin)) secret)
               (AuthController.mkInfo (Admin._id admin) (Admin.name admin)
                  (Admin.email admin) (Admin.role admin) (Some (now e))))).
Proof.
  unfold AuthController.signIn, AuthController.signInFailed.
  destruct (Joi.details (Joi.validateSignIn L body)) eqn:Hd; [|discriminate].
  destruct (dbUp e) eqn:Hdb; cbn [negb]; [|discriminate].
  destruct (AuthController.findOne A w _) as [admin|] eqn:Hfind;
    [|discriminate].
  destruct (hashes !! Admin._id admin) as [hash|] eqn:Hhash; [|discriminate].
  destruct (AuthController.compare A _ hash) eqn:Hcmp; cbn [negb];
    [|discriminate].
  destruct (AdminModel.validate _ hash) eqn:Hv; [|discriminate].
  intros _. exists admin, hash. repeat split; assumption.
Qed.

Lemma signIn_failure L A secret e w hashes body :
  success (AuthController.signIn L A secret e w hashes body).2 = false ->
  data (AuthController.signIn L A secret e w hashes body).2 = None
  /\ ((AuthController.signIn L A secret e w hashes body).1 = w
      \/ (AuthController.signIn L A secret e w hashes body).1
         = log "Sign in error:" w).
Proof.
  unfold AuthController.signIn, AuthController.signInFailed.
  destruct (Joi.details (Joi.validateSignIn L body)); [|cbn; auto].
  destruct (dbUp e); cbn [negb]; [|cbn; auto].
  destruct (AuthController.findOne A w _) as [admin|]; [|cbn; auto].
  destruct (hashes !! Admin._id admin) as [hash|]; [|cbn; auto].
  destruct (AuthController.compare A _ hash); cbn [negb]; [|cbn; auto].
  destruct (AdminModel.validate _ hash); [discriminate|cbn; auto].
Qed.

Lemma gate_passes secret e w t admin :
  Auth.signedWith t = secret ->
  now e / 1000 < Auth.exp t ->
  dbUp e = true ->
  Joi.objectIdPattern (Auth.adminId (Auth.payload t)) = true ->
  admins w !! Auth.adminId (Auth.payload t) = Some admin ->
  Admin.isActive admin = true ->
  Auth.authenticateAdmin secret e w (Some (Auth.WellFormed t))
  = (w, Auth.Next (Auth.mkContext (Admin._id admin) (Admin.email admin)
                     (Admin.name admin) (Admin.role admin))).
Proof.
  intros Hs Hexp Hdb Hid Ha Hact. unfold Auth.authenticateAdmin.
  cbn [Auth.is_empty_token].
  rewrite AuthFacts.verify_live by assumption.
  rewrite MoreNoticeFacts.findById_found, Ha, Hact by assumption.
  reflexivity.
Qed.

Lemma gate_next secret e w cookie w' ctx :
  Auth.authenticateAdmin secret e w cookie = (w', Auth.Next ctx) ->
  w' = w
  /\ exists t admin,
       cookie = Some (Auth.WellFormed t)
       /\ Auth.signedWith t = secret
       /\ now e / 1000 < Auth.exp t
       /\ Joi.objectIdPattern (Auth.adminId (Auth.payload t)) = true
       /\ dbUp e = true
       /\ admins w !! Auth.adminId (Auth.payload t) = Some admin
       /\ Admin.isActive admin = true
       /\ ctx = Auth.mkContext (Admin._id admin) (Admin.email admin)
                  (Admin.name admin) (Admin.role admin).
Proof.
  unfold Auth.authenticateAdmin.
  destruct cookie as [tok|]; [|discriminate].
  destruct (Auth.is_empty_token tok); [discriminate|].
  destruct tok as [s|t]; cbn [Auth.verify].
  { cbn. discriminate. }
  destruct (String.eqb_spec (Auth.signedWith t) secret) as [Hs|];
    cbn [negb]; [|cbn; discriminate].
  destruct (Z.leb_spec (Auth.exp t) (now e / 1000)); [cbn; discriminate|].
  destruct (Mongoose.findById e (admins w) (Auth.adminId (Auth.payload t)))
    as [[admin|]|err] eqn:Hfind.
  - apply MoreNoticeFacts.findById_returns in Hfind as (Hid & Hdb & Ha).
    destruct (Admin.isActive admin) eqn:Hact; cbn [negb]; [|discriminate].
    intros [= <- <-]. split; [reflexivity|]. exists t, admin. auto 10.
  - discriminate.
  - destruct (instanceof (cls err) JsonWebTokenError); [discriminate|].
    destruct (instanceof (cls err) TokenExpiredError); discriminate.
Qed.

Lemma gate_reply secret e w cookie w' r :
  Auth.authenticateAdmin secret e w cookie = (w', Auth.Reply r) ->
  success r = false
  /\ data r = None
  /\ (status r = 401 \/ status r = 500)
  /\ (w' = w \/ w' = log "Authentication error:" w).
Proof.
  unfold Auth.authenticateAdmin.
  destruct cookie as [tok|]; [|intros [= <- <-]; cbn; auto].
  destruct (Auth.is_empty_token tok); [intros [= <- <-]; cbn; auto|].
  destruct (match Auth.verify (now e) tok secret with
            | Throws error => _ | Returns decoded => _ end)
    as [[admin|]|err].
  - destruct (Admin.isActive admin); cbn [negb]; [discriminate|].
    intros [= <- <-]; cbn; auto.
  - intros [= <- <-]; cbn; auto.
  - destruct (instanceof (cls err) JsonWebTokenError);
      [intros [= <- <-]; cbn; auto|].
    destruct (instanceof (cls err) TokenExpiredError);
      intros [= <- <-]; cbn; auto.
Qed.

End SignInFacts.

(** X16.  The gate lets a request through only for a token that is
    well-formed, signed with the configured secret and not expired, whose
    admin exists and is active at this moment; the context attached to the
    request is read from the admin's record, not from the token; the store
    is not changed. *)
Theorem authenticateAdmin_passes_only_active_admins (secret : string) (e : Env)
  (w w' : World) (cookie : option Auth.token) (ctx : Auth.AdminContext) :
  Auth.authenticateAdmin secret e w cookie = (w', Auth.Next ctx) ->
  w' = w
  /\ exists t admin,
       cookie = Some (Auth.WellFormed t)
       /\ Auth.signedWith t = secret
       /\ now e / 1000 < Auth.exp t
       /\ Joi.objectIdPattern (Auth.adminId (Auth.payload t)) = true
       /\ dbUp e = true
       /\ admins w !! Auth.adminId (Auth.payload t) = Some admin
       /\ Admin.isActive admin = true
       /\ ctx = Auth.mkContext (Admin._id admin) (Admin.email admin)
                  (Admin.name admin) (Admin.role admin).
Proof. exact (SignInFacts.gate_next secret e w cookie w' ctx). Qed.

Lemma authenticateAdmin_passes_only_active_admins_witness :
  exists t admin,
    Some Sample.liveToken = Some (Auth.WellFormed t)
    /\ Auth.signedWith t = Sample.secret
    /\ now Sample.env / 1000 < Auth.exp t
    /\ Joi.objectIdPattern (Auth.adminId (Auth.payload t)) = true
    /\ dbUp Sample.env = true
    /\ admins Sample.world !! Auth.adminId (Auth.payload t) = Some admin
    /\ Admin.isActive admin = true
    /\ Sample.context
       = Auth.mkContext (Admin._id admin) (Admin.email admin)
           (Admin.name admin) (Admin.role admin).
Proof.
  apply (authenticateAdmin_passes_only_active_admins Sample.secret Sample.env
           Sample.world Sample.world (Some Sample.liveToken) Sample.context).
  reflexivity.
Defined.

(** X17.  POST /api/auth/signin gives the same answer, 401 "Invalid
    credentials", and leaves the same store, whether the email is unknown
    or the password is wrong: the answer does not tell which addresses
    have an account. *)
Theorem signIn_does_not_reveal_accounts (L : Joi.lib) (A : AuthController.lib)
  (secret : string) (e : Env) (w : World) (hashes : gmap string string)
  (unknown wrong : object) (admin : Admin.t) (hash : string) :
  Joi.details (Joi.validateSignIn L unknown) = [] ->
  Joi.details (Joi.validateSignIn L wrong) = [] ->
  dbUp e = true ->
  AuthController.findOne A w (AuthController.email_of L unknown) = None ->
  AuthController.findOne A w (AuthController.email_of L wrong) = Some admin ->
  hashes !! Admin._id admin = Some hash ->
  AuthController.compare A (AuthController.password_of L wrong) hash = false ->
  AuthController.signIn L A secret e w hashes unknown
  = AuthController.signIn L A secret e w hashes wrong
  /\ AuthController.signIn L A secret e w hashes wrong
     = (w, fail 401 "Invalid credentials").
Proof.
  intros Hu Hw Hdb Hnone Hsome Hhash Hcmp.
  unfold AuthController.signIn.
  rewrite Hu, Hw, Hdb, Hnone, Hsome, Hhash, Hcmp. cbn. auto.
Qed.

Lemma signIn_does_not_reveal_accounts_witness :
  AuthController.signIn Sample.joi Fixtures.bcrypt Sample.secret Sample.env
    Sample.world Fixtures.hashes
    (Fixtures.credentials "nobody@hitech.example" "correct horse")
  = AuthController.signIn Sample.joi Fixtures.bcrypt Sample.secret Sample.env
      Sample.world Fixtures.hashes
      (Fixtures.credentials "principal@hitech.example" "wrong password")
  /\ AuthController.signIn Sample.joi Fixtures.bcrypt Sample.secret Sample.env
       Sample.world Fixtures.hashes
       (Fixtures.credentials "principal@hitech.example" "wrong password")
     = (Sample.world, fail 401 "Invalid credentials").
Proof.
  apply (signIn_does_not_reveal_accounts Sample.joi Fixtures.bcrypt
           Sample.secret Sample.env Sample.world Fixtures.hashes
           (Fixtures.credentials "nobody@hitech.example" "correct horse")
           (Fixtures.credentials "principal@hitech.example" "wrong password")
           Sample.root "$2a$12$correct horse"); vm_compute; reflexivity.
Defined.

(** X18.  POST /api/auth/signin changes nothing but the record of the
    admin who signed in, and of that record only [lastLogin] and the
    [updatedAt] stamp of the save.  A successful answer is 200 and means
    that the address was found and the password matched its hash; the
    admin's record is stored again with [lastLogin] and [updatedAt] set to
    the clock and every other field, [createdAt] included, as it was.  A
    failed answer carries no token and leaves every record as it was. *)
Theorem signIn_only_stamps_the_admin (L : Joi.lib) (A : AuthController.lib)
  (secret : string) (e : Env) (w : World) (hashes : gmap string string)
  (body : object) :
  let r := AuthController.signIn L A secret e w hashes body in
  notices r.1 = notices w /\ gallery r.1 = gallery w
  /\ cloud r.1 = cloud w /\ disk r.1 = disk w
  /\ (success r.2 = false -> data r.2 = None /\ admins r.1 = admins w)
  /\ (success r.2 = true ->
      status r.2 = 200
      /\ exists admin hash,
           AuthController.findOne A w (AuthController.email_of L body)
           = Some admin
           /\ hashes !! Admin._id admin = Some hash
           /\ AuthController.compare A (AuthController.password_of L body) hash
              = true
           /\ admins r.1
              = <[Admin._id admin :=
                    Admin.mk (Admin._id admin) (Admin.name admin)
                      (Admin.email admin) (Admin.role admin)
                      (Admin.isActive admin) (Some (now e))
                      (Admin.createdAt admin) (now e)]> (admins w)).
Proof.
  cbv zeta.
  destruct (success (AuthController.signIn L A secret e w hashes body).2)
    eqn:Hs.
  - apply SignInFacts.signIn_success in Hs
      as (admin & hash & _ & _ & Hfind & Hhash & Hcmp & _ & ->).
    cbn. repeat (split; [reflexivity|]). split; [discriminate|].
    intros _. split; [reflexivity|]. exists admin, hash. auto.
  - apply SignInFacts.signIn_failure in Hs as (Hd & [-> | ->]);
      cbn; repeat (split; [reflexivity|]); (split; [auto|discriminate]).
Qed.

(** X19.  The token POST /api/auth/signin hands out is good for 24 hours
    and no longer.  Presented in the [token] cookie while the database is
    reachable and the account is active, it opens the gate at any moment
    less than 86400 seconds after the sign-in, with the context of the
    admin who signed in, and GET /api/auth/verify answers 200 with that
    context; from the 86400th second on the gate answers 401 "Access
    denied. Invalid token.". *)
Theorem signIn_token_valid_for_a_day (L : Joi.lib) (A : AuthController.lib)
  (S : Routes.settings) (e e' : Env) (w : World)
  (hashes : gmap string string) (body : object)
  (signedIn : AuthController.SignedIn) (req : Routes.Incoming) :
  let r := AuthController.signIn L A (Routes.JWT_SECRET S) e w hashes body in
  data r.2 = Some signedIn ->
  Routes.cookie req = Some (AuthController.token signedIn) ->
  Joi.objectIdPattern (AuthController.id (AuthController.admin signedIn))
  = true ->
  dbUp e' = true ->
  (forall a,
     admins r.1 !! AuthController.id (AuthController.admin signedIn) = Some a ->
     Admin.isActive a = true) ->
  (now e' / 1000 < now e / 1000 + 86400 ->
   exists ctx,
     Auth.authenticateAdmin (Routes.JWT_SECRET S) e' r.1 (Routes.cookie req)
     = (r.1, Auth.Next ctx)
     /\ Routes.getVerify S e' r.1 req = (r.1, ok 200 "Token is valid" ctx)
     /\ Auth.ctx_adminId ctx
        = AuthController.id (AuthController.admin signedIn)
     /\ Auth.ctx_email ctx
        = AuthController.email (AuthController.admin signedIn)
     /\ Auth.ctx_role ctx
        = AuthController.role (AuthController.admin signedIn))
  /\ (now e / 1000 + 86400 <= now e' / 1000 ->
      Routes.getVerify S e' r.1 req
      = (log "Authentication error:" r.1,
         Routes.sent (fail 401 "Access denied. Invalid token."))).
Proof.
  cbv zeta. intros Hdata Hcookie Hid Hdb Hactive.
  destruct (success (AuthController.signIn L A (Routes.JWT_SECRET S) e w
                       hashes body).2) eqn:Hs.
  2:{ apply SignInFacts.signIn_failure in Hs as (Hd & _). congruence. }
  apply SignInFacts.signIn_success in Hs
    as (admin & hash & _ & _ & _ & _ & _ & _ & Heq).
  rewrite Heq in *. cbn in Hdata. injection Hdata as <-.
  cbn [AuthController.admin AuthController.id AuthController.token
       AuthController.email AuthController.role fst snd] in *.
  unfold Routes.getVerify, Routes.behindGate. rewrite Hcookie.
  unfold AuthController.sign. split.
  - intros Hlive. eexists.
    rewrite SignInFacts.gate_passes with
      (admin := AuthController.touched admin (now e)).
    + split; [reflexivity|]. split; [reflexivity|]. cbn. auto.
    + reflexivity.
    + cbn. lia.
    + assumption.
    + assumption.
    + cbn [Auth.payload Auth.adminId admins]. apply lookup_insert_eq.
    + apply Hactive. cbn [admins]. apply lookup_insert_eq.
  - intros Hlate.
    rewrite AuthFacts.expired_token_reply; [reflexivity|reflexivity|cbn; lia].
Qed.

Lemma signIn_token_valid_for_a_day_witness :
  let r :=
    AuthController.signIn Sample.joi Fixtures.bcrypt Sample.secret Sample.env
      Sample.world Fixtures.hashes
      (Fixtures.credentials "principal@hitech.example" "correct horse") in
  let req :=
    Fixtures.incoming
      (Some (AuthController.sign Sample.clock Sample.payload Sample.secret))
      [] [] in
  Routes.getVerify Fixtures.settings Fixtures.nextDay r.1 req
  = (log "Authentication error:" r.1,
     Routes.sent (fail 401 "Access denied. Invalid token.")).
Proof.
  intros r req.
  destruct (signIn_token_valid_for_a_day Sample.joi Fixtures.bcrypt
              Fixtures.settings Sample.env Fixtures.nextDay Sample.world
              Fixtures.hashes
              (Fixtures.credentials "principal@hitech.example" "correct horse")
              (AuthController.mkSignedIn
                 (AuthController.sign Sample.clock Sample.payload Sample.secret)
                 (AuthController.mkInfo Sample.adminId "Principal"
                    "principal@hitech.example" "admin" (Some Sample.clock)))
              req)
    as (_ & Hlate).
  - vm_compute. reflexivity.
  - reflexivity.
  - vm_compute. reflexivity.
  - reflexivity.
  - intros a. vm_compute. intros [= <-]. reflexivity.
  - apply Hlate. vm_compute. discriminate.
Defined.

(** X20.  POST /api/auth/signin does not look at [isActive]: a
    deactivated admin who sends the right password is answered 200 with a
    token.  The gate refuses that token, with 401 "Access denied. Admin
    account is deactivated.", as long as the account stays deactivated. *)
Theorem signIn_accepts_deactivated_admin (L : Joi.lib)
  (A : AuthController.lib) (secret : string) (e e' : Env) (w : World)
  (hashes : gmap string string) (body : object) (admin : Admin.t)
  (hash : string) :
  Joi.details (Joi.validateSignIn L body) = [] ->
  dbUp e = true ->
  AuthController.findOne A w (AuthController.email_of L body) = Some admin ->
  Admin.isActive admin = false ->
  hashes !! Admin._id admin = Some hash ->
  AuthController.compare A (AuthController.password_of L body) hash = true ->
  AdminModel.validate (AuthController.touched admin (now e)) hash = [] ->
  Joi.objectIdPattern (Admin._id admin) = true ->
  dbUp e' = true ->
  now e' / 1000 < now e / 1000 + 86400 ->
  let r := AuthController.signIn L A secret e w hashes body in
  status r.2 = 200
  /\ exists signedIn,
       data r.2 = Some signedIn
       /\ Auth.authenticateAdmin secret e' r.1
            (Some (AuthController.token signedIn))
          = (r.1,
             Auth.Reply
               (fail 401 "Access denied. Admin account is deactivated.")).
Proof.
  intros Hvalid Hdb Hfind Hoff Hhash Hcmp Hv Hid Hdb' Hlive. cbv zeta.
  unfold AuthController.signIn.
  rewrite Hvalid, Hdb, Hfind, Hhash, Hcmp, Hv.
  cbn [negb fst snd status ok data]. split; [reflexivity|].
  eexists. split; [reflexivity|].
  cbn [AuthController.token AuthController.sign].
  apply AuthFacts.inactive_admin_reply with
    (admin := AuthController.touched admin (now e)).
  - reflexivity.
  - cbn. lia.
  - assumption.
  - assumption.
  - cbn [Auth.payload Auth.adminId admins]. apply lookup_insert_eq.
  - assumption.
Qed.

Lemma signIn_accepts_deactivated_admin_witness :
  let r :=
    AuthController.signIn Sample.joi Fixtures.bcrypt Sample.secret Sample.env
      Sample.deactivated Fixtures.hashes
      (Fixtures.credentials "principal@hitech.example" "correct horse") in
  status r.2 = 200
  /\ exists signedIn,
       data r.2 = Some signedIn
       /\ Auth.authenticateAdmin Sample.secret Sample.env r.1
            (Some (AuthController.token signedIn))
          = (r.1,
             Auth.Reply
               (fail 401 "Access denied. Admin account is deactivated.")).
Proof.
  apply (signIn_accepts_deactivated_admin Sample.joi Fixtures.bcrypt
           Sample.secret Sample.env Sample.env Sample.deactivated
           Fixtures.hashes
           (Fixtures.credentials "principal@hitech.example" "correct horse")
           (Admin.mk Sample.adminId "Principal" "principal@hitech.example"
              "admin" false None Sample.clock Sample.clock)
           "$2a$12$correct horse"); vm_compute; reflexivity.
Defined.


Module UploadFacts.
Import Js Http.

Lemma uploadSingle_second T M store parts f :
  Upload.uploadSingle T M store parts (Some f)
  = match parts with
    | [] => inr (Some f)
    | _ :: _ => inl (Upload.MulterError "LIMIT_FILE_COUNT" "Too many files")
    end.
Proof. destruct parts; reflexivity. Qed.

Lemma uploadSingle_accepts T M store parts o :
  Upload.uploadSingle T M store parts None = inr o ->
  (parts = [] /\ o = None)
  \/ exists p,
       parts = [p] /\ o = Some (store p)
       /\ Upload.fieldname p = "attachment"
       /\ Upload.mimetype p ∈ T
       /\ Upload.size p <= M.
Proof.
  destruct parts as [|p rest]; cbn [Upload.uploadSingle].
  { intros [= <-]. auto. }
  destruct (String.eqb_spec (Upload.fieldname p) "attachment") as [Hf|];
    cbn [negb]; [|discriminate].
  unfold Upload.fileFilter.
  destruct (existsb (String.eqb (Upload.mimetype p)) T) eqn:Hex;
    [|discriminate].
  destruct (Z.leb_spec M (Upload.size p)); [discriminate|].
  rewrite uploadSingle_second. destruct rest; [|discriminate].
  intros [= <-]. right. exists p. repeat split; try assumption; try lia.
  apply existsb_exists in Hex as (c & Hin & Heq).
  apply String.eqb_eq in Heq. rewrite Heq. by apply list_elem_of_In.
Qed.

Lemma handleMulterError_cases M error :
  (exists r, Upload.handleMulterError M error = Upload.Answer r
             /\ status r = 400 /\ success r = false)
  \/ (exists err, error = Upload.Passed err
                  /\ Upload.handleMulterError M error = Upload.NextError err).
Proof.
  destruct error as [code message|err]; [left|right; eauto].
  unfold Upload.handleMulterError.
  repeat match goal with
         | |- context [if ?b then _ else _] => destruct b
         end; eexists; split; try reflexivity; auto.
Qed.

Lemma uploadSingle_error T M store parts o error :
  Upload.uploadSingle T M store parts o = inl (Upload.Passed error) ->
  exists mimetype, Upload.fileFilter T mimetype = Some error.
Proof.
  revert o. induction parts as [|p rest IH]; intros o; cbn [Upload.uploadSingle].
  { discriminate. }
  destruct o; [discriminate|].
  destruct (negb _); [discriminate|].
  destruct (Upload.fileFilter T (Upload.mimetype p)) eqn:Hf.
  { intros [= <-]. eauto. }
  destruct (M <=? Upload.size p); [discriminate|]. apply IH.
Qed.

Lemma fileFilter_error_is_400 {D} T mimetype error e w :
  Upload.fileFilter T mimetype = Some error ->
  status (@ErrorHandler.errorHandler D e w error).2 = 400
  /\ success (@ErrorHandler.errorHandler D e w error).2 = false.
Proof.
  unfold Upload.fileFilter. destruct (existsb _ _); [discriminate|].
  intros [= <-]. split; reflexivity.
Qed.

(** What an upload middleware leaves when it does not call [next()]. *)
Lemma refused_upload {D} T M store parts e w
  (handler : option Multer.File -> World * response D) s :
  s = Upload.optionalUpload T M store parts
  \/ s = Upload.requiredUpload T M store parts ->
  (exists o, s = Upload.Next o)
  \/ (status (Routes.afterUpload e w s handler).2 = 400
      /\ success (Routes.afterUpload e w s handler).2 = false
      /\ notices (Routes.afterUpload e w s handler).1 = notices w
      /\ gallery (Routes.afterUpload e w s handler).1 = gallery w
      /\ cloud (Routes.afterUpload e w s handler).1 = cloud w
      /\ disk (Routes.afterUpload e w s handler).1 = disk w).
Proof.
  assert (Herr : forall error,
    Upload.uploadSingle T M store parts None = inl error ->
    let s := Upload.handleMulterError M error in
    status (Routes.afterUpload e w s handler).2 = 400
    /\ success (Routes.afterUpload e w s handler).2 = false
    /\ notices (Routes.afterUpload e w s handler).1 = notices w
    /\ gallery (Routes.afterUpload e w s handler).1 = gallery w
    /\ cloud (Routes.afterUpload e w s handler).1 = cloud w
    /\ disk (Routes.afterUpload e w s handler).1 = disk w).
  { intros error Hup. cbv zeta.
    destruct (handleMulterError_cases M error)
      as [(r & -> & Hst & Hs)|(err & -> & ->)].
    - cbn. auto 10.
    - apply uploadSingle_error in Hup as (mimetype & Hf).
      cbn [Routes.afterUpload].
      destruct (fileFilter_error_is_400 (D:=D) T mimetype err e w Hf)
        as (Hst & Hs).
      destruct (MoreGalleryFacts.errorHandler_frame (D:=D) e w err)
        as (_ & Hn & Hg & Hc & Hd & _).
      auto 10. }
  unfold Upload.optionalUpload, Upload.requiredUpload.
  destruct (Upload.uploadSingle T M store parts None) as [error|o] eqn:Hup.
  - intros [-> | ->]; right; by apply Herr.
  - intros [-> | ->]; [left; eauto|].
    destruct o; [left; eauto|right]. cbn. auto 10.
Qed.

End UploadFacts.

(** X21.  The upload middleware lets a request through with a file only
    when the request carries exactly one file part, under the field name
    "attachment", of an allowed type and no larger than the maximum;
    [req.file] is then that part as the storage engine stored it.  Without
    any file part the optional variant goes on without a file and the
    required one answers 400 "File required". *)
Theorem upload_passes_one_allowed_file (ALLOWED_FILE_TYPES : list string)
  (MAX_FILE_SIZE : Z) (store : Upload.part -> Multer.File)
  (parts : list Upload.part) (file : option Multer.File) :
  Upload.optionalUpload ALLOWED_FILE_TYPES MAX_FILE_SIZE store parts
  = Upload.Next file
  \/ Upload.requiredUpload ALLOWED_FILE_TYPES MAX_FILE_SIZE store parts
     = Upload.Next file ->
  match file with
  | Some f =>
      exists p,
        parts = [p] /\ f = store p
        /\ Upload.fieldname p = "attachment"
        /\ Upload.mimetype p ∈ ALLOWED_FILE_TYPES
        /\ Upload.size p <= MAX_FILE_SIZE
  | None =>
      parts = []
      /\ Upload.requiredUpload ALLOWED_FILE_TYPES MAX_FILE_SIZE store parts
         = Upload.Answer (fail_with 400 "File required" ["Please upload a file"])
  end.
Proof.
  unfold Upload.optionalUpload, Upload.requiredUpload.
  destruct (Upload.uploadSingle ALLOWED_FILE_TYPES MAX_FILE_SIZE store parts
              None) as [error|o] eqn:Hup.
  { destruct (UploadFacts.handleMulterError_cases MAX_FILE_SIZE error)
      as [(r & -> & _)|(err & _ & ->)]; intros [|]; discriminate. }
  apply UploadFacts.uploadSingle_accepts in Hup
    as [[-> ->]|(p & -> & -> & Hrest)].
  - intros [[= <-]|]; [|discriminate]. auto.
  - intros [[= <-]|[= <-]]; exists p; auto.
Qed.

Lemma upload_passes_one_allowed_file_witness :
  exists p,
    [Fixtures.pdfPart] = [p]
    /\ Upload.memoryStorage Fixtures.pdfPart = Upload.memoryStorage p
    /\ Upload.fieldname p = "attachment"
    /\ Upload.mimetype p ∈ Environment.defaultFileTypes
    /\ Upload.size p <= 5242880.
Proof.
  apply (upload_passes_one_allowed_file Environment.defaultFileTypes 5242880
           Upload.memoryStorage [Fixtures.pdfPart]
           (Some (Upload.memoryStorage Fixtures.pdfPart))).
  left. reflexivity.
Defined.

(** X22.  Every route that writes stands behind the gate: when
    [authenticateAdmin] refuses the request, the answer is the gate's, a
    failure with status 401 or 500, and neither the upload middleware nor
    the handler has run, so that no admin, notice, image, bucket object or
    file has changed. *)
Theorem write_routes_stop_at_the_gate (J : Joi.lib) (M : Mongoose.lib)
  (rejection : Js.error) (S : Routes.settings)
  (basename : string -> string -> string) (randomNumber : Z) (e : Env)
  (w w' : World) (req : Routes.Incoming) (r : response unit) :
  Auth.authenticateAdmin (Routes.JWT_SECRET S) e w (Routes.cookie req)
  = (w', Auth.Reply r) ->
  Routes.postNotice J S e w req = (w', Routes.sent r)
  /\ Routes.putNotice J S e w req = (w', Routes.sent r)
  /\ Routes.deleteNotice S e w req = (w', Routes.sent r)
  /\ Routes.postNoticeLocal J S basename randomNumber e w req
     = (w', Returns (Routes.sent r))
  /\ Routes.postGallery M rejection S e w req = (w', Routes.sent r)
  /\ Routes.putGallery M S e w req = (w', Routes.sent r)
  /\ Routes.deleteGallery S e w req = (w', Routes.sent r)
  /\ success r = false
  /\ (status r = 401 \/ status r = 500)
  /\ admins w' = admins w /\ notices w' = notices w
  /\ gallery w' = gallery w /\ cloud w' = cloud w /\ disk w' = disk w.
Proof.
  intros Hgate.
  unfold Routes.postNotice, Routes.putNotice, Routes.deleteNotice,
    Routes.postNoticeLocal, Routes.postGallery, Routes.putGallery,
    Routes.deleteGallery, Routes.behindGate.
  rewrite Hgate. repeat (split; [reflexivity|]).
  apply SignInFacts.gate_reply in Hgate as (Hs & _ & Hst & [-> | ->]);
    cbn; auto 10.
Qed.

Lemma write_routes_stop_at_the_gate_witness :
  let req := Fixtures.incoming (Some Sample.expiredToken) [] [Fixtures.pdfPart] in
  Routes.postGallery Sample.mongoose Sample.timeout Fixtures.settings
    Sample.env Sample.world req
  = (log "Authentication error:" Sample.world,
     Routes.sent (fail 401 "Access denied. Invalid token."))
  /\ Routes.deleteNotice Fixtures.settings Sample.env Sample.world req
     = (log "Authentication error:" Sample.world,
        Routes.sent (fail 401 "Access denied. Invalid token.")).
Proof.
  intros req.
  destruct (write_routes_stop_at_the_gate Sample.joi Sample.mongoose
              Sample.timeout Fixtures.settings Fixtures.basename 42 Sample.env
              Sample.world (log "Authentication error:" Sample.world) req
              (fail 401 "Access denied. Invalid token.") eq_refl)
    as (_ & _ & Hd & _ & Hg & _).
  split; [exact Hg|exact Hd].
Defined.

(** X23.  POST /api/gallery answers 400 and changes nothing but the
    console whenever the gate lets the request through and the upload
    middleware does not: no file part, a file under another field name, a
    second file, a type outside the allowed list or a file larger than the
    maximum. *)
Theorem postGallery_refused_upload_is_400 (M : Mongoose.lib)
  (rejection : Js.error) (S : Routes.settings) (e : Env) (w w' : World)
  (req : Routes.Incoming) (admin : Auth.AdminContext) :
  Auth.authenticateAdmin (Routes.JWT_SECRET S) e w (Routes.cookie req)
  = (w', Auth.Next admin) ->
  (forall file,
     Upload.requiredUpload (Routes.ALLOWED_FILE_TYPES S)
       (Routes.MAX_FILE_SIZE S) Upload.memoryStorage (Routes.parts req)
     <> Upload.Next file) ->
  let r := Routes.postGallery M rejection S e w req in
  status r.2 = 400 /\ success r.2 = false
  /\ gallery r.1 = gallery w /\ cloud r.1 = cloud w /\ notices r.1 = notices w.
Proof.
  intros Hgate Hrefused. cbv zeta.
  unfold Routes.postGallery, Routes.behindGate. rewrite Hgate.
  apply SignInFacts.gate_next in Hgate as (-> & _).
  match goal with
  | |- context [Routes.afterUpload e w ?s ?h] =>
      destruct (UploadFacts.refused_upload (Routes.ALLOWED_FILE_TYPES S)
                  (Routes.MAX_FILE_SIZE S) Upload.memoryStorage
                  (Routes.parts req) e w h s (or_intror eq_refl))
        as [(o & Ho)|(Hst & Hs & Hn & Hg & Hc & _)]
  end.
  - by destruct (Hrefused o).
  - auto.
Qed.

Lemma postGallery_refused_upload_is_400_witness :
  let req :=
    Fixtures.incoming (Some Sample.liveToken) []
      [Upload.mkPart "attachment" "setup.exe" "application/x-msdownload" 1024] in
  let r :=
    Routes.postGallery Sample.mongoose Sample.timeout Fixtures.settings
      Sample.env Sample.world req in
  status r.2 = 400 /\ success r.2 = false
  /\ gallery r.1 = gallery Sample.world /\ cloud r.1 = cloud Sample.world
  /\ notices r.1 = notices Sample.world.
Proof.
  intros req.
  apply (postGallery_refused_upload_is_400 Sample.mongoose Sample.timeout
           Fixtures.settings Sample.env Sample.world Sample.world req
           Sample.context); [reflexivity|].
  intros file. vm_compute. discriminate.
Defined.

(** X24.  In the version that keeps attachments on the local disk, the
    whole route POST /api/notices (gate, upload to uploads/, handler)
    keeps the file it stored: once the gate and the upload middleware
    have let the request through with a file, the file is on the disk
    after the request whether a notice was created or not.  The handler
    then answers 201, or sends nothing because its promise rejected with
    the [ReferenceError] of the unbound [deleteFile]; for a body the
    validation refuses it is the rejection, and no notice is stored. *)
Theorem postNoticeLocal_keeps_the_stored_file (J : Joi.lib)
  (S : Routes.settings) (basename : string -> string -> string)
  (randomNumber : Z) (e : Env) (w : World) (req : Routes.Incoming)
  (admin : Auth.AdminContext) (f : Multer.File) :
  Auth.authenticateAdmin (Routes.JWT_SECRET S) e w (Routes.cookie req)
  = (w, Auth.Next admin) ->
  Upload.optionalUpload (Routes.ALLOWED_FILE_TYPES S) (Routes.MAX_FILE_SIZE S)
    (Upload.diskStorage basename (now e) randomNumber) (Routes.parts req)
  = Upload.Next (Some f) ->
  let r := Routes.postNoticeLocal J S basename randomNumber e w req in
  (Multer.path f ∈ disk r.1)
  /\ (r.2 = Throws LocalNoticeController.deleteFile
      \/ exists n,
           r.2 = Returns (ok 201 "Notice created successfully"
                            (OneNotice (Some n)))
           /\ notices r.1 = <[newObjectId e := n]> (notices w)
           /\ Notice.attachment n
              = Some (LocalNoticeController.fileAttachment f))
  /\ (Joi.details (Joi.validateNotice J (Routes.fields req)) <> [] ->
      r.2 = Throws LocalNoticeController.deleteFile
      /\ notices r.1 = notices w).
Proof.
  intros Hgate Hup. cbv zeta.
  unfold Routes.postNoticeLocal. rewrite Hgate, Hup.
  cbn [Upload.written].
  set (w1 := with_disk _ w).
  set (request := Routes.request req (Some f) admin).
  destruct (LocalFacts.local_createNotice_cases J e w1 request)
    as (_ & _ & _ & Hd & Hcases).
  split; [|split].
  - rewrite Hd. subst w1. cbn.
    apply elem_of_union; right. by apply elem_of_singleton.
  - unfold LocalNoticeController.createFailed in Hcases. cbn in Hcases.
    destruct Hcases as [(n & Hn & _ & Ha & _ & [[Hp ->]|[Hp ->]])
                       |(Hn & [->|[? _]])]; [| | |discriminate].
    + right. eauto.
    + by left.
    + by left.
  - intros Hbad. unfold LocalNoticeController.createNotice.
    cbn [body file request Routes.request].
    destruct (Joi.details (Joi.validateNotice J (Routes.fields req)));
      [contradiction|].
    split; reflexivity.
Qed.

Lemma postNoticeLocal_keeps_the_stored_file_witness :
  let req := Fixtures.incoming (Some Sample.liveToken) [] [Fixtures.pdfPart] in
  let r :=
    Routes.postNoticeLocal Sample.joi Fixtures.settings Fixtures.basename 42
      Sample.env Sample.world req in
  ("uploads/schedule-1700000000000-42.pdf" ∈ disk r.1)
  /\ r.2 = Throws LocalNoticeController.deleteFile
  /\ notices r.1 = notices Sample.world.
Proof.
  intros req r.
  destruct (postNoticeLocal_keeps_the_stored_file Sample.joi Fixtures.settings
              Fixtures.basename 42 Sample.env Sample.world req Sample.context
              (Upload.diskStorage Fixtures.basename (now Sample.env) 42
                 Fixtures.pdfPart)
              eq_refl eq_refl) as (Hdisk & _ & Hbad).
  split; [exact Hdisk|]. apply Hbad. discriminate.
Defined.

(** X25.  A notice created through POST /api/notices is attributed to an
    admin who, at that moment, exists, is active and holds a live token
    signed with the configured secret.  The request carried no file part
    and the notice has no attachment: the 201 is always one of a notice
    without a file. *)
Theorem postNotice_created_by_authenticated_admin (J : Joi.lib)
  (S : Routes.settings) (e : Env) (w : World) (req : Routes.Incoming) :
  let r := Routes.postNotice J S e w req in
  status r.2 = 201 ->
  exists t a n,
    Routes.cookie req = Some (Auth.WellFormed t)
    /\ Auth.signedWith t = Routes.JWT_SECRET S
    /\ now e / 1000 < Auth.exp t
    /\ admins w !! Auth.adminId (Auth.payload t) = Some a
    /\ Admin.isActive a = true
    /\ data r.2 = Some (OneNotice (Some n))
    /\ notices r.1 !! newObjectId e = Some n
    /\ Notice.createdBy n = Admin._id a
    /\ Notice.attachment n = None
    /\ Routes.parts req = [].
Proof.
  cbv zeta. unfold Routes.postNotice, Routes.behindGate.
  destruct (Auth.authenticateAdmin (Routes.JWT_SECRET S) e w (Routes.cookie req))
    as [w' [r|admin]] eqn:Hgate.
  { apply SignInFacts.gate_reply in Hgate as (_ & _ & [Hst|Hst] & _);
      cbn; rewrite Hst; discriminate. }
  apply SignInFacts.gate_next in Hgate
    as (-> & t & a & Hcookie & Hsig & Hexp & _ & _ & Ha & Hact & ->).
  set (s := Upload.optionalUpload _ _ _ _).
  destruct (UploadFacts.refused_upload (Routes.ALLOWED_FILE_TYPES S)
              (Routes.MAX_FILE_SIZE S) Upload.memoryStorage (Routes.parts req)
              e w
              (fun file =>
                 NoticeController.createNotice J e w
                   (Routes.request req file
                      (Auth.mkContext (Admin._id a) (Admin.email a)
                         (Admin.name a) (Admin.role a)))) s
              (or_introl eq_refl))
    as [(o & Ho)|(Hst & _)]; [|rewrite Hst; discriminate].
  rewrite Ho. cbn [Routes.afterUpload].
  pose proof (upload_passes := Ho). subst s.
  intros Hst.
  set (request := Routes.request req o _) in *.
  destruct (MoreNoticeFacts.createNotice_cases J e w request)
    as (_ & _ & [(n & Hn & Hfile & _ & Hby & _ & _ & Hatt & _ & _ & Hr)
                |(Hne & _)]); [|done].
  destruct Hr as [[_ Hr]|[_ Hr]]; [|rewrite Hr in Hst; discriminate].
  exists t, a, n. repeat (split; [assumption|]).
  split; [by rewrite Hr|].
  split; [by rewrite Hn, lookup_insert_eq|]. split; [exact Hby|].
  split; [exact Hatt|].
  cbn [file request Routes.request] in Hfile. subst o.
  unfold Upload.optionalUpload in upload_passes.
  destruct (Upload.uploadSingle _ _ _ _ None) as [error|o'] eqn:Hup.
  { destruct (UploadFacts.handleMulterError_cases (Routes.MAX_FILE_SIZE S) error)
      as [(r & Hr' & _)|(err & _ & Hr')]; rewrite Hr' in upload_passes;
      discriminate. }
  injection upload_passes as ->.
  apply UploadFacts.uploadSingle_accepts in Hup
    as [[Hparts _]|(p & _ & ? & _)]; [exact Hparts|discriminate].
Qed.

Lemma postNotice_created_by_authenticated_admin_witness :
  let req :=
    Fixtures.incoming (Some Sample.liveToken) (Sample.noticeBody None) [] in
  let r :=
    Routes.postNotice Sample.joi Fixtures.settings Sample.env Sample.world req in
  exists n,
    data r.2 = Some (OneNotice (Some n))
    /\ Notice.createdBy n = Sample.adminId
    /\ Notice.attachment n = None.
Proof.
  intros req.
  destruct (postNotice_created_by_authenticated_admin Sample.joi
              Fixtures.settings Sample.env Sample.world req eq_refl)
    as (t & a & n & Hcookie & _ & _ & Ha & _ & Hd & _ & Hby & Hatt & _).
  exists n. split; [exact Hd|]. split; [|exact Hatt].
  rewrite Hby. injection Hcookie as <-.
  vm_compute in Ha. by injection Ha as <-.
Defined.

Module EnvironmentFacts.
Import Js.

Lemma env_or_not_empty env k d : d <> "" -> Environment.env_or env k d <> "".
Proof.
  intros Hd. unfold Environment.env_or.
  destruct (env !! k) as [v|]; [|assumption].
  destruct (String.eqb_spec v ""); assumption.
Qed.

Lemma env_or_unset env k d :
  Environment.unset env k = true -> Environment.env_or env k d = d.
Proof.
  unfold Environment.unset, Environment.env_or.
  destruct (env !! k) as [v|]; [|reflexivity]. by intros ->.
Qed.

End EnvironmentFacts.

(** X26.  [validateEnvironment] cannot fail: [config] replaces a missing
    or empty MONGODB_URI and JWT_SECRET by its defaults before the check
    looks at them, so the check of the required variables never throws.
    In particular a server started without JWT_SECRET runs with the secret
    written in the source; all it does, in production, is log a warning. *)
Theorem validateEnvironment_never_throws (env : gmap string string)
  (w : World) :
  exists w',
    Environment.validateEnvironment env w = Returns w'
    /\ admins w' = admins w /\ notices w' = notices w
    /\ gallery w' = gallery w
    /\ Environment.JWT_SECRET (Environment.config env) <> ""
    /\ Environment.MONGODB_URI (Environment.config env) <> ""
    /\ (Environment.unset env "JWT_SECRET" = true ->
        Environment.JWT_SECRET (Environment.config env)
        = "hitech-jwt-secret-key-2024").
Proof.
  unfold Environment.validateEnvironment.
  assert (Hs : Environment.JWT_SECRET (Environment.config env) <> "")
    by (apply EnvironmentFacts.env_or_not_empty; discriminate).
  assert (Hm : Environment.MONGODB_URI (Environment.config env) <> "")
    by (apply EnvironmentFacts.env_or_not_empty; discriminate).
  cbn [Environment.firstMissing Environment.config_string String.eqb
       Ascii.eqb Bool.eqb].
  destruct (String.eqb_spec (Environment.MONGODB_URI (Environment.config env))
              ""); [done|].
  destruct (String.eqb_spec (Environment.JWT_SECRET (Environment.config env))
              ""); [done|].
  rewrite !andb_false_r.
  eexists. split; [reflexivity|].
  split; [by destruct (_ && _)|]. split; [by destruct (_ && _)|].
  split; [by destruct (_ && _)|]. split; [assumption|]. split; [assumption|].
  intros Hunset. cbn [Environment.config Environment.JWT_SECRET].
  by apply EnvironmentFacts.env_or_unset.
Qed.

Module PagingFacts.
Import Js Http.

Lemma chunks {A} (k : nat) (n : nat) :
  (0 < k)%nat ->
  forall l : list A,
    (length l <= n * k)%nat ->
    mjoin (map (fun i => take k (drop (i * k) l)) (seq 0 n)) = l.
Proof.
  intros Hk. induction n as [|n IH]; intros l Hlen.
  - destruct l; [reflexivity|simpl in Hlen; lia].
  - cbn [seq map mjoin]. rewrite Nat.mul_0_l, drop_0.
    rewrite <- seq_shift, map_map.
    assert (Hshift :
      map (fun x => take k (drop (S x * k) l)) (seq 0 n)
      = map (fun i => take k (drop (i * k) (drop k l))) (seq 0 n)).
    { apply map_ext. intros i. rewrite drop_drop. do 2 f_equal; lia. }
    rewrite Hshift.
    change (take k l ++ mjoin (map (fun i => take k (drop (i * k) (drop k l)))
                                 (seq 0 n)) = l).
    rewrite IH by (rewrite length_drop; lia).
    apply take_drop.
Qed.

Lemma page_items e w req :
  dbUp e = true ->
  0 <= (parseInt_or (query_page req) 1 - 1) * parseInt_or (query_limit req) 10 ->
  listed (NoticeController.getAllNotices e w req).2
  = take (Z.to_nat (Z.abs (parseInt_or (query_limit req) 10)))
      (drop (Z.to_nat ((parseInt_or (query_page req) 1 - 1)
                       * parseInt_or (query_limit req) 10))
         (NoticeModel.sort (map snd (map_to_list (notices w))))).
Proof.
  intros Hdb Hpos.
  destruct (ListingFacts.getAllNotices_cases e w req)
    as [(_ & _ & ->)|([Hdown|Hneg] & _)]; [reflexivity|congruence|lia].
Qed.

Lemma before_spec a b :
  NoticeModel.before a b = true
  <-> Notice.date b < Notice.date a
      \/ (Notice.date a = Notice.date b
          /\ Notice.createdAt b <= Notice.createdAt a).
Proof.
  unfold NoticeModel.before.
  rewrite orb_true_iff, andb_true_iff, Z.ltb_lt, Z.eqb_eq, Z.leb_le.
  reflexivity.
Qed.

Lemma before_trans a b c :
  NoticeModel.before a b = true -> NoticeModel.before b c = true ->
  NoticeModel.before a c = true.
Proof. rewrite !before_spec. lia. Qed.

(** Two orders of the same notices by [before] are the same list when no
    two of the notices tie. *)
Lemma sorted_unique (l1 l2 : list Notice.t) :
  (forall a b, a ∈ l1 -> b ∈ l1 ->
     NoticeModel.before a b = true -> NoticeModel.before b a = true -> a = b) ->
  l1 ≡ₚ l2 ->
  Sorted (fun a b => NoticeModel.before a b = true) l1 ->
  Sorted (fun a b => NoticeModel.before a b = true) l2 ->
  l1 = l2.
Proof.
  intros Hanti Hperm Hs1 Hs2.
  assert (Htrans : Relations_1.Transitive
                     (fun a b => NoticeModel.before a b = true)).
  { intros a b c. apply before_trans. }
  apply Sorted_StronglySorted in Hs1; [|exact Htrans].
  apply Sorted_StronglySorted in Hs2; [|exact Htrans].
  clear Htrans. revert l2 Hperm Hs2.
  induction Hs1 as [|a l1 Hs1 IH Ha]; intros l2 Hperm Hs2.
  - by apply Permutation_nil_l in Hperm.
  - destruct Hs2 as [|b l2 Hs2 Hb].
    + by apply Permutation_nil_r in Hperm.
    + assert (Hab : a = b).
      { assert (Hin_a : a ∈ b :: l2).
        { rewrite <- Hperm. apply list_elem_of_here. }
        assert (Hin_b : b ∈ a :: l1).
        { rewrite Hperm. apply list_elem_of_here. }
        apply elem_of_cons in Hin_a as [?|Hin_a]; [assumption|].
        apply elem_of_cons in Hin_b as [?|Hin_b]; [congruence|].
        apply Hanti.
        - apply list_elem_of_here.
        - by apply list_elem_of_further.
        - rewrite List.Forall_forall in Ha. apply Ha.
          by apply list_elem_of_In.
        - rewrite List.Forall_forall in Hb. apply Hb.
          by apply list_elem_of_In. }
      subst b. f_equal. apply IH.
      * intros x y Hx Hy. apply Hanti; by apply list_elem_of_further.
      * by apply Permutation_cons_inv in Hperm.
      * assumption.
Qed.

End PagingFacts.

(** X27.  The pages of GET /api/notices partition the collection.  When
    no two notices tie on date and creation time, the order of the query
    is the only order of the collection by date and then creation time,
    latest first; and for a positive page size the lists answered for the
    pages 1 to [totalPages], one after the other, are the whole
    collection in that order, no notice missing and none repeated, as
    long as the collection does not change in between. *)
Theorem pages_partition_the_collection (e : Env) (w : World) (limit : Z)
  (reqs : list Request) :
  dbUp e = true ->
  0 < limit ->
  (forall id1 id2 n1 n2,
     notices w !! id1 = Some n1 -> notices w !! id2 = Some n2 ->
     Notice.date n1 = Notice.date n2 ->
     Notice.createdAt n1 = Notice.createdAt n2 ->
     id1 = id2) ->
  (forall i req,
     reqs !! i = Some req ->
     parseInt_or (query_page req) 1 = Z.of_nat (S i)
     /\ parseInt_or (query_limit req) 10 = limit) ->
  Z.of_nat (length reqs) = ceil_div (Z.of_nat (size (notices w))) limit ->
  (forall l,
     l ≡ₚ map snd (map_to_list (notices w)) ->
     Sorted (fun a b => NoticeModel.before a b = true) l ->
     l = NoticeModel.sort (map snd (map_to_list (notices w))))
  /\ mjoin (map (fun req =>
                   listed (NoticeController.getAllNotices e w req).2)
              reqs)
     = NoticeModel.sort (map snd (map_to_list (notices w))).
Proof.
  intros Hdb Hlimit Hdistinct Hreqs Hpages. split.
  { intros l Hperm Hsorted.
    apply PagingFacts.sorted_unique;
      [|by rewrite NoticeFacts.sort_perm|assumption|apply NoticeFacts.sort_sorted].
    intros a b Ha Hb Hab Hba.
    rewrite Hperm in Ha, Hb.
    apply list_elem_of_fmap in Ha as ([ia a'] & -> & Ha).
    apply list_elem_of_fmap in Hb as ([ib b'] & -> & Hb).
    apply elem_of_map_to_list in Ha, Hb. cbn in *.
    apply PagingFacts.before_spec in Hab, Hba.
    assert (ia = ib) as -> by (apply (Hdistinct ia ib a' b'); (assumption || lia)).
    congruence. }
  set (all := NoticeModel.sort (map snd (map_to_list (notices w)))).
  set (k := Z.to_nat limit).
  assert (Hk : (0 < k)%nat) by lia.
  assert (Hmap :
    map (fun req => listed (NoticeController.getAllNotices e w req).2)
      reqs
    = map (fun i => take k (drop (i * k) all)) (seq 0 (length reqs))).
  { apply list_eq. intros i. rewrite !list_lookup_fmap.
    destruct (reqs !! i) as [req|] eqn:Hreq.
    - rewrite lookup_seq_lt by (by eapply lookup_lt_Some).
      destruct (Hreqs i req Hreq) as (Hp & Hl). cbn.
      rewrite PagingFacts.page_items by (rewrite ?Hp, ?Hl; (assumption || lia)).
      rewrite Hp, Hl. f_equal. fold all. f_equal; [lia|]. f_equal. lia.
    - rewrite lookup_seq_ge by (by apply lookup_ge_None). reflexivity. }
  rewrite Hmap. apply PagingFacts.chunks; [assumption|].
  subst all. rewrite NoticeFacts.find_all_length.
  pose proof (NoticeFacts.ceil_div_bounds (Z.of_nat (size (notices w))) limit
                Hlimit) as [_ Hle].
  rewrite <- Hpages in Hle. nia.
Qed.

Lemma pages_partition_the_collection_witness :
  let req p := Sample.request "" [] (Some p) (Some "10") None in
  mjoin (map (fun r =>
                listed
                  (NoticeController.getAllNotices Sample.env (Sample.board 25)
                     r).2)
           [req "1"; req "2"; req "3"])
  = NoticeModel.sort (map snd (map_to_list (notices (Sample.board 25)))).
Proof.
  intros req.
  apply (pages_partition_the_collection Sample.env (Sample.board 25) 10
           [req "1"; req "2"; req "3"]).
  - reflexivity.
  - lia.
  - intros id1 id2 n1 n2 H1 H2 Hdate _.
    apply elem_of_list_to_map_2 in H1, H2.
    apply list_elem_of_fmap in H1 as (i & [= -> ->] & _).
    apply list_elem_of_fmap in H2 as (j & [= -> ->] & _).
    cbn in Hdate. f_equal. lia.
  - intros [|[|[|i]]] r; cbn; intros [= <-]; vm_compute; auto.
  - vm_compute. reflexivity.
Defined.

Module FileNameFacts.
Import Js FileNames.

Lemma is_underscore_eq a : is_underscore a = true <-> a = underscore.
Proof.
  unfold is_underscore. rewrite Nat.eqb_eq. split.
  - intros H. rewrite <- (ascii_nat_embedding a), H. reflexivity.
  - intros ->. reflexivity.
Qed.

Lemma is_underscore_neq a : is_underscore a = false <-> a <> underscore.
Proof.
  rewrite <- is_underscore_eq. destruct (is_underscore a); split; congruence.
Qed.

Lemma doubled_cons a b l :
  doubled (a :: b :: l) = (is_underscore a && is_underscore b) || doubled (b :: l).
Proof. reflexivity. Qed.

Lemma doubled_app pre post :
  doubled (pre ++ underscore :: underscore :: post) = true.
Proof.
  induction pre as [|a pre IH]; [reflexivity|].
  cbn [app]. destruct (pre ++ underscore :: underscore :: post) eqn:Heq.
  - destruct pre; discriminate.
  - rewrite doubled_cons, IH. apply orb_true_r.
Qed.

Lemma doubled_false l pre post :
  doubled l = false -> l <> pre ++ underscore :: underscore :: post.
Proof. intros H ->. by rewrite doubled_app in H. Qed.

Lemma doubled_tail a l : doubled (a :: l) = false -> doubled l = false.
Proof.
  cbn [doubled]. destruct l; [reflexivity|]. intros H.
  by apply orb_false_elim in H as [_ H].
Qed.

Lemma doubled_prefix l m : doubled (l ++ m) = false -> doubled l = false.
Proof.
  induction l as [|a l IH]; [reflexivity|].
  cbn [app]. intros H. pose proof (doubled_tail _ _ H) as Ht.
  specialize (IH Ht). revert H. cbn [doubled].
  destruct l as [|b l]; [reflexivity|]. cbn [app].
  intros H. apply orb_false_elim in H as [-> _]. exact IH.
Qed.

Lemma collapse_sublist l : collapse l `sublist_of` l.
Proof.
  induction l as [|a l IH]; [constructor|].
  cbn [collapse]. destruct (is_underscore a).
  - destruct l as [|b l]; [reflexivity|].
    destruct (is_underscore b).
    + by apply sublist_cons.
    + by apply sublist_skip.
  - by apply sublist_skip.
Qed.

Lemma collapse_head a l b m :
  collapse (a :: l) = b :: m -> is_underscore a = false -> b = a.
Proof.
  cbn [collapse]. intros H Ha. rewrite Ha in H. congruence.
Qed.

Lemma collapse_not_doubled l : doubled (collapse l) = false.
Proof.
  induction l as [|a l IH]; [reflexivity|].
  cbn [collapse]. destruct (is_underscore a) eqn:Ha.
  - destruct l as [|b l]; [reflexivity|].
    destruct (is_underscore b) eqn:Hb; [exact IH|].
    cbn [doubled]. destruct (collapse (b :: l)) as [|c m] eqn:Hc;
      [reflexivity|].
    assert (c = b) as -> by exact (collapse_head _ _ _ _ Hc Hb).
    rewrite Hb, andb_false_r. exact IH.
  - cbn [doubled]. destruct (collapse l); [reflexivity|].
    rewrite Ha. exact IH.
Qed.

Lemma collapse_id l : doubled l = false -> collapse l = l.
Proof.
  induction l as [|a l IH]; [reflexivity|].
  intros H. pose proof (doubled_tail _ _ H) as Ht. specialize (IH Ht).
  cbn [collapse]. destruct (is_underscore a) eqn:Ha.
  - destruct l as [|b l]; [reflexivity|].
    cbn [doubled] in H. rewrite Ha in H. cbn [andb] in H.
    apply orb_false_elim in H as [-> _]. by rewrite IH.
  - by rewrite IH.
Qed.

Lemma rev_case (l : list ascii) : l = [] \/ exists m a, l = m ++ [a].
Proof. induction l using rev_ind; [by left|right; eauto]. Qed.

Lemma strip_trailing_snoc l a :
  strip_trailing (l ++ [a]) = if is_underscore a then l else l ++ [a].
Proof.
  unfold strip_trailing. rewrite rev_app_distr. cbn [rev app strip_leading].
  destruct (is_underscore a).
  - apply rev_involutive.
  - cbn [rev]. by rewrite rev_involutive.
Qed.

Lemma strip_leading_suffix l : exists pre, l = pre ++ strip_leading l.
Proof.
  destruct l as [|a l]; [by exists []|]. cbn.
  destruct (is_underscore a); [by exists [a]|by exists []].
Qed.

Lemma strip_trailing_prefix l : exists post, l = strip_trailing l ++ post.
Proof.
  destruct (rev_case l) as [->|(m & a & ->)].
  { exists []. reflexivity. }
  rewrite strip_trailing_snoc. destruct (is_underscore a).
  - by exists [a].
  - exists []. by rewrite app_nil_r.
Qed.

Lemma replace_special_safe l :
  Forall (fun a => is_kept a = true \/ a = underscore) (replace_special l).
Proof.
  unfold replace_special. apply Forall_fmap, Forall_forall. intros a _. cbn.
  destruct (is_kept a) eqn:Hk; [by left|by right].
Qed.

Lemma replace_special_id l :
  Forall (fun a => is_kept a = true \/ a = underscore) l ->
  replace_special l = l.
Proof.
  unfold replace_special. induction 1 as [|a l Ha _ IH]; [reflexivity|].
  cbn. rewrite IH. f_equal. destruct Ha as [->| ->]; reflexivity.
Qed.

Lemma sanitize_chars_clean l :
  Forall (fun a => is_kept a = true \/ a = underscore) (sanitize_chars l)
  /\ doubled (sanitize_chars l) = false
  /\ (forall a rest, sanitize_chars l = a :: rest -> a <> underscore)
  /\ (forall a pre, sanitize_chars l = pre ++ [a] -> a <> underscore).
Proof.
  unfold sanitize_chars, strip_ends.
  set (c := collapse (replace_special l)).
  assert (Hsafe : Forall (fun a => is_kept a = true \/ a = underscore) c).
  { apply Forall_forall. intros a Ha.
    apply (proj1 (Forall_forall
                    (fun a => is_kept a = true \/ a = underscore) _)
             (replace_special_safe l)).
    eapply elem_of_sublist; [exact Ha|apply collapse_sublist]. }
  assert (Hnd : doubled c = false) by apply collapse_not_doubled.
  set (m := strip_leading c).
  destruct (strip_leading_suffix c) as (pre & Hc). fold m in Hc.
  destruct (strip_trailing_prefix m) as (post & Hm).
  assert (Hm_safe : Forall (fun a => is_kept a = true \/ a = underscore) m).
  { rewrite Hc in Hsafe. by apply Forall_app in Hsafe as [_ ?]. }
  assert (Hm_nd : doubled m = false).
  { subst m. destruct c as [|a c']; [reflexivity|]. cbn.
    destruct (is_underscore a); [by eapply doubled_tail|assumption]. }
  assert (Hm_head : forall a rest, m = a :: rest -> a <> underscore).
  { subst m. destruct c as [|a c']; [discriminate|]. cbn.
    destruct (is_underscore a) eqn:Ha.
    - intros b rest -> ->. apply is_underscore_eq in Ha as ->.
      exact (doubled_false _ [] rest Hnd eq_refl).
    - intros b rest [= <- _]. by apply is_underscore_neq. }
  split; [|split; [|split]].
  - rewrite Hm in Hm_safe. by apply Forall_app in Hm_safe as [? _].
  - rewrite Hm in Hm_nd. by eapply doubled_prefix.
  - intros a rest Hout. rewrite Hout in Hm. by eapply Hm_head.
  - intros a pre' Hout.
    destruct (rev_case m) as [Hnil|(m' & b & Hm')].
    { rewrite Hnil in Hout. by destruct pre'. }
    rewrite Hm', strip_trailing_snoc in Hout.
    destruct (is_underscore b) eqn:Hb.
    + intros ->. apply is_underscore_eq in Hb as ->.
      apply (doubled_false m pre' [] Hm_nd).
      rewrite Hm', Hout, <- app_assoc. reflexivity.
    + apply app_inj_tail in Hout as [_ <-]. by apply is_underscore_neq.
Qed.

Lemma sanitize_chars_id l :
  Forall (fun a => is_kept a = true \/ a = underscore) l ->
  doubled l = false ->
  (forall a rest, l = a :: rest -> a <> underscore) ->
  (forall a pre, l = pre ++ [a] -> a <> underscore) ->
  sanitize_chars l = l.
Proof.
  intros Hsafe Hnd Hhead Hlast. unfold sanitize_chars, strip_ends.
  rewrite replace_special_id, collapse_id by assumption.
  assert (Hl : strip_leading l = l).
  { destruct l as [|a l']; [reflexivity|]. cbn.
    destruct (is_underscore a) eqn:Ha; [|reflexivity].
    apply is_underscore_eq in Ha. by destruct (Hhead a l' eq_refl). }
  rewrite Hl.
  destruct (rev_case l) as [->|(m & a & ->)]; [reflexivity|].
  rewrite strip_trailing_snoc.
  destruct (is_underscore a) eqn:Ha; [|reflexivity].
  apply is_underscore_eq in Ha. by destruct (Hlast a m eq_refl).
Qed.

End FileNameFacts.

(** X28.  [sanitizeFilename] returns a name made of letters, digits,
    dots, hyphens and underscores only, with no two underscores in a row
    and none at either end; it contains no path separator.  Sanitizing a
    sanitized name changes nothing. *)
Theorem sanitizeFilename_is_clean_and_idempotent (filename : string) :
  let out := list_ascii_of_string (FileNames.sanitizeFilename filename) in
  Forall (fun a => FileNames.is_kept a = true \/ a = FileNames.underscore) out
  /\ Forall (fun a => Path.is_slash a = false) out
  /\ (forall pre post,
        out <> pre ++ FileNames.underscore :: FileNames.underscore :: post)
  /\ (forall a rest, out = a :: rest -> a <> FileNames.underscore)
  /\ (forall a pre, out = pre ++ [a] -> a <> FileNames.underscore)
  /\ FileNames.sanitizeFilename (FileNames.sanitizeFilename filename)
     = FileNames.sanitizeFilename filename.
Proof.
  cbv zeta. unfold FileNames.sanitizeFilename.
  rewrite !list_ascii_of_string_of_list_ascii.
  destruct (FileNameFacts.sanitize_chars_clean (list_ascii_of_string filename))
    as (Hsafe & Hnd & Hhead & Hlast).
  split; [exact Hsafe|]. split; [|split; [|split; [|split]]].
  - eapply Forall_impl; [exact Hsafe|]. intros a [Hk| ->]; [|reflexivity].
    unfold Path.is_slash.
    destruct (Nat.eqb_spec (nat_of_ascii a) 47) as [Heq|]; [|reflexivity].
    rewrite <- (ascii_nat_embedding a), Heq in Hk. discriminate.
  - intros pre post. by apply FileNameFacts.doubled_false.
  - exact Hhead.
  - exact Hlast.
  - f_equal. by apply FileNameFacts.sanitize_chars_id.
Qed.

Module PathFacts.
Import Js Path.

(** What the loop of [extname] keeps true when the characters after index
    [i] have been read. *)
Lemma extname_loop_inv (path : list ascii) (n : nat) :
  (n <= length path)%nat ->
  forall st,
    (end_ st = -1 -> startDot st = -1) ->
    (end_ st <> -1 -> matchedSlash st = false /\ Z.of_nat n + 1 <= end_ st) ->
    (startDot st <> -1 -> Z.of_nat n <= startDot st < end_ st) ->
    (forall k c,
       Z.of_nat n <= k < end_ st -> path !! Z.to_nat k = Some c ->
       is_slash c = false) ->
    let st' := extname_loop (rev (take n path)) (Z.of_nat n - 1) st in
    exists j,
      0 <= j
      /\ (startDot st' <> -1 -> j <= startDot st' < end_ st')
      /\ (forall k c,
            j <= k < end_ st' -> path !! Z.to_nat k = Some c ->
            is_slash c = false).
Proof.
  induction n as [|n IH]; intros Hn st Hend Hmatched Hdot Hfree; cbv zeta.
  { rewrite take_0. cbn. exists 0. split; [lia|]. split; [exact Hdot|].
    exact Hfree. }
  destruct (lookup_lt_is_Some_2 path n) as [c Hc]; [lia|].
  rewrite (take_S_r _ _ _ Hc), rev_app_distr. cbn [rev app extname_loop].
  replace (Z.of_nat (S n) - 1) with (Z.of_nat n) by lia.
  unfold extname_step.
  destruct (is_slash c) eqn:Hslash.
  - destruct (matchedSlash st) eqn:Hm; cbn [negb].
    + assert (Hnone : end_ st = -1).
      { destruct (Z.eq_dec (end_ st) (-1)) as [|Hne]; [assumption|].
        destruct (Hmatched Hne). congruence. }
      apply IH; [lia|assumption| | |]; intros; lia.
    + exists (Z.of_nat (S n)). cbn. split; [lia|]. split; [exact Hdot|].
      exact Hfree.
  - set (st1 := if end_ st =? -1 then _ else st).
    assert (H1 : end_ st1 <> -1 /\ matchedSlash st1 = false
                 /\ Z.of_nat n + 1 <= end_ st1
                 /\ startDot st1 = startDot st
                 /\ (end_ st <> -1 -> end_ st1 = end_ st)).
    { subst st1. destruct (Z.eqb_spec (end_ st) (-1)) as [Heq|Hne]; cbn.
      - repeat split; (lia || done).
      - destruct (Hmatched Hne). repeat split; (lia || done). }
    destruct H1 as (Hend1 & Hm1 & Hle1 & Hsd1 & Hsame).
    assert (Hfree1 : forall k c',
      Z.of_nat n <= k < end_ st1 -> path !! Z.to_nat k = Some c' ->
      is_slash c' = false).
    { intros k c' Hk Hlook.
      destruct (Z.eq_dec k (Z.of_nat n)) as [->|Hkn].
      - rewrite Nat2Z.id in Hlook. congruence.
      - destruct (Z.eq_dec (end_ st) (-1)) as [Heq|Hne].
        + subst st1. rewrite Heq in Hk. cbn in Hk. lia.
        + apply (Hfree k c'); [|assumption]. rewrite <- (Hsame Hne). lia. }
    assert (Hdot1 : startDot st1 <> -1 -> Z.of_nat n < startDot st1 < end_ st1).
    { rewrite Hsd1. intros Hne.
      destruct (Z.eq_dec (end_ st) (-1)) as [Heq|Hne'].
      - by destruct (Hne (Hend Heq)).
      - rewrite (Hsame Hne'). specialize (Hdot Hne). lia. }
    set (st2 := if is_dot c then _ else _).
    assert (H2 : end_ st2 = end_ st1 /\ matchedSlash st2 = matchedSlash st1
                 /\ (startDot st2 = startDot st1
                     \/ startDot st2 = Z.of_nat n)).
    { subst st2. repeat match goal with
             | |- context [if ?b then _ else _] => destruct b
             end; cbn; auto. }
    destruct H2 as (Hend2 & Hm2 & Hsd2).
    apply IH; [lia| | | |].
    + intros Heq. rewrite Hend2 in Heq. contradiction.
    + intros _. rewrite Hend2, Hm2. split; [assumption|lia].
    + intros Hne. rewrite Hend2. destruct Hsd2 as [Heq|Heq]; rewrite Heq in *.
      * specialize (Hdot1 Hne). lia.
      * lia.
    + intros k c' Hk. rewrite Hend2 in Hk. by apply Hfree1.
Qed.

Lemma extname_chars_no_slash (path : list ascii) :
  Forall (fun a => is_slash a = false) (extname_chars path).
Proof.
  unfold extname_chars.
  set (st := extname_loop (rev path) (Z.of_nat (length path) - 1)
               (mkScan (-1) 0 (-1) true 0)).
  assert (H : exists j,
    0 <= j
    /\ (startDot st <> -1 -> j <= startDot st < end_ st)
    /\ (forall k c,
          j <= k < end_ st -> path !! Z.to_nat k = Some c ->
          is_slash c = false)).
  { pose proof (extname_loop_inv path (length path) (Nat.le_refl _)
                  (mkScan (-1) 0 (-1) true 0)) as H.
    cbv zeta in H. rewrite firstn_all in H. apply H; cbn; intros; lia. }
  destruct H as (j & Hj & Hdot & Hfree).
  destruct (Z.eqb_spec (startDot st) (-1)) as [Heq|Hne]; cbn [orb];
    [constructor|].
  destruct (_ || _); [constructor|].
  specialize (Hdot Hne). unfold slice.
  apply Forall_lookup. intros m c Hc. apply lookup_take_Some in Hc as [Hc Hm].
  rewrite lookup_drop in Hc.
  apply (Hfree (startDot st + Z.of_nat m) c); [lia|].
  rewrite Z2Nat.inj_add, Nat2Z.id by lia. exact Hc.
Qed.

Lemma chars_app s1 s2 :
  list_ascii_of_string (s1 +:+ s2)
  = list_ascii_of_string s1 ++ list_ascii_of_string s2.
Proof.
  induction s1 as [|a s1 IH]; [reflexivity|].
  change (a :: list_ascii_of_string (s1 +:+ s2)
          = a :: (list_ascii_of_string s1 ++ list_ascii_of_string s2)).
  by rewrite IH.
Qed.

Lemma pretty_N_char_no_slash n : is_slash (pretty_N_char n) = false.
Proof.
  unfold pretty_N_char.
  repeat match goal with
         | |- context [match ?x with _ => _ end] => destruct x
         end; reflexivity.
Qed.

Lemma pretty_N_go_no_slash x s :
  Forall (fun a => is_slash a = false) (list_ascii_of_string s) ->
  Forall (fun a => is_slash a = false)
    (list_ascii_of_string (pretty_N_go x s)).
Proof.
  revert s. induction (N.lt_wf_0 x) as [x _ IH]. intros s Hs.
  destruct (decide (x = 0)%N) as [->|Hx].
  - by rewrite pretty_N_go_0.
  - rewrite pretty_N_go_step by lia. apply IH; [apply N.div_lt; lia|].
    cbn. constructor; [apply pretty_N_char_no_slash|assumption].
Qed.

Lemma pretty_Z_no_slash (z : Z) :
  Forall (fun a => is_slash a = false) (list_ascii_of_string (pretty z)).
Proof.
  assert (Hpos : forall p,
    Forall (fun a => is_slash a = false)
      (list_ascii_of_string (pretty (Npos p)))).
  { intros p. unfold pretty, pretty_N. simpl.
    rewrite pretty_N_go_step by lia. apply pretty_N_go_no_slash.
    constructor; [apply pretty_N_char_no_slash|constructor]. }
  destruct z as [|p|p]; unfold pretty, pretty_Z.
  - repeat constructor.
  - apply Hpos.
  - rewrite chars_app. apply Forall_app. split; [repeat constructor|].
    apply Hpos.
Qed.

Lemma lower_char_no_slash a :
  is_slash a = false -> is_slash (FileNames.lower_char a) = false.
Proof.
  destruct a as [[] [] [] [] [] [] [] []]; intros H; try discriminate H;
    reflexivity.
Qed.

End PathFacts.

(** X29.  The names the program generates for stored files contain no
    path separator, whatever the name the client sent: neither the name
    the upload middleware stores a file under in uploads/, nor the name
    [generateUniqueFilename] builds, given that the random part has
    none.  The extension [path.extname] cuts from the original name never
    holds a separator, and the stem is sanitized. *)
Theorem generated_file_names_have_no_separator
  (basename : string -> string -> string) (now randomNumber : Z)
  (randomString originalname : string) :
  Forall (fun a => Path.is_slash a = false)
    (list_ascii_of_string randomString) ->
  Forall (fun a => Path.is_slash a = false)
    (list_ascii_of_string
       (FileNames.storedFilename basename now randomNumber originalname))
  /\ Forall (fun a => Path.is_slash a = false)
       (list_ascii_of_string
          (FileNames.generateUniqueFilename basename now randomString
             originalname))
  /\ Forall (fun a => Path.is_slash a = false)
       (list_ascii_of_string (Path.extname originalname)).
Proof.
  intros Hrandom.
  assert (Hext : Forall (fun a => Path.is_slash a = false)
                   (list_ascii_of_string (Path.extname originalname))).
  { unfold Path.extname. rewrite list_ascii_of_string_of_list_ascii.
    apply PathFacts.extname_chars_no_slash. }
  split; [|split; [|exact Hext]].
  - unfold FileNames.storedFilename.
    rewrite !PathFacts.chars_app, list_ascii_of_string_of_list_ascii.
    repeat (apply Forall_app; split);
      try apply PathFacts.pretty_Z_no_slash; try exact Hext;
      try (repeat constructor).
    apply Forall_fmap, Forall_forall. intros a _. cbn.
    destruct (FileNames.is_alnum a) eqn:Ha; [|reflexivity].
    unfold Path.is_slash.
    destruct (Nat.eqb_spec (nat_of_ascii a) 47) as [Heq|]; [|reflexivity].
    rewrite <- (ascii_nat_embedding a), Heq in Ha. discriminate.
  - unfold FileNames.generateUniqueFilename, FileNames.getFileExtension,
      FileNames.toLowerCase.
    rewrite !PathFacts.chars_app, list_ascii_of_string_of_list_ascii.
    repeat (apply Forall_app; split);
      try apply PathFacts.pretty_Z_no_slash; try exact Hrandom;
      try (repeat constructor).
    + unfold FileNames.sanitizeFilename.
      rewrite list_ascii_of_string_of_list_ascii.
      destruct (FileNameFacts.sanitize_chars_clean
                  (list_ascii_of_string
                     (FileNames.getFileNameWithoutExtension basename
                        originalname))) as (Hsafe & _).
      eapply Forall_impl; [exact Hsafe|]. intros a [Hk| ->]; [|reflexivity].
      unfold Path.is_slash.
      destruct (Nat.eqb_spec (nat_of_ascii a) 47) as [Heq|]; [|reflexivity].
      rewrite <- (ascii_nat_embedding a), Heq in Hk. discriminate.
    + apply Forall_fmap. eapply Forall_impl; [exact Hext|].
      intros a Ha. by apply PathFacts.lower_char_no_slash.
Qed.

Lemma generated_file_names_have_no_separator_witness :
  Forall (fun a => Path.is_slash a = false)
    (list_ascii_of_string
       (FileNames.storedFilename Fixtures.basename 1700000000000 42
          "../../etc/passwd.png"))
  /\ Forall (fun a => Path.is_slash a = false)
       (list_ascii_of_string
          (FileNames.generateUniqueFilename Fixtures.basename 1700000000000
             "k3x9ab" "../../etc/passwd.png"))
  /\ Forall (fun a => Path.is_slash a = false)
       (list_ascii_of_string (Path.extname "../../etc/passwd.png")).
Proof.
  apply (generated_file_names_have_no_separator Fixtures.basename
           1700000000000 42 "k3x9ab" "../../etc/passwd.png").
  repeat constructor.
Defined.
